(** * Warped K-Means (js/wkmb.js): a shallow embedding and its properties

    The class [WKM] of [js/wkmb.js] clusters an ordered sequence of numeric
    vectors into contiguous segments.  The instance is a record, every
    method is a function from instances to outcomes, and an outcome is a
    normal return, the string exception ["Empty cluster j"], or an
    execution that leaves what is modelled.

    Numbers.  Indices and counters are [Z].  Coordinates, centroids and
    energies are exact rationals [Q]: the development speaks about the
    algorithm under exact arithmetic, not about IEEE rounding.

    Arrays.  A JavaScript array is a [list]; a read outside it yields
    [None] (JavaScript's [undefined]); a write at an index below the length
    replaces, a write at the length appends, and a write further out (which
    would leave holes) leaves the model. *)

From Stdlib Require Import ZArith QArith Qround Qabs Lia Ascii.
From stdpp Require Import base list strings.

Local Open Scope Z_scope.

(** ** Outcomes *)

Inductive result (A : Type) : Type :=
| Ret (a : A)                (* normal completion *)
| EmptyCluster (j : Z)       (* throw "Empty cluster " + j *)
| Stuck                      (* a TypeError, or arithmetic on undefined *)
| OutOfFuel.                   (* a loop of the model ran out of fuel *)
Arguments Ret {A} a.
Arguments EmptyCluster {A} j.
Arguments Stuck {A}.
Arguments OutOfFuel {A}.

#[global] Instance result_ret : MRet result := fun A a => Ret a.
#[global] Instance result_bind : MBind result := fun A B f r =>
  match r with
  | Ret a => f a
  | EmptyCluster j => EmptyCluster j
  | Stuck => Stuck
  | OutOfFuel => OutOfFuel
  end.

Definition defined {A} (o : option A) : result A :=
  match o with Some a => Ret a | None => Stuck end.

(** A counted loop over a list of indices, threading the instance. *)
Fixpoint for_each {A St : Type} (body : St -> A -> result St) (l : list A) (s : St)
  : result St :=
  match l with
  | [] => Ret s
  | x :: l' => s' ← body s x; for_each body l' s'
  end.

(** The indices [0, 1, ..., n-1] of [for (var j = 0; j < n; j++)]. *)
Definition upto (n : Z) : list Z := Z.of_nat <$> seq 0 (Z.to_nat n).

(** ** Arrays *)

Definition len {A} (l : list A) : Z := Z.of_nat (length l).

(** [a[i]] *)
Definition js_get {A} (l : list A) (i : Z) : option A :=
  if i <? 0 then None else l !! Z.to_nat i.

(** [a[i] = v] *)
Definition js_set {A} (l : list A) (i : Z) (v : A) : option (list A) :=
  if i <? 0 then None
  else if i <? len l then Some (<[Z.to_nat i := v]> l)
  else if i =? len l then Some (l ++ [v])
  else None.

(** One end of [Array.prototype.slice]: a negative index counts from the
    end, everything is clamped to [0, len], [undefined] gives the default. *)
Definition slice_index (n : Z) (dflt : Z) (o : option Z) : Z :=
  match o with
  | None => dflt
  | Some z => if z <? 0 then Z.max (n + z) 0 else Z.min z n
  end.

(** [a.slice(start, end)] *)
Definition js_slice {A} (l : list A) (start stop : option Z) : list A :=
  let k := slice_index (len l) 0 start in
  let fin := slice_index (len l) (len l) stop in
  take (Z.to_nat (fin - k)) (drop (Z.to_nat k) l).

(** [a.indexOf(x) > -1] on an array of integers *)
Definition js_contains (l : list Z) (x : Z) : bool :=
  existsb (Z.eqb x) l.

(** [s.toLowerCase()], on the ASCII letters *)
Definition lower_ascii (c : ascii) : ascii :=
  let n := nat_of_ascii c in
  if (65 <=? n)%nat && (n <=? 90)%nat then ascii_of_nat (n + 32) else c.

Fixpoint toLowerCase (s : string) : string :=
  match s with
  | EmptyString => EmptyString
  | String c s' => String (lower_ascii c) (toLowerCase s')
  end.

(** ** Numbers *)

Definition Qltb (x y : Q) : bool := (Qnum x * QDen y <? Qnum y * QDen x)%Z.

Definition sample := list Q.

(** Coordinate [d] of a vector.  All vectors of a run have the dimension of
    the first sample (the constructor's assumption), so the reads of the
    code are in range; the default is never used on such data. *)
Definition coord (v : sample) (d : nat) : Q := nth d v 0%Q.

Definition Qsum (l : list Q) : Q := foldr Qplus 0%Q l.

(** Modelled from the spec: [math.sqL2] of the absent [mathlib], the
    squared Euclidean distance between two vectors of equal length. *)
Definition sqL2 (u v : sample) : Q :=
  Qsum (zip_with (fun x y => (x - y) * (x - y))%Q u v).

(** Modelled from the spec: [math.clustercenter] of the absent [mathlib],
    the element-wise mean of a non-empty sequence of vectors of equal
    length. *)
Definition clustercenter (points : list sample) : sample :=
  match points with
  | [] => []
  | p0 :: _ =>
      (fun d => Qsum ((fun p => coord p d) <$> points) / inject_Z (len points))%Q
        <$> seq 0 (length p0)
  end.

(** ** The instance *)

Record WKM : Type := mkWKM {
  maxiter : Z;
  samples : list sample;
  numclusters : Z;
  threshold : Q;
  dimensions : nat;
  initialized : bool;
  boundaries : list Z;
  (* [None] is an entry that is not an array: the number pushed by reset *)
  clusters : list (option (list sample));
  centroids : list (option sample);
  localenergy : list Q;
  totalenergy : Q;
  iterations : Z;
  numtransfers : Z;
  cost : Z
}.

Definition set_initialized (v : bool) (w : WKM) : WKM :=
  mkWKM (maxiter w) (samples w) (numclusters w) (threshold w) (dimensions w)
    v (boundaries w) (clusters w) (centroids w) (localenergy w)
    (totalenergy w) (iterations w) (numtransfers w) (cost w).
Definition set_boundaries (v : list Z) (w : WKM) : WKM :=
  mkWKM (maxiter w) (samples w) (numclusters w) (threshold w) (dimensions w)
    (initialized w) v (clusters w) (centroids w) (localenergy w)
    (totalenergy w) (iterations w) (numtransfers w) (cost w).
Definition set_clusters (v : list (option (list sample))) (w : WKM) : WKM :=
  mkWKM (maxiter w) (samples w) (numclusters w) (threshold w) (dimensions w)
    (initialized w) (boundaries w) v (centroids w) (localenergy w)
    (totalenergy w) (iterations w) (numtransfers w) (cost w).
Definition set_centroids (v : list (option sample)) (w : WKM) : WKM :=
  mkWKM (maxiter w) (samples w) (numclusters w) (threshold w) (dimensions w)
    (initialized w) (boundaries w) (clusters w) v (localenergy w)
    (totalenergy w) (iterations w) (numtransfers w) (cost w).
Definition set_localenergy (v : list Q) (w : WKM) : WKM :=
  mkWKM (maxiter w) (samples w) (numclusters w) (threshold w) (dimensions w)
    (initialized w) (boundaries w) (clusters w) (centroids w) v
    (totalenergy w) (iterations w) (numtransfers w) (cost w).
Definition set_totalenergy (v : Q) (w : WKM) : WKM :=
  mkWKM (maxiter w) (samples w) (numclusters w) (threshold w) (dimensions w)
    (initialized w) (boundaries w) (clusters w) (centroids w) (localenergy w)
    v (iterations w) (numtransfers w) (cost w).
Definition set_iterations (v : Z) (w : WKM) : WKM :=
  mkWKM (maxiter w) (samples w) (numclusters w) (threshold w) (dimensions w)
    (initialized w) (boundaries w) (clusters w) (centroids w) (localenergy w)
    (totalenergy w) v (numtransfers w) (cost w).
Definition set_numtransfers (v : Z) (w : WKM) : WKM :=
  mkWKM (maxiter w) (samples w) (numclusters w) (threshold w) (dimensions w)
    (initialized w) (boundaries w) (clusters w) (centroids w) (localenergy w)
    (totalenergy w) (iterations w) v (cost w).
Definition set_cost (v : Z) (w : WKM) : WKM :=
  mkWKM (maxiter w) (samples w) (numclusters w) (threshold w) (dimensions w)
    (initialized w) (boundaries w) (clusters w) (centroids w) (localenergy w)
    (totalenergy w) (iterations w) (numtransfers w) v.

(** [WKM.prototype.reset] *)
Definition reset (w : WKM) : WKM :=
  let M := Z.to_nat (numclusters w) in
  mkWKM (maxiter w) (samples w) (numclusters w) (threshold w) (dimensions w)
    false (replicate M 0) (replicate M None) (replicate M None)
    (replicate M 0%Q) 0%Q 0 0 0.

(** The first digit of the decimal numeral of a positive integer. *)
Definition leading_digit (p : positive) : Z :=
  match Pos.to_uint p with
  | Decimal.D1 _ => 1 | Decimal.D2 _ => 2 | Decimal.D3 _ => 3
  | Decimal.D4 _ => 4 | Decimal.D5 _ => 5 | Decimal.D6 _ => 6
  | Decimal.D7 _ => 7 | Decimal.D8 _ => 8 | Decimal.D9 _ => 9
  | _ => 0
  end.

(** [parseInt(x)] for a Number [x] with an integer value.  [parseInt]
    reads the text of its argument.  Below [10^21] in magnitude that text
    is the decimal numeral of the integer, which [parseInt] reads back.
    From [10^21] on it is in exponent notation ([1e+21], [2.5e+22]), of
    which [parseInt] reads the digits before the point or the [e]: the
    sign and the leading digit.  [z] is the integer that the text of the
    Number denotes. *)
Definition js_parseInt (z : Z) : Z :=
  if Z.abs z <? 10 ^ 21 then z
  else match z with
       | Z0 => 0
       | Zpos p => leading_digit p
       | Zneg p => - leading_digit p
       end.

(** The constructor [WKM(samples, numclusters, threshold)], on an array of
    vectors, a Number with an integer value and a number.
    [samples[0].length] throws a TypeError on the empty array. *)
Definition WKM_new (smp : list sample) (nc : Z) (th : Q) : result WKM :=
  match smp with
  | [] => Stuck
  | s0 :: _ =>
      let nc := js_parseInt nc in
      let nc' := if nc <? 1 then 1 else if len smp <? nc then len smp else nc in
      let th' := if Qltb 1 th then 1%Q else if Qltb th 0 then 0%Q else th in
      Ret (reset (mkWKM 100 smp nc' th' (length s0)
                    false [] [] [] [] 0%Q 0 0 0))
  end.

(** ** Initialisation of the boundaries *)

(** One turn of the loop of [resample]: [b] is the last quotient recorded,
    [bs] the boundaries pushed so far.  [N + 1] is positive, so
    [Math.floor] of the quotient is [Z.div]. *)
Definition resample_step (N M : Z) (acc : Z * list Z) (i : Z) : Z * list Z :=
  let q := (i + 1) * M / (N + 1) in
  if acc.1 <? q then (q, acc.2 ++ [i]) else acc.

Definition resample_bounds (N M : Z) : list Z :=
  (foldl (resample_step N M) (-1, []) (upto N)).2.

(** [WKM.prototype.resample] *)
Definition resample (N M : Z) (w : WKM) : WKM :=
  set_initialized true (set_boundaries (resample_bounds N M) w).

(** The [while] of [TS]: [fact > Lcum[i] || this.boundaries.indexOf(i) > -1].
    A comparison with [undefined] is false. *)
Definition TS_continue (fact : Q) (Lcum : list Q) (bs : list Z) (i : Z) : bool :=
  match js_get Lcum i with Some x => Qltb x fact | None => false end
  || js_contains bs i.

Fixpoint TS_advance (fuel : nat) (fact : Q) (Lcum : list Q) (bs : list Z) (i : Z)
  : option Z :=
  match fuel with
  | O => None
  | S fuel' =>
      if TS_continue fact Lcum bs i
      then TS_advance fuel' fact Lcum bs (i + 1)
      else Some i
  end.

(** One turn of the [for] of [TS]; the index [i] is kept from turn to turn.
    The [while] can only go on inside [Lcum] or on the boundary recorded
    last, so the fuel given here is never used up ([TS_advance_total]).
    [fact] is the exact product [(j - 1) * incr]; the code rounds it, so
    which index the comparison stops at is a matter of exact arithmetic,
    while the number of boundaries and their range are not. *)
Definition TS_step (Lcum : list Q) (incr : Q) (acc : Z * list Z) (j : Z)
  : result (Z * list Z) :=
  let fact := (inject_Z (j - 1) * incr)%Q in
  match TS_advance (length Lcum + 2) fact Lcum acc.2 acc.1 with
  | Some i => Ret (i, acc.2 ++ [i])
  | None => OutOfFuel
  end.

(** [this.boundaries[i] = i], the body of the loop of [init] for singleton
    clusters *)
Definition singleton_boundary (w : WKM) (i : Z) : result WKM :=
  bs ← defined (js_set (boundaries w) i i);
  Ret (set_boundaries bs w).

Section Model.

(** [math.cumdist] of the absent [mathlib]: the cumulative path lengths, one
    per sample, and the total length.  It involves square roots; whatever it
    returns is taken as given. *)
Variable cumdist : list sample -> list Q * Q.

(** [WKM.prototype.TS] *)
Definition TS (N M : Z) (w : WKM) : result WKM :=
  let ret := cumdist (samples w) in
  let Lcum := ret.1 in
  let LN := ret.2 in
  let incr := (LN / inject_Z M)%Q in
  acc ← for_each (TS_step Lcum incr) ((fun j => j + 1) <$> upto M) (0, []);
  Ret (set_initialized true (set_boundaries acc.2 w)).

(** [WKM.prototype.initdefault] *)
Definition initdefault (N M : Z) (w : WKM) : result WKM :=
  let w := set_boundaries [] w in
  w ← (if Qltb (inject_Z N / inject_Z M) 2 then Ret (resample N M w)
       else TS N M w);
  Ret (resample N M w).

(** [WKM.prototype.init]; [method] is [None] when the argument is absent. *)
Definition init (method : option string) (w : WKM) : result WKM :=
  let w := reset w in
  let N := len (samples w) in
  let M := numclusters w in
  if M <=? 1 then Ret (set_boundaries [0] w)
  else if N <=? M then for_each singleton_boundary (upto M) w
  else
    match method with
    | None => initdefault N M w
    | Some s =>
        let m := toLowerCase s in
        if String.eqb m "ts" then TS N M w
        else if String.eqb m "eq" then Ret (resample N M w)
        else initdefault N M w
    end.

End Model.

(** ** The partition *)

(** [WKM.prototype.getClusterSamples] *)
Definition getClusterSamples (w : WKM) (index : Z) : list sample :=
  let l := if index + 1 <? numclusters w
           then js_get (boundaries w) (index + 1)
           else Some (len (samples w)) in
  js_slice (samples w) (js_get (boundaries w) index) l.

(** The body of the loop of [getPartition] *)
Definition getPartition_body (w : WKM) (j : Z) : result WKM :=
  let points := getClusterSamples w j in
  cl ← defined (js_set (clusters w) j (Some points));
  let w := set_clusters cl w in
  if len points =? 0 then EmptyCluster j else Ret w.

(** [WKM.prototype.getPartition] *)
Definition getPartition (w : WKM) : result WKM :=
  for_each getPartition_body (upto (numclusters w)) w.

Fixpoint setPartition_loop (j : Z) (partition : list (list sample)) (w : WKM)
  : result WKM :=
  match partition with
  | [] => Ret w
  | points :: rest =>
      if len points =? 0 then EmptyCluster j
      else
        cl ← defined (js_set (clusters w) j (Some points));
        let w := set_clusters cl w in
        let w := if 0 <? j
                 then set_boundaries (boundaries w ++ [len points - 1]) w
                 else w in
        setPartition_loop (j + 1) rest w
  end.

(** [WKM.prototype.setPartition] *)
Definition setPartition (partition : list (list sample)) (w : WKM) : result WKM :=
  setPartition_loop 0 partition (set_clusters [] (set_boundaries [0] w)).

(** ** Energies and centroids *)

(** [this.clusters[j]] where an array is needed *)
Definition cluster_at (w : WKM) (j : Z) : result (list sample) :=
  defined (mjoin (js_get (clusters w) j)).

(** [this.centroids[j]] where a vector is needed *)
Definition centroid_at (w : WKM) (j : Z) : result sample :=
  defined (mjoin (js_get (centroids w) j)).

(** [energy = 0; for (...) energy += math.sqL2(points[i], c)] *)
Definition energy_of (points : list sample) (c : sample) : Q :=
  foldl (fun e p => (e + sqL2 p c)%Q) 0%Q points.

(** The body of the loop of [computeEnergies] *)
Definition computeEnergies_body (w : WKM) (j : Z) : result WKM :=
  points ← cluster_at w j;
  if len points =? 0 then EmptyCluster j
  else
    let c := clustercenter points in
    cs ← defined (js_set (centroids w) j (Some c));
    let energy := energy_of points c in
    le ← defined (js_set (localenergy w) j energy);
    Ret (set_totalenergy (totalenergy w + energy)%Q
           (set_localenergy le (set_centroids cs w))).

(** [WKM.prototype.computeEnergies] *)
Definition computeEnergies (w : WKM) : result WKM :=
  for_each computeEnergies_body (upto (numclusters w)) (set_totalenergy 0%Q w).

(** [WKM.prototype.incrementalMeans] *)
Definition incrementalMeans (smp : sample) (j bestcluster n m : Z) (w : WKM)
  : result WKM :=
  cb ← centroid_at w bestcluster;
  cj ← centroid_at w j;
  let newbest :=
    (fun d => coord cb d + (coord smp d - coord cb d) / inject_Z (m + 1))%Q
      <$> seq 0 (dimensions w) in
  let newj :=
    (fun d => coord cj d - (coord smp d - coord cj d) / inject_Z (n - 1))%Q
      <$> seq 0 (dimensions w) in
  cs ← defined (js_set (centroids w) bestcluster (Some newbest));
  cs ← defined (js_set cs j (Some newj));
  Ret (set_centroids cs w).

(** ** The optimisation loop *)

(** The two inner loops of [cluster]: the first explores the head of
    cluster [j] towards [j - 1], the second its tail towards [j + 1]. *)
Inductive half : Type := FirstHalf | SecondHalf.

Definition bestcluster_of (h : half) (j : Z) : Z :=
  match h with FirstHalf => j - 1 | SecondHalf => j + 1 end.

(** [this.boundaries[j]++] and [this.boundaries[bestcluster]--] *)
Definition shift_boundary (h : half) (j : Z) (w : WKM) : result WKM :=
  let k := match h with FirstHalf => j | SecondHalf => j + 1 end in
  let step := match h with FirstHalf => 1 | SecondHalf => -1 end in
  b ← defined (js_get (boundaries w) k);
  bs ← defined (js_set (boundaries w) k (b + step));
  Ret (set_boundaries bs w).

(** [J1] and [J2] of a candidate, for the sizes [m] and [n] that the code
    holds in its local variables. *)
Definition J1_of (m : Z) (smp cb : sample) : Q :=
  (inject_Z m / inject_Z (m + 1) * sqL2 smp cb)%Q.
Definition J2_of (n : Z) (smp cj : sample) : Q :=
  (inject_Z n / inject_Z (n - 1) * sqL2 smp cj)%Q.

(** [delta < 0 && this.clusters[j].length > 1] *)
Definition accepts (delta : Q) (j : Z) (w : WKM) : result bool :=
  if Qltb delta 0 then pj ← cluster_at w j; Ret (1 <? len pj) else Ret false.

(** [this.localenergy[k] += d] and [this.localenergy[k] -= d], as [f] *)
Definition update_localenergy (k : Z) (f : Q -> Q) (w : WKM) : result WKM :=
  e ← defined (js_get (localenergy w) k);
  le ← defined (js_set (localenergy w) k (f e));
  Ret (set_localenergy le w).

(** The accepted branch of an inner loop: the candidate [smp] leaves
    cluster [j] for [bestcluster]. *)
Definition move (h : half) (smp : sample) (n j m : Z) (J1 J2 : Q) (w : WKM)
  : result WKM :=
  let bestcluster := bestcluster_of h j in
  let w := set_numtransfers (numtransfers w + 1) w in
  w ← shift_boundary h j w;
  w ← incrementalMeans smp j bestcluster n m w;
  w ← update_localenergy bestcluster (fun e => e + J1)%Q w;
  w ← update_localenergy j (fun e => e - J2)%Q w;
  let w := set_totalenergy (totalenergy w + (J1 - J2))%Q w in
  getPartition w.

(** The body of an inner loop for the candidate [points[i]]: [points] and
    [n] are the locals read before the loop, [m] is read afresh.  The
    outcome carries whether the candidate was moved.  [delta < 0] is
    decided on the exact values of [J1] and [J2]. *)
Definition attempt (h : half) (points : list sample) (n j i : Z) (w : WKM)
  : result (WKM * bool) :=
  smp ← defined (js_get points i);
  let bestcluster := bestcluster_of h j in
  pb ← cluster_at w bestcluster;
  let m := len pb in
  cb ← centroid_at w bestcluster;
  cj ← centroid_at w j;
  let J1 := J1_of m smp cb in
  let J2 := J2_of n smp cj in
  let delta := (J1 - J2)%Q in
  let w := set_cost (cost w + 1) w in
  ok ← accepts delta j w;
  if ok : bool then w ← move h smp n j m J1 J2 w; Ret (w, true)
  else Ret (w, false).

Definition next_index (h : half) (i : Z) : Z :=
  match h with FirstHalf => i + 1 | SecondHalf => i - 1 end.

(** An inner [for] with at most [k] turns left, candidate index [i]; it
    stops at the first candidate that is not moved. *)
Fixpoint scan (h : half) (k : nat) (points : list sample) (n j i : Z)
    (w : WKM) (transfers : bool) : result (WKM * bool) :=
  match k with
  | O => Ret (w, transfers)
  | S k' =>
      r ← attempt h points n j i w;
      if r.2 : bool then scan h k' points n j (next_index h i) r.1 true
      else Ret (r.1, transfers)
  end.

(** [Math.floor(n/2 * (1 - threshold)) + 1], the last index of the first
    loop, and [Math.floor(n/2 * (1 + threshold)) - 2], of the second, with
    the exact product under the floor (the code rounds it first). *)
Definition first_bound (n : Z) (th : Q) : Z :=
  Qfloor (inject_Z n / 2 * (1 - th)) + 1.
Definition second_bound (n : Z) (th : Q) : Z :=
  Qfloor (inject_Z n / 2 * (1 + th)) - 2.

(** The body of [for (j = 0; j < this.numclusters; j++)]. *)
Definition explore (acc : WKM * bool) (j : Z) : result (WKM * bool) :=
  points ← cluster_at acc.1 j;
  let n := len points in
  if n <? 2 then Ret acc
  else
    acc ← (if 0 <? j
           then scan FirstHalf (Z.to_nat (first_bound n (threshold acc.1) + 1))
                  points n j 0 acc.1 acc.2
           else Ret acc);
    points ← cluster_at acc.1 j;
    let n := len points in
    if n <? 2 then Ret acc
    else if j + 1 <? numclusters acc.1
    then scan SecondHalf (Z.to_nat (n - second_bound n (threshold acc.1)))
           points n j (n - 1) acc.1 acc.2
    else Ret acc.

(** One sweep: the [for] over the clusters, from [transfers = false]. *)
Definition sweep (w : WKM) : result (WKM * bool) :=
  for_each explore (upto (numclusters w)) (w, false).

(** The [while (true)] of [cluster].  [flags] collects the value of
    [transfers] at the end of every sweep, oldest first. *)
Fixpoint iterate (fuel : nat) (w : WKM) (flags : list bool)
  : result (WKM * list bool) :=
  match fuel with
  | O => OutOfFuel
  | S fuel' =>
      r ← sweep w;
      let w := set_iterations (iterations r.1 + 1) r.1 in
      let flags := flags ++ [r.2] in
      if negb r.2 || (iterations w =? maxiter w) then Ret (w, flags)
      else iterate fuel' w flags
  end.

Section Cluster.

Variable cumdist : list sample -> list Q * Q.

(** [cluster] up to the first [computeEnergies]: the partition the
    optimisation starts from, with its centroids and energies. *)
Definition cluster_start (partition : option (list (list sample))) (w : WKM)
  : result WKM :=
  w ← (if initialized w then Ret w else init cumdist None w);
  w ← (match partition with
       | Some p => setPartition p w
       | None => getPartition w
       end);
  computeEnergies w.

(** [WKM.prototype.cluster], with the flags of its sweeps. *)
Definition cluster_run (fuel : nat) (partition : option (list (list sample)))
    (w : WKM) : result (WKM * list bool) :=
  w ← cluster_start partition w;
  if numclusters w <? 2 then Ret (w, [])
  else
    r ← iterate fuel w [];
    w ← computeEnergies r.1;
    Ret (w, r.2).

(** [WKM.prototype.cluster] *)
Definition cluster (fuel : nat) (partition : option (list (list sample)))
    (w : WKM) : result WKM :=
  r ← cluster_run fuel partition w; Ret r.1.

End Cluster.

(** Modelled from the spec: [math.cumdist] of the absent [mathlib] on
    one-dimensional samples, where the Euclidean length of a step is the
    absolute difference: the running arc length, one value per sample, and
    the total. *)
Fixpoint cumdist1_from (prev : Q) (acc : Q) (l : list sample) : list Q :=
  match l with
  | [] => []
  | p :: l' =>
      let acc' := (acc + Qabs (coord p 0 - prev))%Q in
      acc' :: cumdist1_from (coord p 0) acc' l'
  end.

Definition cumdist1 (l : list sample) : list Q * Q :=
  match l with
  | [] => ([], 0%Q)
  | p :: l' =>
      let v := 0%Q :: cumdist1_from (coord p 0) 0%Q l' in
      (v, List.last v 0%Q)
  end.

(** Samples of dimension one from integers. *)
Definition points1 (l : list Z) : list sample := (fun x => [inject_Z x]) <$> l.

(** * Vocabulary of the properties *)

Definition strictly_increasing (l : list Z) : Prop :=
  forall (i j : nat) (x y : Z),
    (i < j)%nat -> l !! i = Some x -> l !! j = Some y -> x < y.

(** The state of the loop of [resample] after the indices below [k]. *)
Definition resample_inv (N M : Z) (k : nat) (acc : Z * list Z) : Prop :=
  match k with
  | O => acc = (-1, [])
  | S _ =>
      acc.1 = Z.of_nat k * M / (N + 1)
      /\ len acc.2 = acc.1 + 1
      /\ acc.2 !! 0%nat = Some 0
      /\ strictly_increasing acc.2
      /\ (forall y, y ∈ acc.2 -> 0 <= y < Z.of_nat k)
  end.

(** The state of the [for] of [TS] after [k] boundaries. *)
Definition TS_inv (k : nat) (acc : Z * list Z) : Prop :=
  0 <= acc.1
  /\ length acc.2 = k
  /\ strictly_increasing acc.2
  /\ (forall y, y ∈ acc.2 -> 0 <= y <= acc.1).

(** The part of an instance that only the constructor, [reset] and the
    end of a sweep write. *)
Definition config (w : WKM) : Z * list sample * Z * Q * nat * bool * Z :=
  (maxiter w, samples w, numclusters w, threshold w, dimensions w,
   initialized w, iterations w).

(** An instance as a fit that ended at the cap leaves it. *)
Definition capped_instance : WKM :=
  set_iterations 100
    (resample 6 2
       (reset (mkWKM 100 (points1 [0; 1; 2; 10; 11; 12]) 2 0%Q 1
                 false [] [] [] [] 0%Q 0 0 0))).

(** Boundary [j], with the number of samples standing in as boundary
    [numclusters]. *)
Definition bnd (w : WKM) (j : Z) : Z :=
  if j <? numclusters w then default 0 (js_get (boundaries w) j)
  else len (samples w).

Definition size (w : WKM) (j : Z) : Z := bnd w (j + 1) - bnd w j.

(** [this.boundaries[0]], which no boundary shift writes. *)
Definition first_boundary (w : WKM) : option Z := js_get (boundaries w) 0.

(** One boundary per cluster, none negative. *)
Definition pre_bounds (w : WKM) : Prop :=
  len (boundaries w) = numclusters w
  /\ forall y, y ∈ boundaries w -> 0 <= y.

(** The boundaries cut the samples into [numclusters] non-empty segments. *)
Definition wf_bounds (w : WKM) : Prop :=
  len (boundaries w) = numclusters w
  /\ forall j, 0 <= j < numclusters w -> 0 <= bnd w j < bnd w (j + 1).

(** [clusters] holds the segments of the boundaries. *)
Definition wf_clusters (w : WKM) : Prop :=
  forall j, 0 <= j < numclusters w ->
    js_get (clusters w) j = Some (Some (getClusterSamples w j)).

(** Every cluster has a centroid and a local energy. *)
Definition wf_tables (w : WKM) : Prop :=
  forall j, 0 <= j < numclusters w ->
    (exists c, js_get (centroids w) j = Some (Some c))
    /\ (exists e, js_get (localenergy w) j = Some e).

Definition wf (w : WKM) : Prop := wf_bounds w /\ wf_clusters w /\ wf_tables w.

Definition geometry (w : WKM) : list Z * Z * list sample :=
  (boundaries w, numclusters w, samples w).



(** The state of the loop of [computeEnergies] after the clusters below
    [k], started on [w]. *)
Definition computeEnergies_inv (w : WKM) (k : nat) (w' : WKM) : Prop :=
  (config w', geometry w', clusters w') = (config w, geometry w, clusters w)
  /\ (k <= length (centroids w'))%nat
  /\ (k <= length (localenergy w'))%nat
  /\ forall j : nat, (j < k)%nat ->
       (exists c, centroids w' !! j = Some (Some c))
       /\ (exists e, localenergy w' !! j = Some e).

Definition valid_scan (h : half) (j : Z) (w : WKM) : Prop :=
  0 <= j < numclusters w
  /\ match h with FirstHalf => 1 <= j | SecondHalf => j + 1 < numclusters w end.

(** Where a scan stands: with [n] the size read before the scan, the
    candidate index [i] and the present size [s] of the cluster. *)
Definition in_scan (h : half) (n i s : Z) : Prop :=
  match h with
  | FirstHalf => 0 <= i /\ s = n - i
  | SecondHalf => i < n /\ s = i + 1
  end.

(** What the constructor fixes for the life of an instance. *)
Definition valid_config (w : WKM) : Prop :=
  maxiter w = 100 /\ 1 <= numclusters w <= len (samples w).

(** The state of the loop of [init] for singleton clusters. *)
Definition singletons_inv (w : WKM) (k : nat) (w' : WKM) : Prop :=
  (config w', samples w') = (config w, samples w)
  /\ length (boundaries w') = Z.to_nat (numclusters w)
  /\ forall j : nat, (j < k)%nat -> boundaries w' !! j = Some (Z.of_nat j).

Definition is_ts (method : option string) : bool :=
  match method with
  | Some s => String.eqb (toLowerCase s) "ts"
  | None => false
  end.

(** [cluster] after its call of [init]. *)
Definition cluster_body (fuel : nat) (partition : option (list (list sample)))
    (w : WKM) : result (WKM * list bool) :=
  w ← (match partition with
       | Some p => setPartition p w
       | None => getPartition w
       end);
  w ← computeEnergies w;
  if numclusters w <? 2 then Ret (w, [])
  else
    r ← iterate fuel w [];
    w ← computeEnergies r.1;
    Ret (w, r.2).

(** The flags of a fit that ran to its end: none for fewer than two
    clusters; otherwise every sweep but the last made a transfer, and the
    last made none or was the hundredth. *)
Definition sweeps_ok (M : Z) (fl : list bool) : Prop :=
  (M < 2 /\ fl = [])
  \/ (2 <= M /\ exists fl0 b, fl = fl0 ++ [b] /\ Forall (eq true) fl0
                              /\ (b = false \/ len fl = 100)).

(** An instance as the constructor, [reset] or [init] leaves it; the flag
    tells whether [init] was called with the method "ts". *)
Inductive fresh (cumdist : list sample -> list Q * Q) : bool -> WKM -> Prop :=
| fresh_new (smp : list sample) (nc : Z) (th : Q) (w : WKM) :
    WKM_new smp nc th = Ret w -> fresh cumdist false w
| fresh_reset (w0 : WKM) :
    valid_config w0 -> fresh cumdist false (reset w0)
| fresh_init (method : option string) (w0 w : WKM) :
    valid_config w0 -> init cumdist method w0 = Ret w ->
    fresh cumdist (is_ts method) w.

(** C5 as stated: the call returns, and unless some sweep made no
    transfer it has made exactly 100 sweeps. *)
Definition first_fit_as_stated (cumdist : list sample -> list Q * Q) (w : WKM) : Prop :=
  exists w' fl,
    cluster_run cumdist 100 None w = Ret (w', fl)
    /\ len fl <= 100
    /\ (false ∈ fl \/ len fl = 100).

(** Six samples on a line, the last one far from five equal ones. *)
Definition far_tail_instance : WKM :=
  reset (mkWKM 100 (points1 [0; 0; 0; 0; 0; 10]) 3 0%Q 1
           false [] [] [] [] 0%Q 0 0 0).

Definition single_instance : WKM :=
  reset (mkWKM 100 (points1 [0; 1; 2]) 1 0%Q 1 false [] [] [] [] 0%Q 0 0 0).

(** The mean of coordinate [d] over a cluster. *)
Definition mean_coord (points : list sample) (d : nat) : Q :=
  (Qsum ((fun p => coord p d) <$> points) / inject_Z (len points))%Q.

(** The acceptance test in the words of the specification: [m] and [n]
    are the sizes that the destination and the source cluster have when
    the candidate is evaluated, and the source keeps at least one member. *)
Definition spec_accepts (h : half) (smp : sample) (j : Z) (w : WKM) : result bool :=
  pb ← cluster_at w (bestcluster_of h j);
  pj ← cluster_at w j;
  cb ← centroid_at w (bestcluster_of h j);
  cj ← centroid_at w j;
  let J1 := J1_of (len pb) smp cb in
  let J2 := J2_of (len pj) smp cj in
  Ret (Qltb (J1 - J2) 0 && (1 <=? len pj - 1)).

Definition vec_eqb (u v : sample) : bool :=
  (length u =? length v)%nat && forallb (fun p => Qeq_bool p.1 p.2) (zip u v).

(** Whether the stored centroid of cluster [j] is the mean of its members. *)
Definition exact_centroid (w : WKM) (j : Z) : result bool :=
  c ← centroid_at w j;
  pts ← cluster_at w j;
  Ret (vec_eqb c (clustercenter pts)).

(** What [TS] keeps from turn to turn: the index [i] is the boundary pushed
    last, boundary [j] lies between [j] and [len Lcum + j], and the
    cumulative length at a boundary inside [Lcum] has reached its share. *)
Definition TS_placed (Lcum : list Q) (incr : Q) (k : nat) (acc : Z * list Z) : Prop :=
  length acc.2 = k
  /\ (forall y, y ∈ acc.2 -> y <= acc.1)
  /\ match k with
     | O => acc.1 = 0
     | S k' => acc.1 ∈ acc.2 /\ Z.of_nat k' <= acc.1 <= len Lcum + Z.of_nat k'
     end
  /\ forall (j : nat) (y : Z), acc.2 !! j = Some y ->
       Z.of_nat j <= y <= len Lcum + Z.of_nat j
       /\ forall x, js_get Lcum y = Some x -> ~ (x < inject_Z (Z.of_nat j) * incr)%Q.

(** What the user gave the constructor, and its cap on the sweeps. *)
Definition inputs (w : WKM) : Z * list sample * Z * Q * nat :=
  (maxiter w, samples w, numclusters w, threshold w, dimensions w).

(** What the loop of [computeEnergies] has stored after the clusters below
    [k]: their centres and energies, and the running total. *)
Definition energies_stored (w : WKM) (k : nat) (s : WKM) : Prop :=
  clusters s = clusters w
  /\ (k <= length (localenergy s))%nat
  /\ (forall j : nat, (j < k)%nat ->
        exists pts, cluster_at w (Z.of_nat j) = Ret pts /\ pts <> []
          /\ centroid_at s (Z.of_nat j) = Ret (clustercenter pts)
          /\ js_get (localenergy s) (Z.of_nat j)
             = Some (energy_of pts (clustercenter pts)))
  /\ (totalenergy s == Qsum (take k (localenergy s)))%Q.

(** Seven samples on a line for three clusters, as [reset] leaves them. *)
Definition seven_samples_instance : WKM :=
  reset (mkWKM 100 (points1 [0; 0; 3; 0; 2; 0; 4]) 3 0%Q 1
           false [] [] [] [] 0%Q 0 0 0).

(** The counters [numtransfers] and [cost]. *)
Definition counters (w : WKM) : Z * Z := (numtransfers w, cost w).

(** How a piece of a sweep that starts in [w] with the flag [tr] and ends
    in [r] has counted: [d] moves, between [d] and [d + slack] candidates
    evaluated, the flag raised if there was a move, and without a move
    nothing changed but [cost]. *)
Definition tally (w : WKM) (tr : bool) (slack : Z) (r : WKM * bool) : Prop :=
  let d := numtransfers r.1 - numtransfers w in
  0 <= d
  /\ d <= cost r.1 - cost w <= d + slack
  /\ r.2 = tr || (0 <? d)
  /\ (d = 0 -> r.1 = set_cost (cost r.1) w).

(** The number of sweeps that reported a transfer. *)
Definition moving_sweeps (fl : list bool) : Z := len (List.filter id fl).

(** [totalenergy] less the sum of the local energies of the clusters: the
    amount by which the total that the loop keeps up to date is off the
    array sum that the comment in [reset] has in mind. *)
Definition tracked_gap (w : WKM) : Q :=
  (totalenergy w - Qsum (take (Z.to_nat (numclusters w)) (localenergy w)))%Q.

(** The state of the loop of [resample] after the indices below [k], with
    the quotient that put each boundary in its place: boundary [j] is the
    first index whose quotient is [j]. *)
Definition resample_placed (N M : Z) (k : nat) (acc : Z * list Z) : Prop :=
  match k with
  | O => acc = (-1, [])
  | S _ =>
      acc.1 = Z.of_nat k * M / (N + 1)
      /\ len acc.2 = acc.1 + 1
      /\ forall (j : nat) (y : Z), acc.2 !! j = Some y ->
           (y + 1) * M / (N + 1) = Z.of_nat j
           /\ ((j = 0%nat /\ y = 0)
               \/ (1 <= Z.of_nat j /\ y * M / (N + 1) = Z.of_nat j - 1))
  end.

(** Two clusters of the samples 0 1 | 1 2 4 with their exact centroids. *)
Definition exact_means_instance : WKM :=
  set_centroids [Some [1 # 2]; Some [7 # 3]]%Q
    (reset (mkWKM 100 (points1 [0; 1; 1; 2; 4]) 2 0%Q 1
              false [] [] [] [] 0%Q 0 0 0)).

(** The sum over a cluster of the squared deviations from [a] in
    coordinate [d]. *)
Definition spread (P : list sample) (a : Q) (d : nat) : Q :=
  Qsum ((fun p => (coord p d - a) * (coord p d - a))%Q <$> P).

(** * Properties *)

(** ** Arrays and loops *)

Lemma upto_unfold (n : Z) : upto n = Z.of_nat <$> seq 0 (Z.to_nat n).
Proof. reflexivity. Qed.

Lemma js_get_nat {A} (l : list A) (i : nat) : js_get l (Z.of_nat i) = l !! i.
Proof.
  unfold js_get. destruct (Z.ltb_spec (Z.of_nat i) 0); [lia|].
  by rewrite Nat2Z.id.
Qed.

Lemma js_get_Some {A} (l : list A) (i : Z) (x : A) :
  js_get l i = Some x <-> 0 <= i /\ l !! Z.to_nat i = Some x.
Proof.
  unfold js_get. destruct (Z.ltb_spec i 0).
  - split; [done|]. intros [? _]. lia.
  - split; [intros; split; [lia|done]|]. by intros [_ ?].
Qed.

Lemma js_set_nat_lt {A} (l : list A) (i : nat) (v : A) :
  (i < length l)%nat -> js_set l (Z.of_nat i) v = Some (<[i := v]> l).
Proof.
  intros Hi. unfold js_set, len.
  destruct (Z.ltb_spec (Z.of_nat i) 0); [lia|].
  destruct (Z.ltb_spec (Z.of_nat i) (Z.of_nat (length l))); [|lia].
  by rewrite Nat2Z.id.
Qed.

Lemma js_set_nat_eq {A} (l : list A) (i : nat) (v : A) :
  i = length l -> js_set l (Z.of_nat i) v = Some (l ++ [v]).
Proof.
  intros ->. unfold js_set, len.
  destruct (Z.ltb_spec (Z.of_nat (length l)) 0); [lia|].
  destruct (Z.ltb_spec (Z.of_nat (length l)) (Z.of_nat (length l))); [lia|].
  by rewrite Z.eqb_refl.
Qed.

(** A write at an index up to the length succeeds; the cell then holds the
    value, the cells below keep theirs, and the array is at least as long. *)
Lemma js_set_nat_le {A} (l : list A) (i : nat) (v : A) :
  (i <= length l)%nat ->
  exists l', js_set l (Z.of_nat i) v = Some l'
    /\ l' !! i = Some v
    /\ (forall k, k <> i -> (k < length l)%nat -> l' !! k = l !! k)
    /\ length l' = Nat.max (length l) (S i).
Proof.
  intros Hi. destruct (decide (i < length l)%nat) as [Hlt|Hge].
  - exists (<[i := v]> l). rewrite js_set_nat_lt by done.
    split; [done|]. split; [by apply list_lookup_insert_eq|].
    split; [intros; by apply list_lookup_insert_ne|].
    rewrite length_insert. lia.
  - assert (i = length l) as Heq by lia.
    exists (l ++ [v]). rewrite js_set_nat_eq by done.
    split; [done|]. split.
    { subst i. rewrite lookup_app_r by lia. by rewrite Nat.sub_diag. }
    split; [intros; by apply lookup_app_l|].
    rewrite length_app. simpl. lia.
Qed.

Lemma for_each_app {A St} (body : St -> A -> result St) (l1 l2 : list A) (s : St) :
  for_each body (l1 ++ l2) s = s' ← for_each body l1 s; for_each body l2 s'.
Proof.
  revert s. induction l1 as [|x l1 IH]; intros s; simpl; [done|].
  destruct (body s x); simpl; auto.
Qed.

(** ** The partition (C6) *)

Lemma for_each_cons {A St} (body : St -> A -> result St) (x : A) (l : list A) (s : St) :
  for_each body (x :: l) s = s' ← body s x; for_each body l s'.
Proof. reflexivity. Qed.

Lemma getPartition_body_nat (w0 : WKM) (a : nat) (cl0 : list (option (list sample))) :
  (a <= length cl0)%nat ->
  exists cl1,
    js_set cl0 (Z.of_nat a) (Some (getClusterSamples w0 (Z.of_nat a))) = Some cl1
    /\ getPartition_body (set_clusters cl0 w0) (Z.of_nat a)
       = (if decide (getClusterSamples w0 (Z.of_nat a) = [])
          then EmptyCluster (Z.of_nat a) else Ret (set_clusters cl1 w0)).
Proof.
  intros Ha.
  destruct (js_set_nat_le cl0 a (Some (getClusterSamples w0 (Z.of_nat a))) Ha)
    as (cl1 & Hset & _).
  exists cl1. split; [done|]. unfold getPartition_body.
  change (getClusterSamples (set_clusters cl0 w0) (Z.of_nat a))
    with (getClusterSamples w0 (Z.of_nat a)).
  change (clusters (set_clusters cl0 w0)) with cl0.
  rewrite Hset. simpl.
  destruct (getClusterSamples w0 (Z.of_nat a)) as [|p ps]; simpl; [done|].
  destruct (decide (p :: ps = [])); done.
Qed.

Lemma getPartition_from (w0 : WKM) (k a : nat) (cl0 : list (option (list sample))) :
  (a <= length cl0)%nat ->
  (exists cl,
      for_each getPartition_body (Z.of_nat <$> seq a k) (set_clusters cl0 w0)
        = Ret (set_clusters cl w0)
      /\ length cl = Nat.max (length cl0) (a + k)
      /\ (forall j, (a <= j < a + k)%nat ->
            cl !! j = Some (Some (getClusterSamples w0 (Z.of_nat j))))
      /\ (forall j, (j < a)%nat -> cl !! j = cl0 !! j)
      /\ (forall j, (a <= j < a + k)%nat ->
            getClusterSamples w0 (Z.of_nat j) <> []))
  \/ (exists j, (a <= j < a + k)%nat
      /\ for_each getPartition_body (Z.of_nat <$> seq a k) (set_clusters cl0 w0)
           = EmptyCluster (Z.of_nat j)
      /\ getClusterSamples w0 (Z.of_nat j) = []).
Proof.
  revert a cl0. induction k as [|k IH]; intros a cl0 Ha.
  - left. exists cl0. split; [done|]. split; [lia|].
    split; [intros; lia|]. split; [done|]. intros; lia.
  - cbn [seq]. rewrite fmap_cons, for_each_cons.
    destruct (js_set_nat_le cl0 a (Some (getClusterSamples w0 (Z.of_nat a))) Ha)
      as (cl1 & Hset & Hat & Hbelow & Hlen).
    destruct (getPartition_body_nat w0 a cl0 Ha) as (cl1' & Hset' & ->).
    assert (cl1' = cl1) as -> by congruence.
    destruct (decide (getClusterSamples w0 (Z.of_nat a) = [])) as [Hseg|Hseg].
    + right. exists a. split; [lia|]. done.
    + cbn [mbind result_bind].
      destruct (IH (S a) cl1) as [(cl & Hrun & Hl & Hin & Hlow & Hne)|(j & Hj & Hrun & Hj0)];
        [lia| |].
      * left. exists cl. split; [done|]. split; [lia|]. split; [|split].
        -- intros j Hj. destruct (decide (j = a)) as [->|Hja].
           ++ rewrite Hlow by lia. done.
           ++ apply Hin. lia.
        -- intros j Hj. rewrite Hlow by lia. apply Hbelow; lia.
        -- intros j Hj. destruct (decide (j = a)) as [->|Hja]; [done|].
           apply Hne. lia.
      * right. exists j. split; [lia|]. done.
Qed.

Lemma set_clusters_same (w : WKM) : set_clusters (clusters w) w = w.
Proof. by destruct w. Qed.

(** What [getPartition] does: it stores every segment, or throws at the
    first empty one. *)
Lemma getPartition_cases (w : WKM) :
  (exists cl,
      getPartition w = Ret (set_clusters cl w)
      /\ length cl = Nat.max (length (clusters w)) (Z.to_nat (numclusters w))
      /\ (forall j, 0 <= j < numclusters w ->
            js_get cl j = Some (Some (getClusterSamples w j)))
      /\ (forall j, 0 <= j < numclusters w -> getClusterSamples w j <> []))
  \/ (exists j, 0 <= j < numclusters w
      /\ getPartition w = EmptyCluster j
      /\ getClusterSamples w j = []).
Proof.
  unfold getPartition, upto.
  pose proof (getPartition_from w (Z.to_nat (numclusters w)) 0 (clusters w)) as H.
  rewrite set_clusters_same in H.
  destruct H as [(cl & Hrun & Hl & Hin & _ & Hne)|(j & Hj & Hrun & Hj0)]; [lia| |].
  - left. exists cl. split; [done|]. split; [lia|]. split.
    + intros j Hj. rewrite <- (Z2Nat.id j) by lia. rewrite js_get_nat.
      apply Hin. lia.
    + intros j Hj. rewrite <- (Z2Nat.id j) by lia. apply Hne. lia.
  - right. exists (Z.of_nat j). split; [lia|]. done.
Qed.

Lemma setPartition_loop_cases (p : list (list sample)) (jn : nat) (w : WKM) :
  length (clusters w) = jn ->
  ((@nil sample ∉ p) /\ exists w',
      setPartition_loop (Z.of_nat jn) p w = Ret w'
      /\ clusters w' = clusters w ++ (Some <$> p)
      /\ boundaries w' = boundaries w ++
           ((fun pts => len pts - 1) <$> (if decide (jn = 0)%nat then tail p else p)))
  \/ ((@nil sample ∈ p) /\ exists j,
      setPartition_loop (Z.of_nat jn) p w = EmptyCluster j).
Proof.
  revert jn w. induction p as [|pts p IH]; intros jn w Hlen.
  - left. split; [apply not_elem_of_nil|]. exists w. simpl.
    rewrite !app_nil_r. destruct (decide (jn = 0)%nat); simpl; by rewrite ?app_nil_r.
  - cbn [setPartition_loop]. destruct pts as [|x pts].
    { right. split; [apply elem_of_cons; by left|]. by exists (Z.of_nat jn). }
    replace (len (x :: pts) =? 0) with false
      by (symmetry; apply Z.eqb_neq; unfold len; simpl; lia).
    rewrite js_set_nat_eq by done. cbn [defined mbind result_bind].
    replace (Z.of_nat jn + 1) with (Z.of_nat (S jn)) by lia.
    match goal with |- context [setPartition_loop _ p ?w1] => set (w' := w1) end.
    destruct (IH (S jn) w') as [(Hno & w'' & Hrun & Hcl & Hb)|(Hin & j & Hrun)].
    { subst w'. destruct (0 <? Z.of_nat jn); simpl;
        rewrite length_app; simpl; lia. }
    + left. split.
      { intros [?|?]%elem_of_cons; done. }
      exists w''. split; [done|]. split.
      * rewrite Hcl. subst w'. rewrite fmap_cons.
        destruct (0 <? Z.of_nat jn); simpl; by rewrite <- app_assoc.
      * rewrite Hb. subst w'. destruct (decide (S jn = 0)%nat) as [|_]; [lia|].
        destruct (decide (jn = 0)%nat) as [->|Hj].
        -- done.
        -- destruct (Z.ltb_spec 0 (Z.of_nat jn)); [|lia]. simpl.
           by rewrite <- app_assoc.
    + right. split; [apply elem_of_cons; by right|]. by exists j.
Qed.

(** What [setPartition] does: it adopts the supplied clusters, or throws at
    the first empty one.  The boundaries it rebuilds are [0] followed by
    [length - 1] of every cluster after the first. *)
Lemma setPartition_cases (p : list (list sample)) (w : WKM) :
  ((@nil sample ∉ p) /\ exists w',
      setPartition p w = Ret w'
      /\ clusters w' = Some <$> p
      /\ boundaries w' = 0 :: ((fun pts => len pts - 1) <$> tail p))
  \/ ((@nil sample ∈ p) /\ exists j, setPartition p w = EmptyCluster j).
Proof.
  unfold setPartition.
  destruct (setPartition_loop_cases p 0 (set_clusters [] (set_boundaries [0] w)))
    as [(Hno & w' & Hrun & Hcl & Hb)|(Hin & j & Hrun)]; [done| |].
  - left. split; [done|]. exists w'. done.
  - right. split; [done|]. by exists j.
Qed.

(** The slice of a segment whose ends are defined and not negative is
    empty exactly when no index of the samples lies in [lo, hi). *)
Lemma js_slice_empty_iff {A} (l : list A) (lo hi : Z) :
  0 <= lo -> 0 <= hi ->
  js_slice l (Some lo) (Some hi) = []
  <-> ~ exists i, lo <= i < hi /\ 0 <= i < len l.
Proof.
  intros Hlo Hhi. unfold js_slice, slice_index, len.
  destruct (Z.ltb_spec lo 0); [lia|]. destruct (Z.ltb_spec hi 0); [lia|].
  rewrite <- length_zero_iff_nil, length_take, length_drop. split.
  - intros Hz [i Hi]. lia.
  - intros Hno. destruct (decide (lo < hi /\ lo < Z.of_nat (length l))) as [Hc|Hc].
    + exfalso. apply Hno. exists lo. lia.
    + lia.
Qed.

(** ** Equal-count boundaries (C8) *)

Lemma strictly_increasing_snoc (l : list Z) (x : Z) :
  strictly_increasing l -> (forall y, y ∈ l -> y < x) ->
  strictly_increasing (l ++ [x]).
Proof.
  intros Hl Hx i j a b Hij Ha Hb.
  destruct (decide (j < length l)%nat) as [Hj|Hj].
  - rewrite lookup_app_l in Ha, Hb by lia. eauto.
  - assert (j = length l) as ->.
    { apply lookup_lt_Some in Hb. rewrite length_app in Hb. simpl in Hb. lia. }
    rewrite lookup_app_l in Ha by lia.
    rewrite lookup_app_r, Nat.sub_diag in Hb by lia. simpl in Hb.
    injection Hb as <-. apply Hx. apply list_elem_of_lookup. eauto.
Qed.

Lemma upto_S (n : nat) : upto (Z.of_nat (S n)) = upto (Z.of_nat n) ++ [Z.of_nat n].
Proof.
  unfold upto. rewrite !Nat2Z.id. rewrite seq_S, fmap_app. done.
Qed.

Lemma quotient_step (k M d : Z) :
  0 <= k -> 0 <= M < d ->
  k * M / d <= (k + 1) * M / d <= k * M / d + 1.
Proof.
  intros Hk HM. split.
  - apply Z.div_le_mono; nia.
  - replace ((k + 1) * M) with (k * M + M) by ring.
    assert (k * M + M <= k * M + 1 * d) as Hle by lia.
    apply (Z.div_le_mono _ _ d) in Hle; [|lia].
    rewrite Z.div_add in Hle by lia. exact Hle.
Qed.

Lemma resample_loop_inv (N M : Z) (k : nat) :
  0 <= M <= N -> Z.of_nat k <= N ->
  resample_inv N M k (foldl (resample_step N M) (-1, []) (upto (Z.of_nat k))).
Proof.
  intros HM. induction k as [|k IH]; intros Hk; [done|].
  rewrite upto_S, foldl_snoc.
  specialize (IH ltac:(lia)).
  destruct (foldl (resample_step N M) (-1, []) (upto (Z.of_nat k))) as [b bs].
  unfold resample_step. cbn [fst snd].
  pose proof (quotient_step (Z.of_nat k) M (N + 1) ltac:(lia) ltac:(lia)) as Hq.
  replace (Z.of_nat (S k)) with (Z.of_nat k + 1) by lia.
  destruct k as [|k'].
  - injection IH as -> ->.
    assert (Hq0 : (0 + 1) * M / (N + 1) = 0) by (apply Z.div_small; lia).
    change (Z.of_nat 0) with 0. rewrite Hq0. simpl.
    split; [done|]. split; [done|]. split; [done|]. split.
    + intros i j x y Hij Hx Hy. apply lookup_lt_Some in Hy. simpl in Hy. lia.
    + intros y ->%list_elem_of_singleton. lia.
  - destruct IH as (Hb & Hlen & H0 & Hinc & Hrange). cbn [fst snd] in *.
    set (K := Z.of_nat (S k')) in *.
    assert (HK : Z.of_nat (S (S k')) = K + 1) by lia.
    destruct (Z.ltb_spec b ((K + 1) * M / (N + 1))) as [Hlt|Hge];
      unfold resample_inv; cbn [fst snd]; rewrite HK.
    + split; [done|]. split.
      { unfold len in *. rewrite length_app. simpl. lia. }
      split.
      { rewrite lookup_app_l; [done|]. by eapply lookup_lt_Some. }
      split.
      { apply strictly_increasing_snoc; [done|]. intros y Hy.
        apply Hrange in Hy. lia. }
      intros y [Hy| ->%list_elem_of_singleton]%elem_of_app; [|lia].
      apply Hrange in Hy. lia.
    + split; [lia|]. split; [done|]. split; [done|]. split; [done|].
      intros y Hy. apply Hrange in Hy. lia.
Qed.

(** What the loop of [resample] has recorded when it ends. *)
Lemma resample_bounds_spec (N M : Z) :
  1 <= N -> 1 <= M <= N ->
  len (resample_bounds N M) = M
  /\ strictly_increasing (resample_bounds N M)
  /\ resample_bounds N M !! 0%nat = Some 0.
Proof.
  intros HN HM. unfold resample_bounds.
  pose proof (resample_loop_inv N M (Z.to_nat N) ltac:(lia) ltac:(lia)) as Hinv.
  rewrite Z2Nat.id in Hinv by lia.
  destruct (Z.to_nat N) as [|n] eqn:Hn; [lia|].
  destruct Hinv as (Hb & Hlen & H0 & Hinc & _).
  split; [|done]. rewrite Hlen, Hb.
  replace (Z.of_nat (S n)) with N by lia.
  assert (N * M / (N + 1) = M - 1) as ->; [|lia].
  symmetry. apply (Z.div_unique_pos _ _ _ (N + 1 - M)); lia.
Qed.

(** C8.  For [N >= 1] samples and [1 <= M <= N] clusters, recording the
    index [i] whenever [floor((i+1)*M/(N+1))] exceeds the last recorded
    quotient yields exactly [M] boundaries, strictly increasing, the first
    of which is [0]. *)
Theorem C8_resample_bounds (N M : Z) :
  1 <= N -> 1 <= M <= N ->
  len (resample_bounds N M) = M
  /\ strictly_increasing (resample_bounds N M)
  /\ resample_bounds N M !! 0%nat = Some 0.
Proof. apply resample_bounds_spec. Qed.

Lemma C8_resample_bounds_witness :
  len (resample_bounds 7 3) = 3
  /\ strictly_increasing (resample_bounds 7 3)
  /\ resample_bounds 7 3 !! 0%nat = Some 0.
Proof. apply (C8_resample_bounds 7 3); lia. Defined.

Lemma resample_bounds_range (N M : Z) (y : Z) :
  1 <= N -> 1 <= M <= N -> y ∈ resample_bounds N M -> 0 <= y < N.
Proof.
  intros HN HM. unfold resample_bounds.
  pose proof (resample_loop_inv N M (Z.to_nat N) ltac:(lia) ltac:(lia)) as Hinv.
  rewrite Z2Nat.id in Hinv by lia.
  destruct (Z.to_nat N) as [|n] eqn:Hn; [lia|].
  destruct Hinv as (_ & _ & _ & _ & Hr). intros Hy. apply Hr in Hy. lia.
Qed.

(** ** Trace segmentation and the default initialisation (C7) *)

Lemma for_each_inv {A St} (body : St -> A -> result St) (Inv : nat -> St -> Prop)
    (l : list A) (s : St) :
  Inv 0%nat s ->
  (forall k x s, l !! k = Some x -> Inv k s ->
     exists s', body s x = Ret s' /\ Inv (S k) s') ->
  exists s', for_each body l s = Ret s' /\ Inv (length l) s'.
Proof.
  revert Inv s. induction l as [|x l IH]; intros Inv s H0 Hstep.
  - exists s. done.
  - destruct (Hstep 0%nat x s eq_refl H0) as (s1 & Hb & H1).
    rewrite for_each_cons, Hb. cbn [mbind result_bind].
    destruct (IH (fun k => Inv (S k)) s1 H1) as (s' & Hrun & Hinv).
    { intros k y s2 Hk Hs2. apply (Hstep (S k) y s2 Hk Hs2). }
    exists s'. done.
Qed.

Lemma js_contains_spec (l : list Z) (x : Z) : js_contains l x = true <-> x ∈ l.
Proof.
  unfold js_contains. rewrite existsb_exists. split.
  - intros (y & Hy & ->%Z.eqb_eq). by apply list_elem_of_In.
  - intros Hx. exists x. split; [by apply list_elem_of_In|apply Z.eqb_refl].
Qed.

Lemma TS_continue_range (fact : Q) (Lcum : list Q) (bs : list Z) (i : Z) :
  0 <= i -> TS_continue fact Lcum bs i = true -> i < len Lcum \/ i ∈ bs.
Proof.
  intros Hi. unfold TS_continue. intros [H|H]%orb_true_iff.
  - left. destruct (js_get Lcum i) as [x|] eqn:Hx; [|done].
    apply js_get_Some in Hx as [_ Hx%lookup_lt_Some]. unfold len. lia.
  - right. by apply js_contains_spec.
Qed.

Lemma TS_continue_false (fact : Q) (Lcum : list Q) (bs : list Z) (i : Z) :
  TS_continue fact Lcum bs i = false -> i ∉ bs.
Proof.
  unfold TS_continue. intros [_ H]%orb_false_iff Hin.
  apply js_contains_spec in Hin. congruence.
Qed.

(** Past the boundaries recorded so far the [while] of [TS] can only go on
    inside [Lcum]. *)
Lemma TS_advance_above (fuel : nat) (fact : Q) (Lcum : list Q) (bs : list Z) (i : Z) :
  0 <= i -> (forall y, y ∈ bs -> y < i) ->
  (Z.to_nat (len Lcum - i) + 1 <= fuel)%nat ->
  exists i', TS_advance fuel fact Lcum bs i = Some i' /\ i <= i'
             /\ TS_continue fact Lcum bs i' = false.
Proof.
  revert i. induction fuel as [|fuel IH]; intros i Hi Hbs Hfuel; [lia|].
  cbn [TS_advance]. destruct (TS_continue fact Lcum bs i) eqn:Hc.
  - apply TS_continue_range in Hc as [Hc|Hc]; [|apply Hbs in Hc; lia|done].
    destruct (IH (i + 1)) as (i' & Hrun & Hle & Hstop); [lia| |lia|].
    { intros y Hy. apply Hbs in Hy. lia. }
    exists i'. split; [done|]. split; [lia|done].
  - exists i. split; [done|]. split; [lia|done].
Qed.

Lemma TS_advance_total (fact : Q) (Lcum : list Q) (bs : list Z) (i : Z) :
  0 <= i -> (forall y, y ∈ bs -> y <= i) ->
  exists i', TS_advance (length Lcum + 2) fact Lcum bs i = Some i' /\ i <= i'
             /\ TS_continue fact Lcum bs i' = false.
Proof.
  intros Hi Hbs. replace (length Lcum + 2)%nat with (S (length Lcum + 1)) by lia.
  cbn [TS_advance]. destruct (TS_continue fact Lcum bs i) eqn:Hc.
  - destruct (TS_advance_above (length Lcum + 1) fact Lcum bs (i + 1))
      as (i' & Hrun & Hle & Hstop); [lia| |unfold len; lia|].
    { intros y Hy. apply Hbs in Hy. lia. }
    exists i'. split; [done|]. split; [lia|done].
  - exists i. split; [done|]. split; [lia|done].
Qed.

Lemma TS_step_inv (Lcum : list Q) (incr : Q) (k : nat) (acc : Z * list Z) (j : Z) :
  TS_inv k acc ->
  exists acc', TS_step Lcum incr acc j = Ret acc' /\ TS_inv (S k) acc'.
Proof.
  intros (Hi & Hlen & Hinc & Hrange). unfold TS_step.
  destruct (TS_advance_total (inject_Z (j - 1) * incr) Lcum acc.2 acc.1)
    as (i' & -> & Hle & Hstop); [done|intros y Hy; apply Hrange in Hy; lia|].
  eexists. split; [done|]. unfold TS_inv. cbn [fst snd].
  apply TS_continue_false in Hstop.
  split; [lia|]. split; [rewrite length_app; simpl; lia|]. split.
  - apply strictly_increasing_snoc; [done|]. intros y Hy.
    assert (y <> i') by (intros ->; done). apply Hrange in Hy. lia.
  - intros y [Hy| ->%list_elem_of_singleton]%elem_of_app; [|lia].
    apply Hrange in Hy. lia.
Qed.

Lemma strictly_increasing_nil : strictly_increasing [].
Proof. intros i j x y _ Hx. done. Qed.

(** [TS] always returns, whatever [cumdist] gave: it installs
    [numclusters] strictly increasing, non-negative boundaries. *)
Lemma TS_returns (cumdist : list sample -> list Q * Q) (N M : Z) (w : WKM) :
  exists bs, TS cumdist N M w = Ret (set_initialized true (set_boundaries bs w))
    /\ length bs = Z.to_nat M
    /\ strictly_increasing bs
    /\ (forall y, y ∈ bs -> 0 <= y).
Proof.
  unfold TS.
  destruct (for_each_inv (TS_step (cumdist (samples w)).1
                            ((cumdist (samples w)).2 / inject_Z M)%Q)
              TS_inv ((fun j => j + 1) <$> upto M) (0, []))
    as ([i bs] & -> & _ & Hlen & Hinc & Hrange).
  - split; [done|]. split; [done|]. split; [apply strictly_increasing_nil|].
    intros y Hy. by apply not_elem_of_nil in Hy.
  - intros k x s _ Hs. by apply TS_step_inv.
  - exists bs. cbn [mbind result_bind fst snd] in *. split; [done|].
    split; [|split; [done|]].
    + rewrite Hlen. unfold upto. by rewrite !length_fmap, length_seq.
    + intros y Hy. apply Hrange in Hy. lia.
Qed.

Lemma resample_overwrites (N M : Z) (b : bool) (bs : list Z) (w : WKM) :
  resample N M (set_initialized b (set_boundaries bs w)) = resample N M w.
Proof. reflexivity. Qed.

Lemma initdefault_is_resample (cumdist : list sample -> list Q * Q) (N M : Z) (w : WKM) :
  initdefault cumdist N M w = Ret (resample N M w).
Proof.
  unfold initdefault. destruct (Qltb (inject_Z N / inject_Z M) 2).
  - reflexivity.
  - destruct (TS_returns cumdist N M (set_boundaries [] w)) as (bs & -> & _).
    reflexivity.
Qed.

(** C7.  With [1 < M < N], [init] without a method leaves exactly the
    instance that [init("eq")] leaves: whatever trace segmentation computed
    is overwritten by the equal-count boundaries. *)
Theorem C7_default_init_is_eq (cumdist : list sample -> list Q * Q) (w : WKM) :
  1 < numclusters w < len (samples w) ->
  init cumdist None w = init cumdist (Some "eq") w
  /\ exists w', init cumdist None w = Ret w'
       /\ boundaries w' = resample_bounds (len (samples w)) (numclusters w).
Proof.
  intros HM. unfold init.
  change (numclusters (reset w)) with (numclusters w).
  change (samples (reset w)) with (samples w).
  destruct (Z.leb_spec (numclusters w) 1); [lia|].
  destruct (Z.leb_spec (len (samples w)) (numclusters w)); [lia|].
  rewrite initdefault_is_resample. cbn.
  split; [done|]. eexists. split; [done|]. reflexivity.
Qed.

(** ** What the loop leaves alone *)

Lemma bind_Ret_inv {A B} (m : result A) (f : A -> result B) (b : B) :
  m ≫= f = Ret b -> exists a, m = Ret a /\ f a = Ret b.
Proof. destruct m; cbn; intros H; try discriminate. eauto. Qed.

Lemma defined_Ret_inv {A} (o : option A) (a : A) : defined o = Ret a -> o = Some a.
Proof. destruct o; cbn; congruence. Qed.

Lemma for_each_preserves {A St B} (body : St -> A -> result St) (proj : St -> B)
    (l : list A) (s s' : St) :
  (forall s x s', body s x = Ret s' -> proj s' = proj s) ->
  for_each body l s = Ret s' -> proj s' = proj s.
Proof.
  intros Hbody. revert s. induction l as [|x l IH]; intros s H.
  - cbn in H. by injection H as <-.
  - rewrite for_each_cons in H. apply bind_Ret_inv in H as (s1 & H1 & H).
    rewrite (IH _ H). eauto.
Qed.

Lemma getPartition_config (w w' : WKM) :
  getPartition w = Ret w' -> config w' = config w /\ boundaries w' = boundaries w.
Proof.
  destruct (getPartition_cases w) as [(cl & -> & _)|(j & _ & -> & _)]; [|done].
  intros [= <-]. done.
Qed.

Lemma computeEnergies_body_config (w w' : WKM) (j : Z) :
  computeEnergies_body w j = Ret w' ->
  (config w', boundaries w', clusters w') = (config w, boundaries w, clusters w).
Proof.
  unfold computeEnergies_body. intros H.
  apply bind_Ret_inv in H as (pts & _ & H).
  destruct (len pts =? 0); [done|]. cbv zeta in H.
  apply bind_Ret_inv in H as (cs & _ & H).
  apply bind_Ret_inv in H as (le & _ & H). by injection H as <-.
Qed.

Lemma computeEnergies_config (w w' : WKM) :
  computeEnergies w = Ret w' ->
  (config w', boundaries w', clusters w') = (config w, boundaries w, clusters w).
Proof.
  unfold computeEnergies. intros H.
  apply (for_each_preserves _ (fun w => (config w, boundaries w, clusters w))) in H.
  - done.
  - intros. by eapply computeEnergies_body_config.
Qed.

Lemma setPartition_loop_config (p : list (list sample)) (j : Z) (w w' : WKM) :
  setPartition_loop j p w = Ret w' -> config w' = config w.
Proof.
  revert j w. induction p as [|pts p IH]; intros j w H; cbn [setPartition_loop] in H.
  - by injection H as <-.
  - destruct (len pts =? 0); [done|].
    apply bind_Ret_inv in H as (cl & _ & H). cbv zeta in H.
    apply IH in H. rewrite H. by destruct (0 <? j).
Qed.

Lemma setPartition_config (p : list (list sample)) (w w' : WKM) :
  setPartition p w = Ret w' -> config w' = config w.
Proof. unfold setPartition. intros H. by apply setPartition_loop_config in H. Qed.

Lemma incrementalMeans_config (smp : sample) (j b n m : Z) (w w' : WKM) :
  incrementalMeans smp j b n m w = Ret w' ->
  exists cs, w' = set_centroids cs w.
Proof.
  unfold incrementalMeans. intros H.
  apply bind_Ret_inv in H as (cb & _ & H).
  apply bind_Ret_inv in H as (cj & _ & H). cbv zeta in H.
  apply bind_Ret_inv in H as (cs & _ & H).
  apply bind_Ret_inv in H as (cs' & _ & H). injection H as <-. by exists cs'.
Qed.

Lemma shift_boundary_config (h : half) (j : Z) (w w' : WKM) :
  shift_boundary h j w = Ret w' -> exists bs, w' = set_boundaries bs w.
Proof.
  unfold shift_boundary. intros H. cbv zeta in H.
  apply bind_Ret_inv in H as (b & _ & H).
  apply bind_Ret_inv in H as (bs & _ & H). injection H as <-. by exists bs.
Qed.

Lemma update_localenergy_config (k : Z) (f : Q -> Q) (w w' : WKM) :
  update_localenergy k f w = Ret w' -> exists le, w' = set_localenergy le w.
Proof.
  unfold update_localenergy. intros H.
  apply bind_Ret_inv in H as (e & _ & H).
  apply bind_Ret_inv in H as (le & _ & H). injection H as <-. by exists le.
Qed.

Lemma move_config (h : half) (smp : sample) (n j m : Z) (J1 J2 : Q) (w w' : WKM) :
  move h smp n j m J1 J2 w = Ret w' -> config w' = config w.
Proof.
  unfold move. intros H. cbv zeta in H.
  apply bind_Ret_inv in H as (w1 & (bs & ->)%shift_boundary_config & H).
  apply bind_Ret_inv in H as (w2 & (cs & ->)%incrementalMeans_config & H).
  apply bind_Ret_inv in H as (w3 & (le & ->)%update_localenergy_config & H).
  apply bind_Ret_inv in H as (w4 & (le' & ->)%update_localenergy_config & H).
  by apply getPartition_config in H as [-> _].
Qed.

Lemma attempt_config (h : half) (points : list sample) (n j i : Z)
    (w : WKM) (r : WKM * bool) :
  attempt h points n j i w = Ret r -> config r.1 = config w.
Proof.
  unfold attempt. intros H.
  apply bind_Ret_inv in H as (smp & _ & H). cbv zeta in H.
  apply bind_Ret_inv in H as (pb & _ & H).
  apply bind_Ret_inv in H as (cb & _ & H).
  apply bind_Ret_inv in H as (cj & _ & H).
  apply bind_Ret_inv in H as ([|] & _ & H).
  - apply bind_Ret_inv in H as (w1 & Hm%move_config & H). by injection H as <-.
  - by injection H as <-.
Qed.

Lemma scan_config (h : half) (k : nat) (points : list sample) (n j i : Z)
    (w : WKM) (tr : bool) (r : WKM * bool) :
  scan h k points n j i w tr = Ret r -> config r.1 = config w.
Proof.
  revert i w tr. induction k as [|k IH]; intros i w tr H; cbn [scan] in H.
  - by injection H as <-.
  - apply bind_Ret_inv in H as (a & Ha%attempt_config & H). destruct a.2.
    + apply IH in H. by rewrite H.
    + by injection H as <-.
Qed.

Lemma explore_config (acc r : WKM * bool) (j : Z) :
  explore acc j = Ret r -> config r.1 = config acc.1.
Proof.
  unfold explore. intros H.
  apply bind_Ret_inv in H as (pts & _ & H). cbv zeta in H.
  destruct (len pts <? 2); [by injection H as <-|].
  apply bind_Ret_inv in H as (acc1 & H1 & H).
  assert (config acc1.1 = config acc.1) as <-.
  { destruct (0 <? j); [by eapply scan_config|by injection H1 as <-]. }
  apply bind_Ret_inv in H as (pts' & _ & H).
  destruct (len pts' <? 2); [by injection H as <-|].
  destruct (j + 1 <? numclusters acc1.1); [by eapply scan_config|by injection H as <-].
Qed.

Lemma sweep_config (w : WKM) (r : WKM * bool) :
  sweep w = Ret r -> config r.1 = config w.
Proof.
  unfold sweep. intros H.
  apply (for_each_preserves _ (fun acc : WKM * bool => config acc.1)) in H; [done|].
  intros. by eapply explore_config.
Qed.

(** ** The cap of the loop (C10) *)

(** Every sweep adds one to the counter, and the loop hands back the flags
    it was given followed by one flag per sweep. *)
Lemma iterate_counts (fuel : nat) (w : WKM) (flags : list bool) (r : WKM * list bool) :
  iterate fuel w flags = Ret r ->
  exists fl, r.2 = flags ++ fl /\ fl <> []
    /\ iterations r.1 = iterations w + len fl
    /\ maxiter r.1 = maxiter w /\ numclusters r.1 = numclusters w.
Proof.
  revert w flags. induction fuel as [|fuel IH]; intros w flags H; [done|].
  cbn [iterate] in H. apply bind_Ret_inv in H as (a & E & H). cbv zeta in H.
  pose proof (sweep_config _ _ E) as Hc.
  injection Hc as Hmax _ Hnum _ _ _ Hit.
  destruct (negb a.2 || _).
  - injection H as <-. exists [a.2]. cbn. split; [done|]. split; [done|].
    unfold len. cbn. split; [lia|done].
  - apply IH in H as (fl & -> & _ & Hit' & Hmax' & Hnum').
    exists (a.2 :: fl). rewrite <- app_assoc. split; [done|]. split; [done|].
    cbn in Hit', Hmax', Hnum'. unfold len in *. cbn [length]. split; [lia|].
    split; congruence.
Qed.

(** Entered with the counter at or beyond [maxiter], the loop is left only
    after a sweep that moved nothing: the first such sweep. *)
Lemma iterate_beyond_cap (fuel : nat) (w : WKM) (flags : list bool) (r : WKM * list bool) :
  maxiter w <= iterations w ->
  iterate fuel w flags = Ret r ->
  exists fl0, r.2 = flags ++ fl0 ++ [false] /\ Forall (eq true) fl0.
Proof.
  revert w flags. induction fuel as [|fuel IH]; intros w flags Hcap H; [done|].
  cbn [iterate] in H. apply bind_Ret_inv in H as (a & E & H). cbv zeta in H.
  pose proof (sweep_config _ _ E) as Hc.
  injection Hc as Hmax _ _ _ _ _ Hit.
  cbn [iterations maxiter set_iterations] in H.
  destruct (Z.eqb_spec (iterations a.1 + 1) (maxiter a.1)) as [Heq|_]; [lia|].
  rewrite orb_false_r in H. destruct a.2 eqn:Htr; cbn [negb] in H.
  - apply IH in H as (fl0 & -> & Hall); [|cbn; lia].
    exists (true :: fl0). rewrite <- app_assoc. split; [done|]. by constructor.
  - injection H as <-. exists []. done.
Qed.

Lemma init_None_any (cd1 cd2 : list sample -> list Q * Q) (w : WKM) :
  init cd1 None w = init cd2 None w.
Proof.
  unfold init. destruct (_ <=? 1); [done|]. destruct (_ <=? _); [done|].
  by rewrite !initdefault_is_resample.
Qed.

(** Without a method argument [cluster] never depends on what [cumdist]
    returns. *)
Lemma cluster_run_any (cd1 cd2 : list sample -> list Q * Q) (fuel : nat)
    (p : option (list (list sample))) (w : WKM) :
  cluster_run cd1 fuel p w = cluster_run cd2 fuel p w.
Proof.
  unfold cluster_run, cluster_start. by rewrite (init_None_any cd1 cd2).
Qed.

Lemma cluster_start_initialized (cumdist : list sample -> list Q * Q)
    (p : option (list (list sample))) (w w' : WKM) :
  initialized w = true -> cluster_start cumdist p w = Ret w' ->
  config w' = config w.
Proof.
  unfold cluster_start. intros -> H. cbn [mbind result_bind] in H.
  apply bind_Ret_inv in H as (w1 & H1 & H).
  apply computeEnergies_config in H.
  assert (config w' = config w1) as -> by congruence.
  destruct p as [p|].
  - by apply setPartition_config in H1.
  - by apply getPartition_config in H1 as [-> _].
Qed.

(** C10.  On an initialised instance (so that [cluster] does not call
    [init]) with at least two clusters whose counter is already at or
    beyond the cap of 100, a call of [cluster] that returns has left its
    loop after its first sweep without transfers, however many sweeps that
    took: the counter is only added to, one per sweep, so the test against
    100 never holds. *)
Theorem C10_cap_never_triggers (cumdist : list sample -> list Q * Q) (fuel : nat)
    (p : option (list (list sample))) (w : WKM) (r : WKM * list bool) :
  initialized w = true -> 2 <= numclusters w ->
  maxiter w = 100 -> 100 <= iterations w ->
  cluster_run cumdist fuel p w = Ret r ->
  (exists fl, r.2 = fl ++ [false] /\ Forall (eq true) fl)
  /\ iterations r.1 = iterations w + len r.2
  /\ 100 < iterations r.1.
Proof.
  intros Hinit HM Hmax Hit H. unfold cluster_run in H.
  apply bind_Ret_inv in H as (w1 & H1 & H).
  apply (cluster_start_initialized _ _ _ _ Hinit) in H1.
  injection H1 as Hmax1 _ Hnum1 _ _ _ Hit1.
  destruct (Z.ltb_spec (numclusters w1) 2); [lia|].
  apply bind_Ret_inv in H as (r1 & Hloop & H).
  apply bind_Ret_inv in H as (w2 & Hce & H). injection H as <-. cbn [fst snd].
  apply computeEnergies_config in Hce.
  assert (iterations w2 = iterations r1.1) as Hit2.
  { assert (config w2 = config r1.1) as Hc by congruence. by injection Hc. }
  assert (maxiter w1 <= iterations w1) as Hcap by lia.
  pose proof (iterate_beyond_cap _ _ _ _ Hcap Hloop) as (fl0 & Hlast & Hall).
  apply iterate_counts in Hloop as (fl & Hfl & Hne & Hcount & _).
  cbn [app] in Hfl, Hlast.
  split; [by exists fl0|]. rewrite Hfl. split; [lia|].
  destruct fl; [done|]. unfold len in *. cbn [length] in *. lia.
Qed.

Lemma C10_cap_never_triggers_witness :
  exists r, cluster_run cumdist1 1 None capped_instance = Ret r
    /\ (exists fl, r.2 = fl ++ [false] /\ Forall (eq true) fl)
    /\ iterations r.1 = iterations capped_instance + len r.2
    /\ 100 < iterations r.1.
Proof.
  eexists. split; [vm_compute; reflexivity|].
  apply (C10_cap_never_triggers cumdist1 1 None capped_instance).
  - reflexivity.
  - vm_compute. discriminate.
  - reflexivity.
  - vm_compute. discriminate.
  - vm_compute. reflexivity.
Defined.

Lemma C7_default_init_is_eq_witness :
  init cumdist1 None far_tail_instance = init cumdist1 (Some "eq") far_tail_instance
  /\ exists w', init cumdist1 None far_tail_instance = Ret w'
       /\ boundaries w' = resample_bounds (len (samples far_tail_instance))
                            (numclusters far_tail_instance).
Proof.
  apply (C7_default_init_is_eq cumdist1 far_tail_instance).
  vm_compute. split; reflexivity.
Defined.

(** ** Well-formed instances *)

Lemma js_get_lt {A} (l : list A) (i : Z) :
  0 <= i < len l -> exists x, js_get l i = Some x.
Proof.
  intros Hi. unfold js_get, len in *. destruct (Z.ltb_spec i 0); [lia|].
  apply lookup_lt_is_Some. lia.
Qed.

Lemma js_get_bnd (w : WKM) (j : Z) :
  len (boundaries w) = numclusters w -> 0 <= j < numclusters w ->
  js_get (boundaries w) j = Some (bnd w j).
Proof.
  intros Hlen Hj. unfold bnd. destruct (Z.ltb_spec j (numclusters w)); [|lia].
  destruct (js_get_lt (boundaries w) j) as [x ->]; [lia|done].
Qed.

Lemma bnd_last (w : WKM) : bnd w (numclusters w) = len (samples w).
Proof. unfold bnd. by rewrite Z.ltb_irrefl. Qed.

Lemma bnd_le (w : WKM) (j : Z) :
  wf_bounds w -> 0 <= j <= numclusters w -> bnd w j <= len (samples w).
Proof.
  intros [_ Hb] Hj.
  assert (forall k : nat, forall j, j = numclusters w - Z.of_nat k -> 0 <= j ->
            bnd w j <= len (samples w)) as H.
  { induction k as [|k IH]; intros j' -> Hj'.
    - rewrite Z.sub_0_r, bnd_last. lia.
    - specialize (IH (numclusters w - Z.of_nat k) eq_refl ltac:(lia)).
      specialize (Hb (numclusters w - Z.of_nat (S k)) ltac:(lia)).
      replace (numclusters w - Z.of_nat (S k) + 1)
        with (numclusters w - Z.of_nat k) in Hb by lia. lia. }
  apply (H (Z.to_nat (numclusters w - j))); lia.
Qed.

Lemma getClusterSamples_bnd (w : WKM) (j : Z) :
  len (boundaries w) = numclusters w -> 0 <= j < numclusters w ->
  getClusterSamples w j
  = js_slice (samples w) (Some (bnd w j)) (Some (bnd w (j + 1))).
Proof.
  intros Hlen Hj. unfold getClusterSamples. rewrite js_get_bnd by done.
  destruct (Z.ltb_spec (j + 1) (numclusters w)).
  - rewrite js_get_bnd by (done || lia). done.
  - replace (j + 1) with (numclusters w) by lia. by rewrite bnd_last.
Qed.

Lemma js_slice_len {A} (l : list A) (lo hi : Z) :
  0 <= lo <= hi -> hi <= len l -> len (js_slice l (Some lo) (Some hi)) = hi - lo.
Proof.
  intros Hlo Hhi. unfold js_slice, slice_index, len in *.
  destruct (Z.ltb_spec lo 0); [lia|]. destruct (Z.ltb_spec hi 0); [lia|].
  rewrite length_take, length_drop. lia.
Qed.

Lemma size_ge_1 (w : WKM) (j : Z) :
  wf_bounds w -> 0 <= j < numclusters w -> 1 <= size w j.
Proof. intros [_ Hb] Hj. specialize (Hb j Hj). unfold size. lia. Qed.

Lemma getClusterSamples_len (w : WKM) (j : Z) :
  wf_bounds w -> 0 <= j < numclusters w ->
  len (getClusterSamples w j) = size w j.
Proof.
  intros Hwf Hj. pose proof Hwf as [Hlen Hb].
  rewrite getClusterSamples_bnd by done. specialize (Hb j Hj).
  pose proof (bnd_le w (j + 1) Hwf ltac:(lia)).
  rewrite js_slice_len by lia. done.
Qed.

Lemma len_nil_iff {A} (l : list A) : len l = 0 <-> l = [].
Proof. unfold len. destruct l; cbn; split; intros; (done || lia). Qed.

(** Non-negative boundaries with non-empty segments are well formed. *)
Lemma pre_bounds_wf (w : WKM) :
  pre_bounds w ->
  (forall j, 0 <= j < numclusters w -> getClusterSamples w j <> []) ->
  wf_bounds w.
Proof.
  intros [Hlen Hpos] Hne. split; [done|]. intros j Hj.
  assert (forall k, 0 <= k <= numclusters w -> 0 <= bnd w k) as Hnn.
  { intros k Hk. unfold bnd. destruct (Z.ltb_spec k (numclusters w)).
    - destruct (js_get_lt (boundaries w) k) as [x Hx]; [lia|]. rewrite Hx. cbn.
      apply Hpos. apply js_get_Some in Hx as [_ Hx].
      apply list_elem_of_lookup. eauto.
    - unfold len. lia. }
  split; [apply Hnn; lia|].
  specialize (Hne j Hj). rewrite getClusterSamples_bnd in Hne by done.
  destruct (decide (bnd w j < bnd w (j + 1))) as [|Hge]; [done|].
  exfalso. apply Hne. apply js_slice_empty_iff; [apply Hnn; lia..|].
  intros [i Hi]. lia.
Qed.

Lemma wf_bounds_nonempty (w : WKM) (j : Z) :
  wf_bounds w -> 0 <= j < numclusters w -> getClusterSamples w j <> [].
Proof.
  intros Hwf Hj Hnil. apply len_nil_iff in Hnil.
  rewrite getClusterSamples_len in Hnil by done.
  pose proof (size_ge_1 w j Hwf Hj). lia.
Qed.

(** On well-formed boundaries [getPartition] returns, having stored the
    segments. *)
Lemma getPartition_wf (w : WKM) :
  wf_bounds w ->
  exists cl, getPartition w = Ret (set_clusters cl w)
             /\ wf_clusters (set_clusters cl w).
Proof.
  intros Hwf.
  destruct (getPartition_cases w) as [(cl & Hg & _ & Hcl & _)|(j & Hj & _ & Hnil)].
  - exists cl. split; [done|]. intros j Hj. by apply Hcl.
  - by apply wf_bounds_nonempty in Hnil.
Qed.

Lemma wf_bounds_ext (w w' : WKM) :
  geometry w' = geometry w -> wf_bounds w -> wf_bounds w'.
Proof.
  unfold wf_bounds, bnd. intros [= -> -> ->]. done.
Qed.

Lemma size_ext (w w' : WKM) (j : Z) :
  geometry w' = geometry w -> size w' j = size w j.
Proof. unfold size, bnd. intros [= -> -> ->]. done. Qed.

Lemma getClusterSamples_ext (w w' : WKM) (j : Z) :
  geometry w' = geometry w -> getClusterSamples w' j = getClusterSamples w j.
Proof. unfold getClusterSamples. intros [= -> -> ->]. done. Qed.

(** ** Empty segments (C6) *)

Lemma bnd_nonneg (w : WKM) (j : Z) : pre_bounds w -> 0 <= j -> 0 <= bnd w j.
Proof.
  intros [Hlen Hpos] Hj. unfold bnd. destruct (Z.ltb_spec j (numclusters w)).
  - pose proof (js_get_bnd w j Hlen ltac:(lia)) as Hb. unfold bnd in Hb.
    destruct (Z.ltb_spec j (numclusters w)); [|lia].
    apply js_get_Some in Hb as [_ Hb]. apply list_elem_of_lookup_2 in Hb.
    by apply Hpos.
  - unfold len. lia.
Qed.





Lemma upto_lookup (n : Z) (k : nat) (x : Z) :
  upto n !! k = Some x -> x = Z.of_nat k /\ 0 <= x < n.
Proof.
  unfold upto. rewrite list_lookup_fmap. intros H.
  apply fmap_Some in H as (i & Hi & ->). apply lookup_seq in Hi as [-> Hi].
  cbn. lia.
Qed.

Lemma upto_length (n : Z) : length (upto n) = Z.to_nat n.
Proof. unfold upto. by rewrite length_fmap, length_seq. Qed.

Lemma js_get_range {A} (l : list A) (i : Z) (x : A) :
  js_get l i = Some x -> 0 <= i < len l.
Proof.
  intros [Hi Hx%lookup_lt_Some]%js_get_Some. unfold len. lia.
Qed.

(** A write inside the array replaces one cell. *)
Lemma js_set_in_range {A} (l : list A) (i : Z) (v : A) :
  0 <= i < len l ->
  exists l', js_set l i v = Some l'
    /\ js_get l' i = Some v
    /\ (forall k, k <> i -> js_get l' k = js_get l k)
    /\ len l' = len l.
Proof.
  intros Hi. unfold len in Hi.
  exists (<[Z.to_nat i := v]> l). split.
  { rewrite <- (Z2Nat.id i) at 1 by lia. apply js_set_nat_lt. lia. }
  split.
  { apply js_get_Some. split; [lia|]. apply list_lookup_insert_eq. lia. }
  split.
  - intros k Hk. unfold js_get. destruct (Z.ltb_spec k 0); [done|].
    apply list_lookup_insert_ne. lia.
  - unfold len. by rewrite length_insert.
Qed.

(** *** Energies *)

Lemma cluster_at_wf (w : WKM) (j : Z) :
  wf_clusters w -> 0 <= j < numclusters w ->
  cluster_at w j = Ret (getClusterSamples w j).
Proof. intros Hcl Hj. unfold cluster_at. by rewrite (Hcl j Hj). Qed.

Lemma centroid_at_wf (w : WKM) (j : Z) :
  wf_tables w -> 0 <= j < numclusters w -> exists c, centroid_at w j = Ret c.
Proof.
  intros Ht Hj. destruct (Ht j Hj) as [[c Hc] _]. exists c.
  unfold centroid_at. by rewrite Hc.
Qed.

Lemma computeEnergies_wf (w : WKM) :
  wf_bounds w -> wf_clusters w ->
  exists w', computeEnergies w = Ret w'
    /\ (config w', geometry w', clusters w') = (config w, geometry w, clusters w)
    /\ wf w'.
Proof.
  intros Hb Hcl. unfold computeEnergies.
  destruct (for_each_inv computeEnergies_body (computeEnergies_inv w)
              (upto (numclusters w)) (set_totalenergy 0%Q w))
    as (w' & Hrun & Heq & _ & _ & Hdef).
  - split; [done|]. split; [lia|]. split; [lia|]. intros; lia.
  - intros k x s Hx (Heq & Hlc & Hll & Hdef).
    apply upto_lookup in Hx as [-> Hk].
    assert (clusters s = clusters w) as Hcs by congruence.
    unfold computeEnergies_body, cluster_at. rewrite Hcs, (Hcl _ Hk).
    cbn [mjoin option_join defined mbind result_bind].
    pose proof (getClusterSamples_len w _ Hb Hk) as Hlen.
    pose proof (size_ge_1 w _ Hb Hk) as Hsz.
    destruct (Z.eqb_spec (len (getClusterSamples w (Z.of_nat k))) 0); [lia|].
    cbv zeta.
    destruct (js_set_nat_le (centroids s) k
                (Some (clustercenter (getClusterSamples w (Z.of_nat k)))) Hlc)
      as (cs & -> & Hcs_k & Hcs_below & Hcs_len).
    cbn [defined mbind result_bind].
    change (localenergy (set_centroids cs s)) with (localenergy s).
    destruct (js_set_nat_le (localenergy s) k
                (energy_of (getClusterSamples w (Z.of_nat k))
                   (clustercenter (getClusterSamples w (Z.of_nat k)))) Hll)
      as (le & -> & Hle_k & Hle_below & Hle_len).
    cbn [defined mbind result_bind]. eexists. split; [done|].
    split; [by rewrite <- Heq|]. cbn. split; [lia|]. split; [lia|].
    intros j Hj. destruct (decide (j = k)) as [->|Hjk].
    + rewrite Hcs_k, Hle_k. eauto.
    + rewrite Hcs_below, Hle_below by lia. apply Hdef. lia.
  - exists w'. split; [done|]. split; [done|].
    assert (geometry w' = geometry w) as Hg by congruence.
    assert (clusters w' = clusters w) as Hc by congruence.
    assert (numclusters w' = numclusters w) as HM by (injection Hg; congruence).
    split; [by eapply wf_bounds_ext|]. split.
    + intros j Hj. rewrite Hc, (getClusterSamples_ext w w') by done.
      apply Hcl. lia.
    + intros j Hj. rewrite upto_length in Hdef.
      destruct (Hdef (Z.to_nat j)) as [Hc1 He1]; [lia|].
      rewrite <- (Z2Nat.id j) by lia. by rewrite !js_get_nat.
Qed.

(** *** A move *)

Lemma valid_scan_best (h : half) (j : Z) (w : WKM) :
  valid_scan h j w -> 0 <= bestcluster_of h j < numclusters w.
Proof. intros [Hj Hh]. destruct h; cbn; lia. Qed.

Lemma wf_tables_set_centroids (w : WKM) (k : Z) (c : sample)
    (cs : list (option sample)) :
  wf_tables w -> 0 <= k < numclusters w ->
  js_set (centroids w) k (Some c) = Some cs ->
  wf_tables (set_centroids cs w).
Proof.
  intros Ht Hk Hset j Hj. destruct (Ht k Hk) as [[ck Hck] _].
  destruct (js_set_in_range (centroids w) k (Some c)) as (cs' & Hset' & Hat & Hother & _).
  { by eapply js_get_range. }
  assert (cs' = cs) as -> by congruence.
  destruct (Ht j Hj) as [[cj Hcj] He]. split; [|done]. cbn.
  destruct (decide (j = k)) as [->|Hjk]; [eauto|].
  rewrite Hother by done. eauto.
Qed.

Lemma incrementalMeans_wf (smp : sample) (j b n m : Z) (w : WKM) :
  wf_tables w -> 0 <= j < numclusters w -> 0 <= b < numclusters w ->
  exists cs, incrementalMeans smp j b n m w = Ret (set_centroids cs w)
             /\ wf_tables (set_centroids cs w).
Proof.
  intros Ht Hj Hb. unfold incrementalMeans.
  destruct (centroid_at_wf w b Ht Hb) as [cb ->].
  destruct (centroid_at_wf w j Ht Hj) as [cj ->].
  cbn [mbind result_bind]. cbv zeta.
  destruct (Ht b Hb) as [[cb' Hcb'] _].
  match goal with |- context [@js_set ?A (centroids w) b (@Some ?B ?nb)] =>
    destruct (@js_set_in_range A (centroids w) b (@Some B nb))
      as (cs1 & Hset1 & _ & _ & Hlen1); [by eapply js_get_range|];
    pose proof (wf_tables_set_centroids w b nb cs1 Ht Hb Hset1) as Ht1
  end.
  rewrite Hset1. cbn [defined mbind result_bind].
  destruct (Ht1 j Hj) as [[cj' Hcj'] _]. cbn in Hcj'.
  match goal with |- context [@js_set ?A cs1 j (@Some ?B ?nj)] =>
    destruct (@js_set_in_range A cs1 j (@Some B nj)) as (cs2 & Hset2 & _);
      [by eapply js_get_range|];
    pose proof (wf_tables_set_centroids (set_centroids cs1 w) j nj cs2 Ht1 Hj Hset2)
      as Ht2
  end.
  rewrite Hset2. cbn [defined mbind result_bind].
  exists cs2. split; [done|]. exact Ht2.
Qed.

Lemma update_localenergy_wf (k : Z) (f : Q -> Q) (w : WKM) :
  wf_tables w -> 0 <= k < numclusters w ->
  exists le, update_localenergy k f w = Ret (set_localenergy le w)
             /\ wf_tables (set_localenergy le w).
Proof.
  intros Ht Hk. unfold update_localenergy.
  destruct (Ht k Hk) as [_ [e He]]. rewrite He. cbn [defined mbind result_bind].
  destruct (js_set_in_range (localenergy w) k (f e)) as (le & -> & Hat & Hother & _).
  { by eapply js_get_range. }
  cbn [defined mbind result_bind]. exists le. split; [done|].
  intros j Hj. destruct (Ht j Hj) as [Hc [ej Hej]]. split; [done|]. cbn.
  destruct (decide (j = k)) as [->|Hjk]; [eauto|]. rewrite Hother by done. eauto.
Qed.

Lemma bnd_set_boundaries (w : WKM) (idx v : Z) (bs : list Z) (k : Z) :
  0 <= idx < numclusters w ->
  js_get bs idx = Some v ->
  (forall k, k <> idx -> js_get bs k = js_get (boundaries w) k) ->
  bnd (set_boundaries bs w) k = if k =? idx then v else bnd w k.
Proof.
  intros Hidx Hat Hother. unfold bnd. cbn [numclusters samples boundaries set_boundaries].
  destruct (Z.eqb_spec k idx) as [->|Hk].
  - destruct (Z.ltb_spec idx (numclusters w)); [|lia]. by rewrite Hat.
  - by rewrite Hother.
Qed.

Lemma shift_boundary_wf (h : half) (j : Z) (w : WKM) :
  wf_bounds w -> valid_scan h j w -> 1 < size w j ->
  exists bs, shift_boundary h j w = Ret (set_boundaries bs w)
    /\ wf_bounds (set_boundaries bs w)
    /\ size (set_boundaries bs w) j = size w j - 1
    /\ first_boundary (set_boundaries bs w) = first_boundary w.
Proof.
  intros [Hlen Hb] [Hj Hh] Hsz. unfold shift_boundary. cbv zeta.
  set (idx := match h with FirstHalf => j | SecondHalf => j + 1 end).
  set (step := match h with FirstHalf => 1 | SecondHalf => -1 end).
  assert (0 <= idx < numclusters w) as Hidx by (destruct h; subst idx; lia).
  rewrite (js_get_bnd w idx Hlen Hidx). cbn [defined mbind result_bind].
  destruct (js_set_in_range (boundaries w) idx (bnd w idx + step))
    as (bs & -> & Hat & Hother & Hlen'); [lia|].
  cbn [defined mbind result_bind]. exists bs. split; [done|].
  pose proof (fun k => bnd_set_boundaries w idx _ bs k Hidx Hat Hother) as Hbnd.
  unfold size in *. split; [split|split].
  - cbn. lia.
  - intros k Hk. cbn [numclusters set_boundaries] in Hk. rewrite !Hbnd.
    pose proof (Hb k Hk) as Hk1. pose proof (Hb j Hj) as Hj1.
    destruct (Z.eqb_spec k idx) as [He1|Hne1];
      destruct (Z.eqb_spec (k + 1) idx) as [He2|Hne2]; try lia.
    + destruct h; subst idx step.
      * subst k. lia.
      * subst k. pose proof (Hb (j + 1) ltac:(lia)). lia.
    + destruct h; subst idx step.
      * rewrite He2 in Hk1. lia.
      * assert (k = j) as -> by lia. lia.
  - rewrite !Hbnd.
    destruct (Z.eqb_spec j idx) as [He1|Hne1];
      destruct (Z.eqb_spec (j + 1) idx) as [He2|Hne2];
      destruct h; subst idx step; lia.
  - unfold first_boundary. cbn [boundaries set_boundaries].
    apply Hother. destruct h; subst idx; lia.
Qed.

Lemma move_wf (h : half) (smp : sample) (n j m : Z) (J1 J2 : Q) (w : WKM) :
  wf w -> valid_scan h j w -> 1 < size w j ->
  exists w', move h smp n j m J1 J2 w = Ret w'
    /\ wf w' /\ size w' j = size w j - 1
    /\ first_boundary w' = first_boundary w.
Proof.
  intros (Hb & Hcl & Ht) Hv Hsz. unfold move. cbv zeta.
  set (w0 := set_numtransfers (numtransfers w + 1) w).
  destruct (shift_boundary_wf h j w0 Hb Hv Hsz) as (bs & -> & Hb1 & Hsz1 & Hf1).
  cbn [mbind result_bind].
  destruct (incrementalMeans_wf smp j (bestcluster_of h j) n m
              (set_boundaries bs w0) Ht (proj1 Hv) (valid_scan_best h j w Hv))
    as (cs & -> & Ht2).
  cbn [mbind result_bind].
  destruct (update_localenergy_wf (bestcluster_of h j) (fun e => e + J1)%Q _ Ht2
              (valid_scan_best h j w Hv)) as (le & -> & Ht3).
  cbn [mbind result_bind].
  destruct (update_localenergy_wf j (fun e => e - J2)%Q _ Ht3 (proj1 Hv))
    as (le' & -> & Ht4).
  cbn [mbind result_bind].
  match goal with |- context [getPartition ?w5] =>
    destruct (getPartition_wf w5 Hb1) as (cl & -> & Hcl5)
  end.
  eexists. split; [done|]. split; [|split; [exact Hsz1|exact Hf1]].
  split; [exact Hb1|]. split; [exact Hcl5|exact Ht4].
Qed.

Lemma attempt_wf (h : half) (points : list sample) (n j i : Z) (w : WKM) :
  wf w -> valid_scan h j w -> 0 <= i < len points ->
  exists w' ok, attempt h points n j i w = Ret (w', ok)
    /\ wf w'
    /\ size w' j = (if ok : bool then size w j - 1 else size w j)
    /\ first_boundary w' = first_boundary w.
Proof.
  intros Hwf Hv Hi. pose proof Hwf as (Hb & Hcl & Ht). unfold attempt.
  destruct (js_get_lt points i Hi) as [smp ->].
  cbn [defined mbind result_bind]. cbv zeta.
  rewrite (cluster_at_wf w _ Hcl (valid_scan_best h j w Hv)).
  cbn [mbind result_bind].
  destruct (centroid_at_wf w _ Ht (valid_scan_best h j w Hv)) as [cb ->].
  destruct (centroid_at_wf w j Ht (proj1 Hv)) as [cj ->].
  cbn [mbind result_bind]. unfold accepts.
  set (w0 := set_cost (cost w + 1) w).
  destruct (Qltb _ 0).
  - change (cluster_at w0 j) with (cluster_at w j).
    rewrite (cluster_at_wf w j Hcl (proj1 Hv)). cbn [mbind result_bind].
    rewrite (getClusterSamples_len w j Hb (proj1 Hv)).
    destruct (Z.ltb_spec 1 (size w j)) as [Hsz|Hsz].
    + match goal with |- context [move h smp n j ?m ?J1 ?J2 w0] =>
        destruct (move_wf h smp n j m J1 J2 w0 Hwf Hv Hsz)
          as (w' & -> & Hwf' & Hsz' & Hf')
      end.
      cbn [mbind result_bind]. exists w', true. done.
    + exists w0, false. done.
  - cbn [mbind result_bind]. exists w0, false. done.
Qed.

Lemma scan_wf (h : half) (points : list sample) (n j : Z) (k : nat) :
  len points = n ->
  forall (i : Z) (w : WKM) (tr : bool),
    wf w -> valid_scan h j w -> in_scan h n i (size w j) ->
    exists r, scan h k points n j i w tr = Ret r /\ wf r.1
              /\ first_boundary r.1 = first_boundary w.
Proof.
  intros Hn. induction k as [|k IH]; intros i w tr Hwf Hv Hin; cbn [scan].
  - by exists (w, tr).
  - pose proof (size_ge_1 w j (proj1 Hwf) (proj1 Hv)) as Hsz.
    assert (0 <= i < len points) as Hi by (destruct h; cbn in Hin; lia).
    pose proof (attempt_wf h points n j i w Hwf Hv Hi)
      as (w' & ok & Hrun & Hwf' & Hsz' & Hf').
    rewrite Hrun. cbn [mbind result_bind fst snd].
    destruct ok; [|by exists (w', tr)].
    destruct (IH (next_index h i) w' true Hwf') as (r & Hr & Hwfr & Hfr).
    + apply attempt_config in Hrun. cbn in Hrun.
      assert (numclusters w' = numclusters w) as HM by (by injection Hrun).
      unfold valid_scan. rewrite HM. exact Hv.
    + rewrite Hsz'. destruct h; cbn in *; lia.
    + exists r. split; [done|]. split; [done|]. congruence.
Qed.

Lemma explore_wf (acc : WKM * bool) (j : Z) :
  wf acc.1 -> 0 <= j < numclusters acc.1 ->
  exists r, explore acc j = Ret r /\ wf r.1
            /\ first_boundary r.1 = first_boundary acc.1.
Proof.
  intros Hwf Hj. pose proof Hwf as (Hb & Hcl & Ht). unfold explore.
  rewrite (cluster_at_wf _ j Hcl Hj). cbn [mbind result_bind]. cbv zeta.
  rewrite (getClusterSamples_len _ j Hb Hj).
  destruct (Z.ltb_spec (size acc.1 j) 2); [by exists acc|].
  assert (exists acc1,
    (if 0 <? j
     then scan FirstHalf (Z.to_nat (first_bound (size acc.1 j) (threshold acc.1) + 1))
            (getClusterSamples acc.1 j) (size acc.1 j) j 0 acc.1 acc.2
     else Ret acc) = Ret acc1 /\ wf acc1.1 /\ config acc1.1 = config acc.1
     /\ first_boundary acc1.1 = first_boundary acc.1)
    as (acc1 & -> & Hwf1 & Hc1 & Hf1).
  { destruct (Z.ltb_spec 0 j).
    - destruct (scan_wf FirstHalf (getClusterSamples acc.1 j) (size acc.1 j) j
                  (Z.to_nat (first_bound (size acc.1 j) (threshold acc.1) + 1))
                  (getClusterSamples_len _ j Hb Hj) 0 acc.1 acc.2 Hwf)
        as (r & Hr & Hwfr & Hfr).
      + split; [done|]. cbn. lia.
      + cbn. lia.
      + exists r. split; [done|]. split; [done|]. split; [by eapply scan_config|done].
    - exists acc. done. }
  cbn [mbind result_bind].
  assert (numclusters acc1.1 = numclusters acc.1) as HM by (by injection Hc1).
  pose proof Hwf1 as (Hb1 & Hcl1 & Ht1).
  rewrite (cluster_at_wf _ j Hcl1) by lia. cbn [mbind result_bind].
  rewrite (getClusterSamples_len _ j Hb1) by lia.
  destruct (Z.ltb_spec (size acc1.1 j) 2); [by exists acc1|].
  destruct (Z.ltb_spec (j + 1) (numclusters acc1.1)); [|by exists acc1].
  destruct (scan_wf SecondHalf (getClusterSamples acc1.1 j) (size acc1.1 j) j
              (Z.to_nat (size acc1.1 j - second_bound (size acc1.1 j) (threshold acc1.1)))
              ltac:(apply getClusterSamples_len; [done|lia])
              (size acc1.1 j - 1) acc1.1 acc1.2 Hwf1)
    as (r & Hr & Hwfr & Hfr).
  - split; [lia|]. cbn. lia.
  - cbn. lia.
  - exists r. split; [done|]. split; [done|]. congruence.
Qed.

Lemma sweep_wf (w : WKM) :
  wf w -> exists r, sweep w = Ret r /\ wf r.1
                    /\ first_boundary r.1 = first_boundary w.
Proof.
  intros Hwf. unfold sweep.
  destruct (for_each_inv explore
              (fun _ acc => wf acc.1 /\ numclusters acc.1 = numclusters w
                            /\ first_boundary acc.1 = first_boundary w)
              (upto (numclusters w)) (w, false)) as (r & Hr & Hwfr & _ & Hfr).
  - done.
  - intros k x acc Hx (Ha & HM & Hf). apply upto_lookup in Hx as [_ Hx].
    destruct (explore_wf acc x Ha ltac:(lia)) as (r & Hr & Hwfr & Hfr).
    exists r. split; [done|]. split; [done|]. split; [|congruence].
    apply explore_config in Hr. rewrite <- HM. by injection Hr.
  - by exists r.
Qed.

(** *** The loop below the cap *)

Lemma iterate_terminates (fuel : nat) :
  forall (w : WKM) (flags : list bool),
    wf w -> iterations w < maxiter w ->
    (Z.to_nat (maxiter w - iterations w) <= fuel)%nat ->
    exists w' fl0 b,
      iterate fuel w flags = Ret (w', flags ++ fl0 ++ [b])
      /\ wf w'
      /\ Forall (eq true) fl0
      /\ (b = false \/ iterations w' = maxiter w)
      /\ iterations w' = iterations w + len (fl0 ++ [b])
      /\ iterations w' <= maxiter w
      /\ first_boundary w' = first_boundary w.
Proof.
  induction fuel as [|fuel IH]; intros w flags Hwf Hit Hfuel; [lia|].
  cbn [iterate]. destruct (sweep_wf w Hwf) as (r & Hr & Hwfr & Hfr).
  rewrite Hr. cbn [mbind result_bind]. cbv zeta.
  apply sweep_config in Hr. injection Hr as Hmax _ _ _ _ _ Hiter.
  set (w2 := set_iterations (iterations r.1 + 1) r.1).
  assert (wf w2) as Hwf2 by exact Hwfr.
  assert (iterations w2 = iterations w + 1) as Hit2 by (cbn; lia).
  assert (maxiter w2 = maxiter w) as Hmax2 by (cbn; lia).
  destruct (negb r.2 || (iterations w2 =? maxiter w2)) eqn:Hstop.
  - exists w2, [], r.2. split; [done|]. split; [done|]. split; [done|].
    split.
    { apply orb_true_iff in Hstop as [Hs|Hs%Z.eqb_eq].
      - left. by destruct r.2.
      - right. lia. }
    unfold len. cbn [app length]. split; [lia|]. split; [lia|done].
  - apply orb_false_iff in Hstop as [Hs Hne%Z.eqb_neq].
    assert (r.2 = true) as -> by (by destruct r.2).
    destruct (IH w2 (flags ++ [true]) Hwf2 ltac:(lia) ltac:(lia))
      as (w' & fl0 & b & -> & Hwf' & Hall & Hb & Hcount & Hle & Hf').
    exists w', (true :: fl0), b. rewrite <- app_assoc. split; [done|].
    split; [done|]. split; [by constructor|]. split; [rewrite <- Hmax2; exact Hb|].
    split; [|split; [lia|by rewrite Hf']].
    unfold len in *. cbn [app length] in *. rewrite length_app in *. cbn in *. lia.
Qed.

(** *** What initialisation establishes *)

Lemma wf_bounds_pre (w : WKM) : wf_bounds w -> pre_bounds w.
Proof.
  intros [Hlen Hb]. split; [done|]. intros y Hy.
  apply list_elem_of_lookup in Hy as [k Hk].
  pose proof (lookup_lt_Some _ _ _ Hk) as Hlt. unfold len in Hlen.
  specialize (Hb (Z.of_nat k) ltac:(lia)).
  pose proof (js_get_bnd w (Z.of_nat k) Hlen ltac:(lia)) as Hg.
  rewrite js_get_nat, Hk in Hg. injection Hg as Hg. lia.
Qed.

Lemma resample_wf (N M : Z) (w : WKM) :
  numclusters w = M -> len (samples w) = N -> 1 <= M <= N ->
  wf_bounds (resample N M w).
Proof.
  intros HM HN Hr.
  destruct (resample_bounds_spec N M ltac:(lia) Hr) as (Hlen & Hinc & _).
  pose proof (resample_bounds_range N M) as Hrange.
  split; [cbn; lia|]. intros j Hj. cbn [resample numclusters set_initialized set_boundaries] in Hj.
  assert (forall k, 0 <= k < M ->
            exists y, resample_bounds N M !! Z.to_nat k = Some y
                      /\ bnd (resample N M w) k = y /\ 0 <= y < N) as Hk.
  { intros k Hk. destruct (js_get_lt (resample_bounds N M) k) as [y Hy]; [lia|].
    exists y. pose proof Hy as [_ Hy']%js_get_Some. split; [done|]. split.
    - unfold bnd. cbn. rewrite HM. destruct (Z.ltb_spec k M); [|lia].
      by rewrite Hy.
    - apply Hrange; [lia|done|]. apply list_elem_of_lookup. eauto. }
  destruct (Hk j ltac:(lia)) as (y & Hy & -> & Hyr).
  destruct (decide (j + 1 < M)) as [Hlt|Hge].
  - destruct (Hk (j + 1) ltac:(lia)) as (y' & Hy' & -> & Hyr').
    split; [lia|]. apply (Hinc (Z.to_nat j) (Z.to_nat (j + 1))); [lia|done..].
  - replace (j + 1) with (numclusters (resample N M w)) by (cbn; lia).
    rewrite bnd_last. cbn. lia.
Qed.

Lemma resample_first (N M : Z) (w : WKM) :
  1 <= M <= N -> first_boundary (resample N M w) = Some 0.
Proof.
  intros Hr. destruct (resample_bounds_spec N M ltac:(lia) Hr) as (_ & _ & H0).
  unfold first_boundary. cbn [boundaries resample set_initialized set_boundaries].
  apply js_get_Some. done.
Qed.

Lemma init_singletons (w : WKM) :
  1 <= numclusters w -> numclusters w = len (samples w) ->
  exists w', for_each singleton_boundary (upto (numclusters w)) (reset w) = Ret w'
    /\ config w' = config (reset w) /\ wf_bounds w'
    /\ first_boundary w' = Some 0.
Proof.
  intros HM HN.
  destruct (for_each_inv singleton_boundary (singletons_inv (reset w))
              (upto (numclusters w)) (reset w)) as (w' & Hrun & Heq & Hlen & Hat).
  - split; [done|]. split; [cbn; by rewrite length_replicate|]. intros; lia.
  - intros k x s Hx (Heq & Hlen & Hat). apply upto_lookup in Hx as [-> Hk].
    unfold singleton_boundary. rewrite js_set_nat_lt by (rewrite Hlen; cbn; lia).
    cbn [defined mbind result_bind]. eexists. split; [done|].
    split; [done|]. cbn [boundaries set_boundaries].
    split; [by rewrite length_insert|].
    intros j Hj. destruct (decide (j = k)) as [->|Hjk].
    + apply list_lookup_insert_eq. rewrite Hlen. cbn. lia.
    + rewrite list_lookup_insert_ne by done. apply Hat. lia.
  - exists w'. split; [done|].
    assert (config w' = config (reset w)) as Hc by congruence.
    assert (samples w' = samples w) as Hs by (change (samples w) with (samples (reset w)); congruence).
    assert (numclusters w' = numclusters w) as HM' by (by injection Hc).
    split; [done|]. rewrite upto_length in Hat. cbn in Hlen.
    assert (forall k, 0 <= k <= numclusters w -> bnd w' k = k) as Hbnd.
    { intros k Hk. unfold bnd. rewrite HM', Hs.
      destruct (Z.ltb_spec k (numclusters w)); [|lia].
      rewrite <- (Z2Nat.id k) at 1 by lia. rewrite js_get_nat, Hat by lia.
      cbn. lia. }
    split; [split|].
    + unfold len; lia.
    + intros j Hj. rewrite !Hbnd by lia. lia.
    + unfold first_boundary. apply js_get_Some. split; [done|].
      apply (Hat 0%nat). lia.
Qed.

Lemma init_None_wf (cumdist : list sample -> list Q * Q) (w : WKM) :
  valid_config w ->
  exists w', init cumdist None w = Ret w'
    /\ wf_bounds w'
    /\ maxiter w' = 100 /\ iterations w' = 0
    /\ numclusters w' = numclusters w
    /\ first_boundary w' = Some 0.
Proof.
  intros [Hmax HM]. unfold init.
  change (numclusters (reset w)) with (numclusters w).
  change (samples (reset w)) with (samples w).
  destruct (Z.leb_spec (numclusters w) 1) as [H1|H1].
  - eexists. split; [done|]. split; [|done].
    split; [cbn; unfold len; cbn; lia|]. intros j Hj.
    cbn [numclusters set_boundaries reset] in Hj. assert (j = 0) as -> by lia.
    unfold bnd. cbn [numclusters set_boundaries reset boundaries samples].
    destruct (Z.ltb_spec 0 (numclusters w)); [|lia].
    destruct (Z.ltb_spec (0 + 1) (numclusters w)); [lia|].
    unfold len in *. change (js_get [0] 0) with (Some 0). cbn. lia.
  - destruct (Z.leb_spec (len (samples w)) (numclusters w)) as [H2|H2].
    + destruct (init_singletons w ltac:(lia) ltac:(lia)) as (w' & -> & Hc & Hwf & Hf).
      exists w'. split; [done|]. split; [done|].
      injection Hc as -> _ -> _ _ _ ->. done.
    + rewrite initdefault_is_resample. eexists. split; [done|].
      split; [apply resample_wf; cbn; (done || lia)|].
      do 3 (split; [done|]). apply resample_first. lia.
Qed.

(** [init] always returns; it leaves the counter at 0 and, when it marks
    the instance as initialised, one non-negative boundary per cluster,
    which cut non-empty segments unless [TS] chose them. *)
Lemma init_fresh (cumdist : list sample -> list Q * Q) (method : option string)
    (w0 : WKM) :
  valid_config w0 ->
  exists w, init cumdist method w0 = Ret w
    /\ valid_config w /\ iterations w = 0
    /\ (initialized w = true ->
        pre_bounds w
        /\ (is_ts method = false -> wf_bounds w /\ first_boundary w = Some 0)).
Proof.
  intros Hv. pose proof Hv as [Hmax HM]. unfold init.
  change (numclusters (reset w0)) with (numclusters w0).
  change (samples (reset w0)) with (samples w0).
  destruct (Z.leb_spec (numclusters w0) 1) as [H1|H1].
  { eexists. split; [done|]. split; [done|]. split; [done|]. done. }
  destruct (Z.leb_spec (len (samples w0)) (numclusters w0)) as [H2|H2].
  { destruct (init_singletons w0 ltac:(lia) ltac:(lia)) as (w' & -> & Hc & Hwf & _).
    exists w'. split; [done|]. injection Hc as Hc1 Hc2 Hc3 _ _ Hc6 Hc7.
    split; [split; [cbn in *; congruence|cbn in *; rewrite Hc2, Hc3; lia]|].
    split; [done|]. cbn in Hc6. intros; congruence. }
  assert (forall w, w = resample (len (samples w0)) (numclusters w0) (reset w0) ->
            valid_config w /\ iterations w = 0
            /\ (initialized w = true ->
                pre_bounds w
                /\ (is_ts method = false ->
                    wf_bounds w /\ first_boundary w = Some 0))) as Hres.
  { intros w ->. split; [done|]. split; [done|]. intros _.
    assert (wf_bounds (resample (len (samples w0)) (numclusters w0) (reset w0)))
      by (apply resample_wf; cbn; (done || lia)).
    split; [by apply wf_bounds_pre|]. intros _. split; [done|].
    apply resample_first. lia. }
  destruct method as [s|]; cbn [is_ts] in *.
  - destruct (String.eqb (toLowerCase s) "ts").
    + destruct (TS_returns cumdist (len (samples w0)) (numclusters w0) (reset w0))
        as (bs & -> & Hlen & _ & Hpos).
      eexists. split; [done|]. split; [done|]. split; [done|]. intros _.
      split; [|done]. split; [cbn; unfold len; lia|]. exact Hpos.
    + destruct (String.eqb (toLowerCase s) "eq").
      * eexists. split; [done|]. by apply Hres.
      * rewrite initdefault_is_resample. eexists. split; [done|]. by apply Hres.
  - rewrite initdefault_is_resample. eexists. split; [done|]. by apply Hres.
Qed.

Lemma WKM_new_fresh (smp : list sample) (nc : Z) (th : Q) (w : WKM) :
  WKM_new smp nc th = Ret w ->
  valid_config w /\ iterations w = 0 /\ initialized w = false.
Proof.
  unfold WKM_new. destruct smp as [|s0 smp]; [done|]. intros [= <-].
  split; [|done]. split; [done|]. cbn [numclusters samples reset].
  unfold len. cbn [length].
  destruct (Z.ltb_spec (js_parseInt nc) 1); [lia|].
  destruct (Z.ltb_spec (Z.of_nat (S (length smp))) (js_parseInt nc)); lia.
Qed.

(** ** The first fit (C5) *)

Lemma cluster_run_unfold (cumdist : list sample -> list Q * Q) (fuel : nat)
    (partition : option (list (list sample))) (w : WKM) :
  cluster_run cumdist fuel partition w
  = w1 ← (if initialized w then Ret w else init cumdist None w);
    cluster_body fuel partition w1.
Proof.
  unfold cluster_run, cluster_start, cluster_body.
  destruct (if initialized w then Ret w else init cumdist None w) as [w1| | |];
    cbn [mbind result_bind]; [|done..].
  destruct (match partition with Some p => setPartition p w1 | None => getPartition w1 end)
    as [w2| | |]; cbn [mbind result_bind]; [|done..].
  destruct (computeEnergies w2); done.
Qed.

Lemma cluster_body_wf (w : WKM) :
  wf_bounds w -> maxiter w = 100 -> iterations w = 0 ->
  exists w' fl, cluster_body 100 None w = Ret (w', fl)
    /\ iterations w' = len fl /\ len fl <= 100
    /\ sweeps_ok (numclusters w) fl
    /\ wf w' /\ first_boundary w' = first_boundary w.
Proof.
  intros Hb Hmax Hit. unfold cluster_body.
  destruct (getPartition_wf w Hb) as (cl & -> & Hcl). cbn [mbind result_bind].
  destruct (computeEnergies_wf (set_clusters cl w) Hb Hcl) as (w3 & -> & Heq & Hwf3).
  cbn [mbind result_bind].
  assert (config w3 = config (set_clusters cl w)) as Hc by congruence.
  change (config (set_clusters cl w)) with (config w) in Hc.
  injection Hc as Hmax3 _ HM3 _ _ _ Hit3. rewrite HM3.
  assert (first_boundary w3 = first_boundary w) as Hf3.
  { unfold first_boundary.
    assert (geometry w3 = geometry (set_clusters cl w)) as Hg by congruence.
    by injection Hg as -> _ _. }
  destruct (Z.ltb_spec (numclusters w) 2) as [HM|HM].
  - exists w3, []. split; [done|]. unfold len. cbn [length].
    split; [lia|]. split; [lia|]. split; [by left|done].
  - destruct (iterate_terminates 100 w3 [] Hwf3 ltac:(lia) ltac:(lia))
      as (w4 & fl0 & b & -> & Hwf4 & Hall & Hlast & Hcount & Hle & Hf4).
    cbn [mbind result_bind fst snd app].
    destruct Hwf4 as (Hb4 & Hcl4 & _).
    destruct (computeEnergies_wf w4 Hb4 Hcl4) as (w5 & -> & Heq5 & Hwf5).
    cbn [mbind result_bind].
    assert (config w5 = config w4) as Hc5 by congruence.
    injection Hc5 as _ _ _ _ _ _ Hit5.
    exists w5, (fl0 ++ [b]). split; [done|]. split; [lia|]. split; [lia|].
    split; [|split; [done|]].
    + right. split; [done|]. exists fl0, b. split; [done|]. split; [done|].
      destruct Hlast as [?|Hlast]; [by left|right; lia].
    + assert (geometry w5 = geometry w4) as Hg by congruence.
      unfold first_boundary in *. injection Hg as -> _ _. congruence.
Qed.

(** C5, as amended.  The first [cluster()] of a freshly constructed or
    freshly initialised instance, called without a partition argument,
    terminates within 100 sweeps.  It throws "Empty cluster", before any
    sweep, only if [init("ts")] chose boundaries with an empty segment;
    with fewer than two clusters it returns without a sweep; otherwise it
    returns without error after the first sweep without transfers, or
    after exactly 100 sweeps when every sweep before made one.  (With a
    partition argument the call can also throw from [setPartition] or
    from the boundaries it leaves, which is not covered here.) *)
Theorem C5_first_fit_terminates (cumdist : list sample -> list Q * Q)
    (ts : bool) (w : WKM) :
  fresh cumdist ts w ->
  (ts = true /\ exists j, getPartition w = EmptyCluster j
                /\ cluster_run cumdist 100 None w = EmptyCluster j)
  \/ (exists w' fl,
        cluster_run cumdist 100 None w = Ret (w', fl)
        /\ iterations w' = len fl /\ len fl <= 100
        /\ sweeps_ok (numclusters w) fl).
Proof.
  intros Hfresh. rewrite cluster_run_unfold.
  assert (valid_config w /\ iterations w = 0
          /\ (initialized w = true ->
              pre_bounds w
              /\ (ts = false -> wf_bounds w /\ first_boundary w = Some 0)))
    as ([Hmax HM] & Hit & Hinit).
  { destruct Hfresh as [smp nc th w Hnew|w0 Hv|method w0 w Hv Hrun].
    - apply WKM_new_fresh in Hnew as (Hv & Hit & Hi).
      split; [done|]. split; [done|]. intros; congruence.
    - split; [done|]. split; [done|]. cbn. intros; congruence.
    - destruct (init_fresh cumdist method w0 Hv) as (w1 & Hrun1 & Hall).
      assert (w1 = w) as -> by congruence. exact Hall. }
  destruct (initialized w) eqn:Hi.
  - cbn [mbind result_bind]. destruct (Hinit eq_refl) as [Hpre Hts].
    destruct (getPartition_cases w) as [(cl & Hg & _ & _ & Hne)|(j & Hj & Hg & Hnil)].
    + right. pose proof (pre_bounds_wf w Hpre Hne) as Hb.
      destruct (cluster_body_wf w Hb Hmax Hit)
        as (w' & fl & Hrun & H1 & H2 & H3 & _).
      by exists w', fl.
    + destruct ts.
      * left. split; [done|]. exists j. split; [done|].
        unfold cluster_body. by rewrite Hg.
      * by apply wf_bounds_nonempty in Hnil; [|apply Hts|].
  - destruct (init_None_wf cumdist w (conj Hmax HM))
      as (w1 & -> & Hb & Hmax1 & Hit1 & HM1 & _).
    cbn [mbind result_bind]. right.
    destruct (cluster_body_wf w1 Hb Hmax1 Hit1)
      as (w' & fl & Hrun & H1 & H2 & H3 & _).
    exists w', fl. by rewrite <- HM1.
Qed.

Lemma C5_first_fit_terminates_witness :
  exists w, WKM_new (points1 [0; 1; 9; 10]) 2 0%Q = Ret w
  /\ ((false = true /\ exists j, getPartition w = EmptyCluster j
                /\ cluster_run cumdist1 100 None w = EmptyCluster j)
  \/ (exists w' fl,
        cluster_run cumdist1 100 None w = Ret (w', fl)
        /\ iterations w' = len fl /\ len fl <= 100
        /\ sweeps_ok (numclusters w) fl)).
Proof.
  eexists. split; [reflexivity|].
  apply (C5_first_fit_terminates cumdist1 false).
  apply (fresh_new cumdist1 (points1 [0; 1; 9; 10]) 2 0%Q). reflexivity.
Defined.

(** C5 as stated fails in two ways: after [init("ts")] on 0 0 0 0 0 10 in
    three clusters the boundaries are [0, 5, 6] and the fit throws "Empty
    cluster 2"; and a fit with one cluster returns after no sweep at all. *)
Lemma C5_counterexample :
  (exists w, fresh cumdist1 true w
     /\ init cumdist1 (Some "ts") far_tail_instance = Ret w
     /\ boundaries w = [0; 5; 6]
     /\ cluster_run cumdist1 100 None w = EmptyCluster 2
     /\ ~ first_fit_as_stated cumdist1 w)
  /\ (fresh cumdist1 false single_instance
      /\ (exists w', cluster_run cumdist1 100 None single_instance = Ret (w', []))
      /\ ~ first_fit_as_stated cumdist1 single_instance).
Proof.
  split.
  - eexists. split; [|split; [vm_compute; reflexivity|]].
    + apply (fresh_init cumdist1 (Some "ts") far_tail_instance).
      * vm_compute. split; [done|]. split; discriminate.
      * vm_compute. reflexivity.
    + split; [reflexivity|]. split; [vm_compute; reflexivity|].
      intros (w' & fl & Hrun & _). vm_compute in Hrun. discriminate.
  - split.
    + apply (fresh_new cumdist1 (points1 [0; 1; 2]) 1 0%Q). reflexivity.
    + split; [eexists; vm_compute; reflexivity|].
      intros (w' & fl & Hrun & _ & Hfl). vm_compute in Hrun.
      injection Hrun as _ <-. destruct Hfl as [Hin|Hlen].
      * by apply not_elem_of_nil in Hin.
      * vm_compute in Hlen. discriminate.
Qed.

(** ** When the counter restarts (the hypotheses of C10) *)

Lemma init_resets_counter (cumdist : list sample -> list Q * Q)
    (method : option string) (w w' : WKM) :
  init cumdist method w = Ret w' ->
  iterations w' = 0 /\ maxiter w' = maxiter w /\ numclusters w' = numclusters w.
Proof.
  unfold init. change (numclusters (reset w)) with (numclusters w).
  change (samples (reset w)) with (samples w).
  assert (forall w1, resample (len (samples w)) (numclusters w) (reset w) = w1 ->
            iterations w1 = 0 /\ maxiter w1 = maxiter w
            /\ numclusters w1 = numclusters w) as Hres by (by intros w1 <-).
  destruct (_ <=? 1); [by intros [= <-]|].
  destruct (_ <=? _).
  { intros H. apply (for_each_preserves _ config) in H.
    - by injection H as -> _ -> _ _ _ ->.
    - intros s x s' Hs. unfold singleton_boundary in Hs.
      apply bind_Ret_inv in Hs as (bs & _ & Hs). by injection Hs as <-. }
  destruct method as [s|].
  - destruct (String.eqb _ "ts").
    + destruct (TS_returns cumdist (len (samples w)) (numclusters w) (reset w))
        as (bs & -> & _). by intros [= <-].
    + destruct (String.eqb _ "eq"); [|rewrite initdefault_is_resample];
        intros [= <-]; by apply Hres.
  - rewrite initdefault_is_resample. intros [= <-]. by apply Hres.
Qed.

(** On an instance that is not marked initialised [cluster] calls [init]
    and the counter restarts: it ends as the number of sweeps of this
    call.  Only initialised instances carry their counter into a fit. *)
Lemma cluster_run_restarts_counter (cumdist : list sample -> list Q * Q)
    (fuel : nat) (p : option (list (list sample))) (w : WKM)
    (r : WKM * list bool) :
  initialized w = false ->
  cluster_run cumdist fuel p w = Ret r ->
  iterations r.1 = len r.2.
Proof.
  intros Hi H. rewrite cluster_run_unfold, Hi in H.
  apply bind_Ret_inv in H as (w1 & (Hit1 & _)%init_resets_counter & H).
  unfold cluster_body in H.
  apply bind_Ret_inv in H as (w2 & H2 & H).
  apply bind_Ret_inv in H as (w3 & H3%computeEnergies_config & H).
  assert (iterations w3 = 0) as Hit3.
  { assert (config w3 = config w2) as Hc by congruence.
    injection Hc as _ _ _ _ _ _ ->.
    destruct p as [p|].
    - apply setPartition_config in H2. injection H2 as _ _ _ _ _ _ ->. done.
    - apply getPartition_config in H2 as [H2 _].
      injection H2 as _ _ _ _ _ _ ->. done. }
  destruct (numclusters w3 <? 2).
  - injection H as <-. cbn [fst snd]. unfold len. cbn [length]. lia.
  - apply bind_Ret_inv in H as (r1 & Hloop & H).
    apply bind_Ret_inv in H as (w4 & H4%computeEnergies_config & H).
    injection H as <-. cbn [fst snd].
    apply iterate_counts in Hloop as (fl & Hfl & _ & Hcount & _).
    cbn [app] in Hfl. assert (config w4 = config r1.1) as Hc by congruence.
    injection Hc as _ _ _ _ _ _ ->. rewrite Hcount, Hfl. lia.
Qed.

(** ** What the acceptance test and the incremental means compute *)

Lemma Qltb_spec (x y : Q) : Qltb x y = true <-> (x < y)%Q.
Proof. unfold Qltb, Qlt. apply Z.ltb_lt. Qed.



Lemma clustercenter_coord (points : list sample) (D d : nat) :
  Forall (fun p => length p = D) points -> (d < D)%nat -> points <> [] ->
  coord (clustercenter points) d = mean_coord points d.
Proof.
  intros Hdim Hd Hne. destruct points as [|p0 ps]; [done|].
  unfold clustercenter, coord at 1. rewrite nth_lookup, list_lookup_fmap.
  apply Forall_cons in Hdim as [-> _].
  rewrite (proj2 (lookup_seq 0 D d d) (conj eq_refl Hd)). done.
Qed.

Lemma inject_Z_succ (m : Z) : (inject_Z (m + 1) == inject_Z m + 1)%Q.
Proof. by rewrite inject_Z_plus. Qed.

Lemma inject_Z_pred (n : Z) : (inject_Z (n - 1) == inject_Z n - 1)%Q.
Proof. unfold Z.sub. rewrite inject_Z_plus. reflexivity. Qed.

Lemma inject_Z_pos (m : Z) : 0 < m -> ~ (inject_Z m == 0)%Q.
Proof.
  intros Hm Heq. apply (inject_Z_injective m 0) in Heq. lia.
Qed.

(** The incremental update of the destination centroid, for the size [m]
    of the destination before the move. *)
Lemma mean_insert (S s : Q) (m : Z) :
  1 <= m ->
  (S / inject_Z m + (s - S / inject_Z m) / inject_Z (m + 1)
   == (S + s) / inject_Z (m + 1))%Q.
Proof.
  intros Hm. pose proof (inject_Z_pos m ltac:(lia)) as H1.
  pose proof (inject_Z_pos (m + 1) ltac:(lia)) as H2.
  rewrite inject_Z_succ in *. field. split; done.
Qed.

(** The incremental update of the source centroid, for the size [n] of the
    source before the move. *)
Lemma mean_remove (S s : Q) (n : Z) :
  2 <= n ->
  (S / inject_Z n - (s - S / inject_Z n) / inject_Z (n - 1)
   == (S - s) / inject_Z (n - 1))%Q.
Proof.
  intros Hn. pose proof (inject_Z_pos n ltac:(lia)) as H1.
  pose proof (inject_Z_pos (n - 1) ltac:(lia)) as H2.
  rewrite inject_Z_pred in *. field. split; done.
Qed.

Lemma mean_coord_cons_insert (s : sample) (B : list sample) (d : nat) :
  B <> [] ->
  (mean_coord B d + (coord s d - mean_coord B d) / inject_Z (len B + 1)
   == mean_coord (s :: B) d)%Q.
Proof.
  intros HB. unfold mean_coord. rewrite mean_insert.
  - rewrite fmap_cons. cbn [Qsum foldr].
    replace (len (s :: B)) with (len B + 1) by (unfold len; cbn [length]; lia).
    apply Qdiv_comp; [unfold Qsum; ring|reflexivity].
  - unfold len. destruct B; [done|cbn [length]; lia].
Qed.

Lemma mean_coord_cons_remove (s : sample) (J : list sample) (d : nat) :
  J <> [] ->
  (mean_coord (s :: J) d
   - (coord s d - mean_coord (s :: J) d) / inject_Z (len (s :: J) - 1)
   == mean_coord J d)%Q.
Proof.
  intros HJ. unfold mean_coord. rewrite mean_remove.
  - rewrite fmap_cons. cbn [Qsum foldr].
    replace (len (s :: J) - 1) with (len J) by (unfold len; cbn [length]; lia).
    apply Qdiv_comp; [unfold Qsum; ring|reflexivity].
  - unfold len. destruct J; [done|cbn [length]; lia].
Qed.

Lemma js_set_spec {A} (l l' : list A) (i : Z) (v : A) :
  js_set l i v = Some l' ->
  js_get l' i = Some v /\ forall k, k <> i -> js_get l' k = js_get l k.
Proof.
  unfold js_set. destruct (Z.ltb_spec i 0); [done|].
  destruct (Z.ltb_spec i (len l)).
  - intros [= <-].
    destruct (js_set_in_range l i v ltac:(lia)) as (l' & Hset & Hat & Hother & _).
    unfold js_set in Hset. destruct (Z.ltb_spec i 0); [lia|].
    destruct (Z.ltb_spec i (len l)); [|lia]. injection Hset as <-. done.
  - destruct (Z.eqb_spec i (len l)) as [->|]; [|done]. intros [= <-].
    unfold js_get, len. split.
    + destruct (Z.ltb_spec (Z.of_nat (length l)) 0); [lia|].
      rewrite Nat2Z.id, lookup_app_r, Nat.sub_diag by lia. done.
    + intros k Hk. destruct (Z.ltb_spec k 0); [done|].
      destruct (decide (Z.to_nat k < length l)%nat).
      * by rewrite lookup_app_l.
      * rewrite lookup_app_r by lia. rewrite (lookup_ge_None_2 l) by lia.
        apply lookup_ge_None_2. cbn. lia.
Qed.

Lemma coord_fmap_seq (f : nat -> Q) (D d : nat) :
  (d < D)%nat -> coord (f <$> seq 0 D) d = f d.
Proof.
  intros Hd. unfold coord. rewrite nth_lookup, list_lookup_fmap.
  by rewrite (proj2 (lookup_seq 0 D d d) (conj eq_refl Hd)).
Qed.

(** What [incrementalMeans] stores, coordinate by coordinate. *)
Lemma incrementalMeans_coords (smp cb cj : sample) (j b n m : Z) (w w' : WKM) :
  b <> j ->
  centroid_at w b = Ret cb -> centroid_at w j = Ret cj ->
  incrementalMeans smp j b n m w = Ret w' ->
  exists cb' cj',
    centroid_at w' b = Ret cb' /\ centroid_at w' j = Ret cj'
    /\ forall d, (d < dimensions w)%nat ->
         coord cb' d
           = (coord cb d + (coord smp d - coord cb d) / inject_Z (m + 1))%Q
         /\ coord cj' d
           = (coord cj d - (coord smp d - coord cj d) / inject_Z (n - 1))%Q.
Proof.
  intros Hbj Hcb Hcj. unfold incrementalMeans. rewrite Hcb, Hcj.
  cbn [mbind result_bind]. cbv zeta. intros H.
  apply bind_Ret_inv in H as (cs1 & H1%defined_Ret_inv & H).
  apply bind_Ret_inv in H as (cs2 & H2%defined_Ret_inv & H).
  injection H as <-.
  apply js_set_spec in H1 as [H1at H1other].
  apply js_set_spec in H2 as [H2at H2other].
  eexists _, _. unfold centroid_at. cbn [centroids set_centroids].
  unfold sample in *. rewrite (H2other b Hbj), H1at, H2at. cbn [mjoin option_join defined].
  split; [done|]. split; [done|].
  intros d Hd. by rewrite !coord_fmap_seq.
Qed.

(** The first accepted move of a scan keeps the centroids exact: when the
    two stored centroids are the means of the destination [B] and of the
    source [smp :: J], and [incrementalMeans] is given their true sizes,
    it stores the means of [smp :: B] and of [J]. *)
Lemma incrementalMeans_exact (smp cb cj : sample) (B J : list sample)
    (j b : Z) (w w' : WKM) :
  B <> [] -> J <> [] -> b <> j ->
  centroid_at w b = Ret cb -> centroid_at w j = Ret cj ->
  (forall d, (d < dimensions w)%nat ->
     (coord cb d == mean_coord B d)%Q
     /\ (coord cj d == mean_coord (smp :: J) d)%Q) ->
  incrementalMeans smp j b (len (smp :: J)) (len B) w = Ret w' ->
  exists cb' cj',
    centroid_at w' b = Ret cb' /\ centroid_at w' j = Ret cj'
    /\ forall d, (d < dimensions w)%nat ->
         (coord cb' d == mean_coord (smp :: B) d)%Q
         /\ (coord cj' d == mean_coord J d)%Q.
Proof.
  intros HB HJ Hbj Hcb Hcj Hmeans H.
  destruct (incrementalMeans_coords smp cb cj j b _ _ w w' Hbj Hcb Hcj H)
    as (cb' & cj' & Hcb' & Hcj' & Hcoords).
  exists cb', cj'. split; [done|]. split; [done|]. intros d Hd.
  destruct (Hcoords d Hd) as [-> ->]. destruct (Hmeans d Hd) as [Eb Ej].
  split.
  - rewrite Eb. by apply mean_coord_cons_insert.
  - rewrite Ej. by apply mean_coord_cons_remove.
Qed.

Lemma Qsum_app (l k : list Q) : (Qsum (l ++ k) == Qsum l + Qsum k)%Q.
Proof.
  induction l as [|x l IH]; cbn [app Qsum foldr].
  - unfold Qsum. ring.
  - fold (Qsum (l ++ k)). fold (Qsum l). rewrite IH. ring.
Qed.

(** The mean does not depend on where the new member is put. *)
Lemma mean_coord_snoc (s : sample) (P : list sample) (d : nat) :
  (mean_coord (P ++ [s]) d == mean_coord (s :: P) d)%Q.
Proof.
  unfold mean_coord. rewrite fmap_app, Qsum_app, fmap_cons.
  replace (len (P ++ [s])) with (len (s :: P))
    by (unfold len; rewrite length_app; cbn [length]; lia).
  apply Qdiv_comp; [unfold Qsum; cbn; ring|reflexivity].
Qed.

(** ** The size of the source cluster is read once per scan (C1, C2, C3, C9)

    In each inner loop of [cluster] the locals [points] and [n] are read
    before the loop and never again, while [m] is read in every turn.  From
    the second candidate of a scan on, [n] is therefore larger than the
    cluster it stands for. *)

Lemma cluster_start_any (cd1 cd2 : list sample -> list Q * Q)
    (p : option (list (list sample))) (w : WKM) :
  cluster_start cd1 p w = cluster_start cd2 p w.
Proof. unfold cluster_start. by rewrite (init_None_any cd1 cd2). Qed.

Lemma cluster_any (cd1 cd2 : list sample -> list Q * Q) (fuel : nat)
    (p : option (list (list sample))) (w : WKM) :
  cluster cd1 fuel p w = cluster cd2 fuel p w.
Proof. unfold cluster. by rewrite (cluster_run_any cd1 cd2). Qed.

(** C1 (defect).  For the samples 0 0 3 0 2 0 4 in three clusters with
    threshold 0 the partition [0, 2, 5] that the optimisation starts from
    has total energy 38/3, and the fit ends in [0, 3, 4] with total energy
    14: the energy reported after the fit exceeds the initial one. *)
Theorem C1_energy_increases (cumdist : list sample -> list Q * Q) :
  exists w0 w1 w2,
    WKM_new (points1 [0; 0; 3; 0; 2; 0; 4]) 3 0%Q = Ret w0
    /\ cluster_start cumdist None w0 = Ret w1
    /\ cluster cumdist 100 None w0 = Ret w2
    /\ boundaries w1 = [0; 2; 5] /\ boundaries w2 = [0; 3; 4]
    /\ (totalenergy w1 == 38 # 3)%Q
    /\ (totalenergy w2 == 14)%Q
    /\ (totalenergy w1 < totalenergy w2)%Q.
Proof.
  eexists _, _, _.
  split; [reflexivity|].
  split; [rewrite (cluster_start_any cumdist cumdist1); vm_compute; reflexivity|].
  split; [rewrite (cluster_any cumdist cumdist1); vm_compute; reflexivity|].
  split; [reflexivity|]. split; [reflexivity|].
  split; [vm_compute; reflexivity|]. split; vm_compute; reflexivity.
Qed.

(** C2 (defect).  For the samples 0 0 0 3 7 in two clusters the first scan
    of cluster 1 moves its first member, so that cluster 1 is [3, 7] of
    size 2.  For the next candidate, 3, the test of the specification with
    the current size 2 accepts (J1 = 27/4 < J2 = 8, one member stays), but
    the code computes J2 with the size 3 read before the scan (J2 = 6) and
    rejects: the sweep body leaves the boundaries at [0, 3]. *)
Theorem C2_stale_size_rejects (cumdist : list sample -> list Q * Q) :
  exists wn w0 w1 w2 pts,
    WKM_new (points1 [0; 0; 0; 3; 7]) 2 0%Q = Ret wn
    /\ cluster_start cumdist None wn = Ret w0
    /\ cluster_at w0 1 = Ret pts /\ len pts = 3
    /\ attempt FirstHalf pts 3 1 0 w0 = Ret (w1, true)
    /\ cluster_at w1 1 = Ret (points1 [3; 7])
    /\ js_get pts 1 = Some [3%Q]
    /\ spec_accepts FirstHalf [3%Q] 1 w1 = Ret true
    /\ attempt FirstHalf pts 3 1 1 w1 = Ret (w2, false)
    /\ explore (w0, false) 1 = Ret (w2, true)
    /\ boundaries w2 = [0; 3].
Proof.
  eexists _, _, _, _, _.
  split; [reflexivity|].
  split; [rewrite (cluster_start_any cumdist cumdist1); vm_compute; reflexivity|].
  split; [vm_compute; reflexivity|]. split; [reflexivity|].
  split; [vm_compute; reflexivity|].
  repeat (split; [vm_compute; reflexivity|]). reflexivity.
Qed.

(** C3 (defect).  For the samples 0 0 3 0 2 0 4 in three clusters every
    centroid is the mean of its cluster when the loop starts.  The second
    scan of cluster 1 moves two members to cluster 2; with the size 3 read
    before the scan used for both, the stored centroid of cluster 1, which
    now holds the single sample 3, is 9/4 and not its mean 3. *)
Theorem C3_centroid_not_mean (cumdist : list sample -> list Q * Q) :
  exists wn w0 wa wb,
    WKM_new (points1 [0; 0; 3; 0; 2; 0; 4]) 3 0%Q = Ret wn
    /\ cluster_start cumdist None wn = Ret w0
    /\ exact_centroid w0 0 = Ret true
    /\ exact_centroid w0 1 = Ret true
    /\ exact_centroid w0 2 = Ret true
    /\ explore (w0, false) 0 = Ret (wa, false)
    /\ explore (wa, false) 1 = Ret (wb, true)
    /\ numtransfers wb = 2
    /\ boundaries wb = [0; 2; 3]
    /\ cluster_at wb 1 = Ret (points1 [3])
    /\ (exists c : list Q, centroid_at wb 1 = Ret c /\ Qred <$> c = [(9 # 4)%Q])
    /\ exact_centroid wb 1 = Ret false.
Proof.
  eexists _, _, _, _.
  split; [reflexivity|].
  split; [rewrite (cluster_start_any cumdist cumdist1); vm_compute; reflexivity|].
  do 8 (split; [vm_compute; reflexivity|]).
  split; [eexists; split; vm_compute; reflexivity|]. vm_compute; reflexivity.
Qed.

(** C9 (defect).  For the samples 0 1 1 2 4 in two clusters the first fit
    converges in its third sweep, at the boundaries [0, 3]; a second fit of
    the same instance, without a partition, moves one more sample and ends
    at [0, 4]. *)
Theorem C9_second_fit_moves (cumdist : list sample -> list Q * Q) :
  exists w0 r1 r2,
    WKM_new (points1 [0; 1; 1; 2; 4]) 2 0%Q = Ret w0
    /\ cluster_run cumdist 100 None w0 = Ret r1
    /\ r1.2 = [true; true; false]
    /\ iterations r1.1 = 3
    /\ boundaries r1.1 = [0; 3]
    /\ cluster_run cumdist 100 None r1.1 = Ret r2
    /\ boundaries r2.1 = [0; 4]
    /\ numtransfers r2.1 = numtransfers r1.1 + 1.
Proof.
  eexists _, _, _.
  split; [reflexivity|].
  split; [rewrite (cluster_run_any cumdist cumdist1); vm_compute; reflexivity|].
  split; [reflexivity|]. split; [reflexivity|]. split; [reflexivity|].
  split; [rewrite (cluster_run_any cumdist cumdist1); vm_compute; reflexivity|].
  split; reflexivity.
Qed.

(** ** Boundaries stay strictly increasing from 0 (the paths of C4 other
       than [setPartition]) *)

Lemma bnd_mono (w : WKM) (i j : Z) :
  wf_bounds w -> 0 <= i < j -> j <= numclusters w -> bnd w i < bnd w j.
Proof.
  intros [_ Hb] Hij Hj.
  assert (forall k : nat, bnd w i < bnd w (i + 1 + Z.of_nat k)
                          \/ numclusters w < i + 1 + Z.of_nat k) as H.
  { induction k as [|k IH].
    - left. rewrite Z.add_0_r. apply Hb. lia.
    - destruct IH as [IH|IH]; [|right; lia].
      destruct (decide (i + 1 + Z.of_nat (S k) <= numclusters w)); [|right; lia].
      left. specialize (Hb (i + 1 + Z.of_nat k) ltac:(lia)).
      replace (i + 1 + Z.of_nat (S k)) with (i + 1 + Z.of_nat k + 1) by lia. lia. }
  destruct (H (Z.to_nat (j - i - 1))) as [H'|H'].
  - by replace (i + 1 + Z.of_nat (Z.to_nat (j - i - 1))) with j in H' by lia.
  - lia.
Qed.

Lemma wf_bounds_increasing (w : WKM) :
  wf_bounds w -> strictly_increasing (boundaries w).
Proof.
  intros Hwf i j x y Hij Hx Hy. pose proof Hwf as [Hlen _].
  pose proof (lookup_lt_Some _ _ _ Hy) as Hj. unfold len in Hlen.
  pose proof (js_get_bnd w (Z.of_nat i) Hlen ltac:(lia)) as Hi'.
  pose proof (js_get_bnd w (Z.of_nat j) Hlen ltac:(lia)) as Hj'.
  rewrite js_get_nat in Hi', Hj'.
  assert (x = bnd w (Z.of_nat i)) as -> by congruence.
  assert (y = bnd w (Z.of_nat j)) as -> by congruence.
  apply bnd_mono; [done|lia|lia].
Qed.

(** When the first cumulative length is not negative, the first boundary
    that [TS] records is 0. *)
Lemma TS_first_zero (cumdist : list sample -> list Q * Q) (N M : Z) (w : WKM) :
  1 <= M ->
  (forall x, (cumdist (samples w)).1 !! 0%nat = Some x -> (0 <= x)%Q) ->
  exists bs, TS cumdist N M w = Ret (set_initialized true (set_boundaries bs w))
    /\ bs !! 0%nat = Some 0
    /\ strictly_increasing bs.
Proof.
  intros HM Hfirst.
  destruct (TS_returns cumdist N M w) as (bs & Hrun & _ & Hinc & _).
  exists bs. split; [done|]. split; [|done].
  unfold TS in Hrun. cbv zeta in Hrun.
  set (Lcum := (cumdist (samples w)).1) in *.
  set (incr := ((cumdist (samples w)).2 / inject_Z M)%Q) in *.
  assert (upto M = 0 :: (Z.of_nat <$> seq 1 (Z.to_nat M - 1))) as Hup.
  { unfold upto. destruct (Z.to_nat M) as [|m] eqn:Hm; [lia|].
    cbn [seq]. rewrite fmap_cons. by rewrite Nat.sub_succ, Nat.sub_0_r. }
  rewrite Hup, fmap_cons, for_each_cons in Hrun.
  assert (TS_step Lcum incr (0, []) (0 + 1) = Ret (0, [0])) as Hstep.
  { unfold TS_step. cbn [fst snd].
    replace (length Lcum + 2)%nat with (S (length Lcum + 1)) by lia.
    cbn [TS_advance]. unfold TS_continue. cbn [js_contains existsb].
    rewrite orb_false_r. change (js_get Lcum 0) with (Lcum !! 0%nat).
    destruct (Lcum !! 0%nat) as [x|] eqn:Hx; [|done].
    destruct (Qltb x (inject_Z (0 + 1 - 1) * incr)) eqn:Hlt; [|done].
    apply Qltb_spec in Hlt. specialize (Hfirst x eq_refl).
    exfalso. apply (Qlt_not_le _ _ Hlt).
    change (inject_Z (0 + 1 - 1)) with 0%Q. by rewrite Qmult_0_l. }
  rewrite Hstep in Hrun. cbn [mbind result_bind] in Hrun.
  destruct (for_each_inv (TS_step Lcum incr)
              (fun k acc => TS_inv (S k) acc /\ acc.2 !! 0%nat = Some 0)
              ((fun j => j + 1) <$> (Z.of_nat <$> seq 1 (Z.to_nat M - 1)))
              (0, [0])) as (acc & Hacc & _ & H0).
  - split; [|done]. split; [done|]. split; [done|]. split.
    + intros i j x y Hij _ Hy. apply lookup_lt_Some in Hy. cbn in Hy. lia.
    + intros y ->%list_elem_of_singleton. done.
  - intros k x acc _ [Hinv H0].
    destruct (TS_step_inv Lcum incr (S k) acc x Hinv) as (acc' & Hs & Hinv').
    exists acc'. split; [done|]. split; [done|].
    unfold TS_step in Hs. destruct (TS_advance _ _ _ _ _); [|done].
    injection Hs as <-. cbn [snd]. rewrite lookup_app_l; [done|].
    by eapply lookup_lt_Some.
  - rewrite Hacc in Hrun. cbn [mbind result_bind] in Hrun.
    injection Hrun as Hbs. by rewrite <- Hbs.
Qed.

Lemma init_non_ts (cumdist : list sample -> list Q * Q) (method : option string)
    (w : WKM) :
  is_ts method = false -> init cumdist method w = init cumdist None w.
Proof.
  intros Hts. unfold init. destruct (_ <=? 1); [done|]. destruct (_ <=? _); [done|].
  destruct method as [s|]; [|done]. cbn [is_ts] in Hts. rewrite Hts.
  rewrite initdefault_is_resample. by destruct (String.eqb _ "eq").
Qed.

(** Every way of initialising leaves strictly increasing boundaries that
    start at 0, provided the first cumulative length that [cumdist] returns
    is not negative (only [TS] looks at it). *)
Theorem init_boundaries_increasing (cumdist : list sample -> list Q * Q)
    (method : option string) (w0 w : WKM) :
  valid_config w0 ->
  (forall x, (cumdist (samples w0)).1 !! 0%nat = Some x -> (0 <= x)%Q) ->
  init cumdist method w0 = Ret w ->
  strictly_increasing (boundaries w) /\ first_boundary w = Some 0.
Proof.
  intros Hv Hfirst Hrun. destruct (is_ts method) eqn:Hts.
  - destruct (init_None_wf cumdist w0 Hv) as (w1 & Hw1 & Hb1 & _ & _ & _ & Hf1).
    unfold init in Hrun, Hw1.
    change (numclusters (reset w0)) with (numclusters w0) in *.
    change (samples (reset w0)) with (samples w0) in *.
    destruct (numclusters w0 <=? 1) eqn:H1.
    { assert (w1 = w) as -> by congruence.
      split; [by apply wf_bounds_increasing|done]. }
    destruct (len (samples w0) <=? numclusters w0) eqn:H2.
    { assert (w1 = w) as -> by congruence.
      split; [by apply wf_bounds_increasing|done]. }
    destruct method as [s|]; [|done]. cbn [is_ts] in Hts. rewrite Hts in Hrun.
    destruct (TS_first_zero cumdist (len (samples w0)) (numclusters w0) (reset w0))
      as (bs & Hts' & H0 & Hinc); [apply Z.leb_gt in H1; lia|done|].
    assert (w = set_initialized true (set_boundaries bs (reset w0))) as ->
      by congruence.
    split; [done|]. unfold first_boundary. by apply js_get_Some.
  - rewrite init_non_ts in Hrun by done.
    destruct (init_None_wf cumdist w0 Hv) as (w1 & Hw1 & Hb1 & _ & _ & _ & Hf1).
    assert (w1 = w) as -> by congruence.
    split; [by apply wf_bounds_increasing|done].
Qed.

(** Without a partition argument the boundaries of a fit that returns are
    strictly increasing; the first one is never written by the loop, and
    is 0 unless [TS] chose the boundaries (see [TS_first_zero]). *)
Theorem fit_boundaries_increasing (cumdist : list sample -> list Q * Q)
    (ts : bool) (w w' : WKM) (fl : list bool) :
  fresh cumdist ts w ->
  cluster_run cumdist 100 None w = Ret (w', fl) ->
  strictly_increasing (boundaries w')
  /\ (ts = false -> first_boundary w' = Some 0)
  /\ (initialized w = true -> first_boundary w' = first_boundary w).
Proof.
  intros Hfresh Hrun. rewrite cluster_run_unfold in Hrun.
  assert (valid_config w /\ iterations w = 0
          /\ (initialized w = true ->
              pre_bounds w
              /\ (ts = false -> wf_bounds w /\ first_boundary w = Some 0)))
    as ([Hmax HM] & Hit & Hinit).
  { destruct Hfresh as [smp nc th w Hnew|w0 Hv|method w0 w Hv Hrun0].
    - apply WKM_new_fresh in Hnew as (Hv & Hit & Hi).
      split; [done|]. split; [done|]. intros; congruence.
    - split; [done|]. split; [done|]. cbn. intros; congruence.
    - destruct (init_fresh cumdist method w0 Hv) as (w1 & Hrun1 & Hall).
      assert (w1 = w) as -> by congruence. exact Hall. }
  destruct (initialized w) eqn:Hi.
  - cbn [mbind result_bind] in Hrun. destruct (Hinit eq_refl) as [Hpre Hts].
    destruct (getPartition_cases w) as [(cl & Hg & _ & _ & Hne)|(j & Hj & Hg & Hnil)].
    + pose proof (pre_bounds_wf w Hpre Hne) as Hb.
      destruct (cluster_body_wf w Hb Hmax Hit)
        as (w2 & fl2 & Hrun2 & _ & _ & _ & Hwf2 & Hf2).
      assert (w2 = w') as -> by congruence.
      split; [apply wf_bounds_increasing, Hwf2|].
      split; [|done]. intros Hts'. destruct (Hts Hts') as [_ Hf]. congruence.
    + unfold cluster_body in Hrun. by rewrite Hg in Hrun.
  - destruct (init_None_wf cumdist w (conj Hmax HM))
      as (w1 & Hw1 & Hb & Hmax1 & Hit1 & HM1 & Hf1).
    rewrite Hw1 in Hrun. cbn [mbind result_bind] in Hrun.
    destruct (cluster_body_wf w1 Hb Hmax1 Hit1)
      as (w2 & fl2 & Hrun2 & _ & _ & _ & Hwf2 & Hf2).
    assert (w2 = w') as -> by congruence.
    split; [apply wf_bounds_increasing, Hwf2|].
    split; [intros; congruence|done].
Qed.

(** C4 (defect).  [setPartition] rebuilds the boundaries from the supplied
    clusters as [0] followed by [length - 1] of each later cluster, not by
    the offsets at which the clusters start: for two clusters of one sample
    each the boundaries are [0, 0], which is not strictly increasing. *)
Theorem C4_setPartition_boundaries (w : WKM) :
  exists w',
    setPartition [points1 [0]; points1 [1]] w = Ret w'
    /\ boundaries w' = [0; 0]
    /\ ~ strictly_increasing (boundaries w').
Proof.
  destruct (setPartition_cases [points1 [0]; points1 [1]] w)
    as [(_ & w' & Hrun & _ & Hb)|(Hin & _)].
  - exists w'. split; [done|]. split; [done|]. rewrite Hb. cbn.
    intros Hinc. specialize (Hinc 0%nat 1%nat 0 0 ltac:(lia) eq_refl eq_refl). lia.
  - exfalso. apply elem_of_cons in Hin as [Hin|Hin]; [done|].
    apply elem_of_cons in Hin as [Hin|Hin]; [done|]. by apply not_elem_of_nil in Hin.
Qed.

(** * Further properties of the code *)

(** ** The constructor and [init] *)

Lemma leading_digit_range (p : positive) : 0 <= leading_digit p <= 9.
Proof. unfold leading_digit. destruct (Pos.to_uint p); lia. Qed.

Lemma js_parseInt_small (z : Z) : Z.abs z < 10 ^ 21 -> js_parseInt z = z.
Proof.
  intros Hz. unfold js_parseInt.
  destruct (Z.ltb_spec (Z.abs z) (10 ^ 21)); [done|lia].
Qed.

Lemma js_parseInt_le_1 (z : Z) : z <= 1 -> js_parseInt z <= 1.
Proof.
  intros Hz. unfold js_parseInt. destruct (Z.ltb_spec (Z.abs z) (10 ^ 21)); [lia|].
  destruct z as [|p|p]; [lia|lia|]. pose proof (leading_digit_range p). lia.
Qed.

(** The constructor puts the number of clusters into [1, N]: an integer
    below [10^21] in magnitude is clamped, [max(1, min(numclusters, N))],
    and of a larger one [parseInt] keeps the leading digit only, so that
    at most 9 clusters come out.  The threshold is clamped into [0, 1] and
    kept when it is there already.  The instance is as [reset] leaves it.
    On an empty array of samples the constructor fails with a TypeError
    ([samples[0].length]). *)
Theorem WKM_new_clamps (smp : list sample) (nc : Z) (th : Q) :
  smp <> [] ->
  exists w, WKM_new smp nc th = Ret w
    /\ samples w = smp
    /\ 1 <= numclusters w <= len smp
    /\ (Z.abs nc < 10 ^ 21 -> numclusters w = Z.max 1 (Z.min nc (len smp)))
    /\ (10 ^ 21 <= Z.abs nc -> numclusters w <= 9)
    /\ (0 <= threshold w <= 1)%Q
    /\ ((0 <= th <= 1)%Q -> threshold w = th)
    /\ maxiter w = 100 /\ initialized w = false
    /\ (iterations w, numtransfers w, cost w) = (0, 0, 0)
    /\ boundaries w = replicate (Z.to_nat (numclusters w)) 0.
Proof.
  intros Hne. destruct smp as [|s0 smp]; [done|]. unfold WKM_new.
  eexists. split; [done|]. split; [done|].
  assert (1 <= len (s0 :: smp)) as HN by (unfold len; cbn [length]; lia).
  cbn [numclusters reset]. split.
  { destruct (Z.ltb_spec (js_parseInt nc) 1); [lia|].
    destruct (Z.ltb_spec (len (s0 :: smp)) (js_parseInt nc)); lia. }
  split.
  { intros Hsmall. rewrite (js_parseInt_small nc Hsmall).
    destruct (Z.ltb_spec nc 1); [lia|].
    destruct (Z.ltb_spec (len (s0 :: smp)) nc); lia. }
  split.
  { intros Hbig. assert (js_parseInt nc <= 9) as Hd.
    { unfold js_parseInt. destruct (Z.ltb_spec (Z.abs nc) (10 ^ 21)); [lia|].
      destruct nc as [|p|p]; [lia| |]; pose proof (leading_digit_range p); lia. }
    destruct (Z.ltb_spec (js_parseInt nc) 1); [lia|].
    destruct (Z.ltb_spec (len (s0 :: smp)) (js_parseInt nc)); lia. }
  split.
  { cbn [threshold reset]. destruct (Qltb 1 th) eqn:H1; [done|].
    destruct (Qltb th 0) eqn:H0; [done|]. split.
    - apply Qnot_lt_le. intros H%Qltb_spec. congruence.
    - apply Qnot_lt_le. intros H%Qltb_spec. congruence. }
  split.
  { intros [Hlo Hhi]. cbn [threshold reset].
    destruct (Qltb 1 th) eqn:H1.
    { apply Qltb_spec in H1. by apply Qlt_not_le in H1. }
    destruct (Qltb th 0) eqn:H0; [|done].
    apply Qltb_spec in H0. by apply Qlt_not_le in H0. }
  done.
Qed.

Lemma WKM_new_clamps_witness :
  exists w, WKM_new (points1 [0; 1; 9; 10]) (10 ^ 21) (5 # 1) = Ret w
    /\ samples w = points1 [0; 1; 9; 10]
    /\ 1 <= numclusters w <= len (points1 [0; 1; 9; 10])
    /\ (Z.abs (10 ^ 21) < 10 ^ 21
        -> numclusters w = Z.max 1 (Z.min (10 ^ 21) (len (points1 [0; 1; 9; 10]))))
    /\ (10 ^ 21 <= Z.abs (10 ^ 21) -> numclusters w <= 9)
    /\ (0 <= threshold w <= 1)%Q
    /\ ((0 <= 5 # 1 <= 1)%Q -> threshold w = (5 # 1)%Q)
    /\ maxiter w = 100 /\ initialized w = false
    /\ (iterations w, numtransfers w, cost w) = (0, 0, 0)
    /\ boundaries w = replicate (Z.to_nat (numclusters w)) 0.
Proof.
  apply (WKM_new_clamps (points1 [0; 1; 9; 10]) (10 ^ 21) (5 # 1)). discriminate.
Defined.

Lemma upto_lookup_nat (n : Z) (k : nat) :
  (k < Z.to_nat n)%nat -> upto n !! k = Some (Z.of_nat k).
Proof.
  intros Hk. unfold upto. rewrite list_lookup_fmap.
  by rewrite (proj2 (lookup_seq 0 (Z.to_nat n) k k) (conj eq_refl Hk)).
Qed.

Lemma singletons_boundaries (w : WKM) :
  exists w', for_each singleton_boundary (upto (numclusters w)) (reset w) = Ret w'
    /\ boundaries w' = upto (numclusters w)
    /\ initialized w' = false.
Proof.
  destruct (for_each_inv singleton_boundary (singletons_inv (reset w))
              (upto (numclusters w)) (reset w)) as (w' & Hrun & Heq & Hlen & Hat).
  - split; [done|]. split; [cbn; by rewrite length_replicate|]. intros; lia.
  - intros k x s Hx (Heq & Hlen & Hat). apply upto_lookup in Hx as [-> Hk].
    unfold singleton_boundary. rewrite js_set_nat_lt by (rewrite Hlen; cbn; lia).
    cbn [defined mbind result_bind]. eexists. split; [done|].
    split; [done|]. cbn [boundaries set_boundaries].
    split; [by rewrite length_insert|].
    intros j Hj. destruct (decide (j = k)) as [->|Hjk].
    + apply list_lookup_insert_eq. rewrite Hlen. cbn. lia.
    + rewrite list_lookup_insert_ne by done. apply Hat. lia.
  - exists w'. split; [done|]. rewrite upto_length in Hat. cbn in Hlen. split.
    + apply list_eq. intros k. destruct (decide (k < Z.to_nat (numclusters w))%nat).
      * rewrite Hat, upto_lookup_nat by done. done.
      * rewrite !lookup_ge_None_2; [done|rewrite upto_length; lia|lia].
    + assert (config w' = config (reset w)) as Hc by congruence.
      by injection Hc.
Qed.

(** With one cluster, or with as many clusters as samples, [init] ignores
    the method: the boundaries are [0, 1, ..., M-1], and the instance is
    not marked initialised, so that [cluster] will call [init] again. *)
Theorem init_degenerate (cumdist : list sample -> list Q * Q)
    (method : option string) (w : WKM) :
  numclusters w = 1 \/ (1 <= numclusters w /\ len (samples w) <= numclusters w) ->
  exists w', init cumdist method w = Ret w'
    /\ boundaries w' = upto (numclusters w)
    /\ initialized w' = false
    /\ iterations w' = 0.
Proof.
  intros HM. unfold init.
  change (numclusters (reset w)) with (numclusters w).
  change (samples (reset w)) with (samples w).
  destruct (Z.leb_spec (numclusters w) 1) as [H1|H1].
  - assert (numclusters w = 1) as -> by lia. eexists. done.
  - destruct (Z.leb_spec (len (samples w)) (numclusters w)); [|lia].
    destruct (singletons_boundaries w) as (w' & Hrun & Hb & Hi).
    exists w'. rewrite Hrun. split; [done|]. split; [done|]. split; [done|].
    apply (for_each_preserves _ config) in Hrun.
    + by injection Hrun.
    + intros s x s' Hs. unfold singleton_boundary in Hs.
      apply bind_Ret_inv in Hs as (bs & _ & Hs). by injection Hs as <-.
Qed.

Lemma init_degenerate_witness :
  exists w', init cumdist1 (Some "ts") single_instance = Ret w'
    /\ boundaries w' = upto (numclusters single_instance)
    /\ initialized w' = false
    /\ iterations w' = 0.
Proof. apply (init_degenerate cumdist1 (Some "ts") single_instance). by left. Defined.

Lemma lower_ascii_idemp (c : ascii) : lower_ascii (lower_ascii c) = lower_ascii c.
Proof. destruct c as [[] [] [] [] [] [] [] []]; reflexivity. Qed.

Lemma toLowerCase_idemp (s : string) : toLowerCase (toLowerCase s) = toLowerCase s.
Proof.
  induction s as [|c s IH]; [done|]. cbn [toLowerCase].
  by rewrite lower_ascii_idemp, IH.
Qed.

(** The method name is compared without regard to (ASCII) case, and every
    name other than "ts" initialises as no name at all does. *)
Theorem init_method_name (cumdist : list sample -> list Q * Q) (s : string) (w : WKM) :
  init cumdist (Some s) w = init cumdist (Some (toLowerCase s)) w
  /\ (is_ts (Some s) = true \/ init cumdist (Some s) w = init cumdist None w).
Proof.
  split.
  - unfold init. by rewrite toLowerCase_idemp.
  - destruct (is_ts (Some s)) eqn:Hts; [by left|right]. by apply init_non_ts.
Qed.

(** ** Trace segmentation *)

Lemma TS_advance_upper (fuel : nat) (fact : Q) (Lcum : list Q) (bs : list Z)
    (i0 c i' : Z) :
  (forall y, y ∈ bs -> y <= i0) -> i0 <= c -> 0 <= c ->
  TS_advance fuel fact Lcum bs c = Some i' ->
  i' <= Z.max c (Z.max (i0 + 1) (len Lcum)).
Proof.
  intros Hbs. revert c. induction fuel as [|fuel IH]; intros c Hc H0 Hrun; [done|].
  cbn [TS_advance] in Hrun. destruct (TS_continue fact Lcum bs c) eqn:Hcont.
  - apply IH in Hrun; [|lia|lia].
    apply TS_continue_range in Hcont as [Hcont|Hcont]; [lia| |done].
    apply Hbs in Hcont. lia.
  - injection Hrun as <-. lia.
Qed.

Lemma TS_continue_stop (fact : Q) (Lcum : list Q) (bs : list Z) (i : Z) (x : Q) :
  TS_continue fact Lcum bs i = false -> js_get Lcum i = Some x -> ~ (x < fact)%Q.
Proof.
  unfold TS_continue. intros [H _]%orb_false_iff Hx. rewrite Hx in H.
  intros Hlt%Qltb_spec. congruence.
Qed.

Lemma TS_step_placed (Lcum : list Q) (incr : Q) (k : nat) (acc : Z * list Z) :
  TS_placed Lcum incr k acc ->
  exists acc', TS_step Lcum incr acc (Z.of_nat k + 1) = Ret acc'
    /\ TS_placed Lcum incr (S k) acc'.
Proof.
  intros (Hlen & Hle & Hlast & Hat). unfold TS_step.
  assert (0 <= acc.1) as H0 by (destruct k; lia).
  destruct (TS_advance_total (inject_Z (Z.of_nat k + 1 - 1) * incr) Lcum acc.2 acc.1)
    as (i' & Hrun & Hge & Hstop); [done|done|].
  rewrite Hrun. eexists. split; [done|].
  pose proof (TS_continue_false _ _ _ _ Hstop) as Hnew.
  assert (Z.of_nat k <= i' <= len Lcum + Z.of_nat k) as Hi'.
  { destruct k as [|k'].
    - assert (forall y, y ∈ acc.2 -> y <= -1) as Hnone.
      { apply nil_length_inv in Hlen. rewrite Hlen. intros y Hy.
        by apply not_elem_of_nil in Hy. }
      pose proof (TS_advance_upper _ _ _ _ (-1) acc.1 i' Hnone ltac:(lia) H0 Hrun).
      unfold len in *. lia.
    - pose proof (TS_advance_upper _ _ _ _ acc.1 acc.1 i' Hle ltac:(lia) H0 Hrun).
      destruct Hlast as [Hin Hr]. assert (i' <> acc.1) by (intros ->; done). lia. }
  unfold TS_placed. cbn [fst snd].
  split; [rewrite length_app; cbn; lia|]. split.
  { intros y [Hy| ->%list_elem_of_singleton]%elem_of_app; [|lia].
    apply Hle in Hy. lia. }
  split.
  { split; [apply elem_of_app; right; by apply list_elem_of_singleton|done]. }
  intros j y Hy. apply lookup_app_Some in Hy as [Hy|[Hj Hy]]; [by apply Hat|].
  rewrite Hlen in Hj, Hy. apply list_lookup_singleton_Some in Hy as [Hjk <-].
  assert (j = k) as -> by lia. split; [done|].
  intros x Hx. replace (Z.of_nat k + 1 - 1) with (Z.of_nat k) in Hstop by lia.
  by apply (TS_continue_stop _ _ _ _ _ Hstop).
Qed.

(** [TS] always returns [M] boundaries, and boundary [k] lies between [k]
    and [len Lcum + k] (so beyond the samples only by its own rank).  This
    comes from the shape of the loop alone: a comparison with a missing
    cumulative length is false and an index already taken is skipped,
    whatever the values compared. *)
Theorem TS_boundaries (cumdist : list sample -> list Q * Q) (N M : Z) (w : WKM) :
  exists bs, TS cumdist N M w = Ret (set_initialized true (set_boundaries bs w))
    /\ length bs = Z.to_nat M
    /\ forall (k : nat) (y : Z), bs !! k = Some y ->
         Z.of_nat k <= y <= len (cumdist (samples w)).1 + Z.of_nat k.
Proof.
  unfold TS.
  destruct (for_each_inv (TS_step (cumdist (samples w)).1
                            ((cumdist (samples w)).2 / inject_Z M)%Q)
              (TS_placed (cumdist (samples w)).1
                 ((cumdist (samples w)).2 / inject_Z M)%Q)
              ((fun j => j + 1) <$> upto M) (0, []))
    as ([i bs] & -> & Hlen & _ & _ & Hat).
  - split; [done|]. split; [intros y Hy; by apply not_elem_of_nil in Hy|].
    split; [done|]. intros j y Hy. done.
  - intros k x s Hx Hs. rewrite list_lookup_fmap in Hx.
    destruct (upto M !! k) as [x0|] eqn:Hx0; [|done].
    apply upto_lookup in Hx0 as [-> _]. injection Hx as <-.
    by apply TS_step_placed.
  - exists bs. cbn [mbind result_bind fst snd] in *. split; [done|].
    split; [rewrite Hlen, length_fmap; apply upto_length|].
    intros k y Hy. by apply Hat in Hy as [Hr _].
Qed.

(** In exact arithmetic, where [(j - 1) * incr] is the rational
    [(j - 1) * LN / M]: a boundary that [TS] places inside [Lcum] sits on
    a sample whose cumulative length has reached the share of its rank,
    [k * LN / M] for boundary [k]. *)
Theorem TS_stops_at_share (cumdist : list sample -> list Q * Q) (N M : Z) (w : WKM) :
  exists bs, TS cumdist N M w = Ret (set_initialized true (set_boundaries bs w))
    /\ forall (k : nat) (y : Z) (x : Q),
         bs !! k = Some y -> js_get (cumdist (samples w)).1 y = Some x ->
         ~ (x < inject_Z (Z.of_nat k) * ((cumdist (samples w)).2 / inject_Z M))%Q.
Proof.
  unfold TS.
  destruct (for_each_inv (TS_step (cumdist (samples w)).1
                            ((cumdist (samples w)).2 / inject_Z M)%Q)
              (TS_placed (cumdist (samples w)).1
                 ((cumdist (samples w)).2 / inject_Z M)%Q)
              ((fun j => j + 1) <$> upto M) (0, []))
    as ([i bs] & -> & _ & _ & _ & Hat).
  - split; [done|]. split; [intros y Hy; by apply not_elem_of_nil in Hy|].
    split; [done|]. intros j y Hy. done.
  - intros k x s Hx Hs. rewrite list_lookup_fmap in Hx.
    destruct (upto M !! k) as [x0|] eqn:Hx0; [|done].
    apply upto_lookup in Hx0 as [-> _]. injection Hx as <-.
    by apply TS_step_placed.
  - exists bs. cbn [mbind result_bind fst snd] in *. split; [done|].
    intros k y x Hy Hx. apply Hat in Hy as [_ Hstop]. by apply Hstop.
Qed.

(** ** Segments *)

Lemma bnd_le_inc (w : WKM) (i j : Z) :
  len (boundaries w) = numclusters w -> strictly_increasing (boundaries w) ->
  0 <= i <= j -> j < numclusters w -> bnd w i <= bnd w j.
Proof.
  intros Hlen Hinc Hij Hj.
  destruct (decide (i = j)) as [->|Hne]; [lia|].
  pose proof (js_get_bnd w i Hlen ltac:(lia)) as Hi.
  pose proof (js_get_bnd w j Hlen ltac:(lia)) as Hj'.
  apply js_get_Some in Hi as [_ Hi]. apply js_get_Some in Hj' as [_ Hj'].
  pose proof (Hinc (Z.to_nat i) (Z.to_nat j) _ _ ltac:(lia) Hi Hj'). lia.
Qed.

(** With non-negative, strictly increasing boundaries [getPartition] throws
    exactly when the last boundary is not the index of a sample: only the
    tail of the boundaries can make a cluster empty. *)
Theorem getPartition_throws_iff (w : WKM) :
  pre_bounds w -> strictly_increasing (boundaries w) -> 1 <= numclusters w ->
  (exists j, getPartition w = EmptyCluster j)
  <-> len (samples w) <= bnd w (numclusters w - 1).
Proof.
  intros Hpre Hinc HM. pose proof Hpre as [Hlen Hpos].
  assert (forall j, 0 <= j < numclusters w ->
            getClusterSamples w j = [] <-> len (samples w) <= bnd w j) as Hempty.
  { intros j Hj. rewrite getClusterSamples_bnd by done.
    pose proof (bnd_nonneg w j Hpre ltac:(lia)).
    pose proof (bnd_nonneg w (j + 1) Hpre ltac:(lia)).
    rewrite js_slice_empty_iff by done.
    assert (bnd w j < bnd w (j + 1) \/ bnd w (j + 1) = len (samples w)) as Hnext.
    { destruct (decide (j + 1 < numclusters w)) as [Hlt|Hge].
      - left. pose proof (js_get_bnd w j Hlen ltac:(lia)) as Hi.
        pose proof (js_get_bnd w (j + 1) Hlen ltac:(lia)) as Hj'.
        apply js_get_Some in Hi as [_ Hi]. apply js_get_Some in Hj' as [_ Hj'].
        apply (Hinc (Z.to_nat j) (Z.to_nat (j + 1)) _ _ ltac:(lia) Hi Hj').
      - right. unfold bnd. destruct (Z.ltb_spec (j + 1) (numclusters w)); [lia|done]. }
    split.
    - intros Hno. destruct (Z.le_gt_cases (len (samples w)) (bnd w j)); [done|].
      exfalso. apply Hno. exists (bnd w j). lia.
    - intros Hle (i & Hi1 & Hi2). lia. }
  split.
  - intros (j & Hthrow).
    destruct (getPartition_cases w) as [(cl & Hg & _)|(j' & Hj' & Hg & Hnil)];
      [congruence|].
    apply Hempty in Hnil; [|done].
    pose proof (bnd_le_inc w j' (numclusters w - 1) Hlen Hinc ltac:(lia) ltac:(lia)).
    lia.
  - intros Hlast.
    destruct (getPartition_cases w) as [(cl & Hg & _ & _ & Hne)|(j' & Hj' & Hg & Hnil)].
    + exfalso. apply (Hne (numclusters w - 1)); [lia|]. apply Hempty; [lia|done].
    + by exists j'.
Qed.

Lemma getPartition_throws_iff_witness :
  (exists j, getPartition (set_boundaries [0; 5; 6] far_tail_instance) = EmptyCluster j)
  <-> len (samples (set_boundaries [0; 5; 6] far_tail_instance))
      <= bnd (set_boundaries [0; 5; 6] far_tail_instance)
           (numclusters (set_boundaries [0; 5; 6] far_tail_instance) - 1).
Proof.
  apply (getPartition_throws_iff (set_boundaries [0; 5; 6] far_tail_instance)).
  - split; [reflexivity|]. intros y Hy. cbn in Hy.
    repeat (apply elem_of_cons in Hy as [->|Hy]; [lia|]).
    by apply not_elem_of_nil in Hy.
  - intros i j x y Hij Hx Hy. cbn in Hx, Hy.
    destruct i as [|[|[|i]]], j as [|[|[|j]]]; cbn in Hx, Hy; try done; try lia;
      injection Hx as <-; injection Hy as <-; lia.
  - cbn. lia.
Defined.

Lemma js_slice_take_drop {A} (l : list A) (lo hi : Z) :
  0 <= lo <= hi -> hi <= len l ->
  js_slice l (Some lo) (Some hi) = take (Z.to_nat hi - Z.to_nat lo) (drop (Z.to_nat lo) l).
Proof.
  intros Hlo Hhi. unfold js_slice, slice_index.
  destruct (Z.ltb_spec lo 0); [lia|]. destruct (Z.ltb_spec hi 0); [lia|].
  rewrite !Z.min_l by lia. f_equal. lia.
Qed.

Lemma segments_prefix (w : WKM) (k : nat) :
  wf_bounds w -> bnd w 0 = 0 -> Z.of_nat k <= numclusters w ->
  concat (getClusterSamples w <$> upto (Z.of_nat k))
  = take (Z.to_nat (bnd w (Z.of_nat k))) (samples w).
Proof.
  intros Hwf H0. induction k as [|k IH]; intros Hk.
  - change (Z.of_nat 0) with 0. rewrite H0. done.
  - rewrite upto_S, fmap_app, concat_app, IH by lia. cbn [fmap list_fmap concat].
    rewrite app_nil_r. pose proof Hwf as [Hlen Hb].
    rewrite getClusterSamples_bnd by (done || lia).
    pose proof (Hb (Z.of_nat k) ltac:(lia)) as Hk1.
    pose proof (bnd_le w (Z.of_nat k + 1) Hwf ltac:(lia)) as Hk2.
    replace (Z.of_nat (S k)) with (Z.of_nat k + 1) by lia.
    rewrite js_slice_take_drop by lia.
    rewrite <- (take_drop (Z.to_nat (bnd w (Z.of_nat k)))
                  (take (Z.to_nat (bnd w (Z.of_nat k + 1))) (samples w))).
    rewrite take_take, Nat.min_l by lia. f_equal.
    rewrite take_drop_commute. do 2 f_equal. lia.
Qed.

Lemma segments_concat (w : WKM) :
  wf_bounds w -> first_boundary w = Some 0 ->
  concat (getClusterSamples w <$> upto (numclusters w)) = samples w.
Proof.
  intros Hwf Hf. pose proof Hwf as [Hlen Hb].
  assert (0 <= numclusters w) as HM by (rewrite <- Hlen; unfold len; lia).
  destruct (decide (numclusters w = 0)) as [H0|H0].
  - rewrite H0. unfold first_boundary in Hf. apply js_get_range in Hf. lia.
  - assert (bnd w 0 = 0) as Hb0.
    { pose proof (js_get_bnd w 0 Hlen ltac:(lia)) as H.
      unfold first_boundary in Hf. congruence. }
    pose proof (segments_prefix w (Z.to_nat (numclusters w)) Hwf Hb0 ltac:(lia)) as H.
    rewrite Z2Nat.id in H by lia. rewrite H.
    apply take_ge. unfold bnd. destruct (Z.ltb_spec (numclusters w) (numclusters w)); [lia|].
    unfold len. lia.
Qed.

(** ** What a fit leaves alone, and what it returns *)

Lemma for_each_inv_Ret {A St} (body : St -> A -> result St) (Inv : nat -> St -> Prop)
    (l : list A) (s s' : St) :
  Inv 0%nat s ->
  (forall k x s s', l !! k = Some x -> Inv k s -> body s x = Ret s' -> Inv (S k) s') ->
  for_each body l s = Ret s' -> Inv (length l) s'.
Proof.
  revert Inv s. induction l as [|x l IH]; intros Inv s H0 Hstep Hrun.
  - cbn in Hrun. by injection Hrun as <-.
  - rewrite for_each_cons in Hrun. apply bind_Ret_inv in Hrun as (s1 & H1 & Hrun).
    apply (IH (fun k => Inv (S k)) s1); [|intros k y t t' Hy; by apply (Hstep (S k))|done].
    by apply (Hstep 0%nat x s).
Qed.

Lemma config_inputs (w w' : WKM) : config w' = config w -> inputs w' = inputs w.
Proof. unfold config, inputs. intros H. by injection H as -> -> -> -> -> _ _. Qed.

Lemma init_shape (cumdist : list sample -> list Q * Q) (method : option string)
    (w w' : WKM) :
  init cumdist method w = Ret w' ->
  exists bs b, w' = set_initialized b (set_boundaries bs (reset w)).
Proof.
  assert (forall N M v v', TS cumdist N M v = Ret v' ->
            exists bs, v' = set_initialized true (set_boundaries bs v)) as HTS.
  { intros N M v v' H. destruct (TS_returns cumdist N M v) as (bs & Hbs & _).
    rewrite Hbs in H. injection H as <-. by exists bs. }
  assert (forall N M v v', initdefault cumdist N M v = Ret v' ->
            exists bs, v' = set_initialized true (set_boundaries bs v)) as Hdef.
  { intros N M v v' H. unfold initdefault in H.
    apply bind_Ret_inv in H as (v1 & H1 & H). injection H as <-.
    exists (resample_bounds N M). destruct (Qltb _ _); [by injection H1 as <-|].
    apply HTS in H1 as (bs & ->). done. }
  unfold init. change (numclusters (reset w)) with (numclusters w).
  change (samples (reset w)) with (samples w). intros H.
  destruct (numclusters w <=? 1).
  { injection H as <-. by exists [0], false. }
  destruct (len (samples w) <=? numclusters w).
  { apply (for_each_preserves _ (set_boundaries [])) in H.
    - exists (boundaries w'), false.
      transitivity (set_boundaries (boundaries w') (set_boundaries [] w'));
        [by destruct w'|]. by rewrite H.
    - intros s x s' Hs. unfold singleton_boundary in Hs.
      apply bind_Ret_inv in Hs as (bs & _ & Hs). by injection Hs as <-. }
  destruct method as [s|].
  - destruct (String.eqb (toLowerCase s) "ts").
    { apply HTS in H as (bs & ->). by exists bs, true. }
    destruct (String.eqb (toLowerCase s) "eq").
    { injection H as <-. by eexists _, true. }
    apply Hdef in H as (bs & ->). by exists bs, true.
  - apply Hdef in H as (bs & ->). by exists bs, true.
Qed.

Lemma init_inputs (cumdist : list sample -> list Q * Q) (method : option string)
    (w w' : WKM) :
  init cumdist method w = Ret w' -> inputs w' = inputs w.
Proof. intros (bs & b & ->)%init_shape. done. Qed.

Lemma iterate_inputs (fuel : nat) (w : WKM) (flags : list bool) (r : WKM * list bool) :
  iterate fuel w flags = Ret r -> inputs r.1 = inputs w.
Proof.
  revert w flags. induction fuel as [|fuel IH]; intros w flags H; [done|].
  cbn [iterate] in H. apply bind_Ret_inv in H as (r1 & H1 & H). cbv zeta in H.
  apply sweep_config, config_inputs in H1.
  destruct (negb r1.2 || _).
  - injection H as <-. exact H1.
  - apply IH in H. rewrite H. exact H1.
Qed.

Lemma cluster_run_inputs (cumdist : list sample -> list Q * Q) (fuel : nat)
    (p : option (list (list sample))) (w : WKM) (r : WKM * list bool) :
  cluster_run cumdist fuel p w = Ret r -> inputs r.1 = inputs w.
Proof.
  unfold cluster_run, cluster_start. intros H.
  apply bind_Ret_inv in H as (w3 & H3 & H).
  apply bind_Ret_inv in H3 as (w1 & H1 & H3).
  apply bind_Ret_inv in H3 as (w2 & H2 & H3).
  assert (inputs w1 = inputs w) as E1.
  { destruct (initialized w); [by injection H1 as <-|by apply init_inputs in H1]. }
  assert (inputs w2 = inputs w1) as E2.
  { destruct p as [p|].
    - by apply setPartition_config, config_inputs in H2.
    - by apply getPartition_config, proj1, config_inputs in H2. }
  assert (inputs w3 = inputs w2) as E3.
  { apply computeEnergies_config in H3. apply config_inputs. congruence. }
  destruct (numclusters w3 <? 2).
  - injection H as <-. cbn [fst]. congruence.
  - apply bind_Ret_inv in H as (r1 & Hr1 & H).
    apply bind_Ret_inv in H as (w4 & H4 & H). injection H as <-.
    apply iterate_inputs in Hr1. apply computeEnergies_config in H4.
    cbn [fst]. transitivity (inputs r1.1); [|congruence].
    apply config_inputs. congruence.
Qed.

(** A call of [cluster] that returns, with or without a partition, has not
    touched the samples, the number of clusters, the threshold, the
    dimension or the cap on the sweeps. *)
Theorem cluster_keeps_inputs (cumdist : list sample -> list Q * Q) (fuel : nat)
    (p : option (list (list sample))) (w w' : WKM) :
  cluster cumdist fuel p w = Ret w' -> inputs w' = inputs w.
Proof.
  unfold cluster. intros H. apply bind_Ret_inv in H as (r & Hrun & H).
  injection H as <-. by apply cluster_run_inputs in Hrun.
Qed.

Lemma cluster_keeps_inputs_witness :
  exists w', cluster cumdist1 100 (Some [points1 [0; 1]; points1 [9; 10]])
               capped_instance = Ret w'
    /\ inputs w' = inputs capped_instance.
Proof.
  eexists. split; [vm_compute; reflexivity|].
  apply (cluster_keeps_inputs cumdist1 100 (Some [points1 [0; 1]; points1 [9; 10]])
           capped_instance).
  vm_compute. reflexivity.
Defined.

Lemma fit_wf (cumdist : list sample -> list Q * Q) (w w' : WKM) (fl : list bool) :
  fresh cumdist false w ->
  cluster_run cumdist 100 None w = Ret (w', fl) ->
  wf w' /\ first_boundary w' = Some 0.
Proof.
  intros Hfresh Hrun. rewrite cluster_run_unfold in Hrun.
  assert (valid_config w /\ iterations w = 0
          /\ (initialized w = true -> wf_bounds w /\ first_boundary w = Some 0))
    as ([Hmax HM] & Hit & Hinit).
  { remember false as ts eqn:Hts.
    destruct Hfresh as [smp nc th w Hnew|w0 Hv|method w0 w Hv Hrun0].
    - apply WKM_new_fresh in Hnew as (Hv & Hit & Hi).
      split; [done|]. split; [done|]. intros; congruence.
    - split; [done|]. split; [done|]. cbn. intros; congruence.
    - destruct (init_fresh cumdist method w0 Hv) as (w1 & Hrun1 & Hv1 & Hit1 & Hall).
      assert (w1 = w) as -> by congruence.
      split; [done|]. split; [done|]. intros Hi.
      destruct (Hall Hi) as [_ Hwf]. by apply Hwf. }
  destruct (initialized w) eqn:Hi.
  - cbn [mbind result_bind] in Hrun. destruct (Hinit eq_refl) as [Hb Hf].
    destruct (cluster_body_wf w Hb Hmax Hit)
      as (w2 & fl2 & Hrun2 & _ & _ & _ & Hwf2 & Hf2).
    assert (w2 = w') as -> by congruence. split; [done|congruence].
  - destruct (init_None_wf cumdist w (conj Hmax HM))
      as (w1 & Hw1 & Hb & Hmax1 & Hit1 & HM1 & Hf1).
    rewrite Hw1 in Hrun. cbn [mbind result_bind] in Hrun.
    destruct (cluster_body_wf w1 Hb Hmax1 Hit1)
      as (w2 & fl2 & Hrun2 & _ & _ & _ & Hwf2 & Hf2).
    assert (w2 = w') as -> by congruence. split; [done|congruence].
Qed.

(** After a fit of a fresh instance (not initialised by "ts") the clusters
    held by the instance are its segments, none of them is empty, and put
    end to end in order they are the array of samples the instance was
    given: the fit only moves the cuts between neighbouring clusters. *)
Theorem fit_tiles_samples (cumdist : list sample -> list Q * Q) (w w' : WKM)
    (fl : list bool) :
  fresh cumdist false w ->
  cluster_run cumdist 100 None w = Ret (w', fl) ->
  exists cls : list (list sample),
    len cls = numclusters w
    /\ (forall j pts, js_get cls j = Some pts ->
          cluster_at w' j = Ret pts /\ pts <> [])
    /\ concat cls = samples w.
Proof.
  intros Hfresh Hrun. destruct (fit_wf cumdist w w' fl Hfresh Hrun) as [Hwf Hf].
  apply cluster_run_inputs in Hrun as Hin. cbn [fst] in Hin.
  unfold inputs in Hin. injection Hin as _ Hs HM _ _.
  destruct Hwf as (Hb & Hcl & _).
  exists (getClusterSamples w' <$> upto (numclusters w')). split.
  { unfold len. rewrite length_fmap, upto_length, <- HM. destruct Hb as [Hlen _].
    rewrite <- Hlen. unfold len. lia. }
  split.
  - intros j pts Hj. apply js_get_Some in Hj as [Hj0 Hj].
    rewrite list_lookup_fmap in Hj.
    destruct (upto (numclusters w') !! Z.to_nat j) as [x|] eqn:Hx; [|done].
    apply upto_lookup in Hx as [-> Hx]. injection Hj as <-.
    rewrite Z2Nat.id in * by lia. split.
    + by apply cluster_at_wf.
    + by apply wf_bounds_nonempty.
  - rewrite <- Hs. by apply segments_concat.
Qed.

Lemma fit_tiles_samples_witness :
  exists w w' fl,
    WKM_new (points1 [0; 1; 1; 2; 4]) 2 0%Q = Ret w
    /\ cluster_run cumdist1 100 None w = Ret (w', fl)
    /\ exists cls : list (list sample),
         len cls = numclusters w
         /\ (forall j pts, js_get cls j = Some pts ->
               cluster_at w' j = Ret pts /\ pts <> [])
         /\ concat cls = samples w.
Proof.
  eexists. eexists. eexists. split; [reflexivity|]. split; [vm_compute; reflexivity|].
  eapply (fit_tiles_samples cumdist1).
  - apply (fresh_new cumdist1 (points1 [0; 1; 1; 2; 4]) 2 0%Q). reflexivity.
  - vm_compute. reflexivity.
Defined.

(** ** Energies and centroids computed from scratch *)

Lemma js_set_take_S {A} (l l' : list A) (k : nat) (v : A) :
  (k <= length l)%nat -> js_set l (Z.of_nat k) v = Some l' ->
  take (S k) l' = take k l ++ [v] /\ (S k <= length l')%nat.
Proof.
  intros Hk Hset. destruct (decide (k < length l)%nat) as [Hlt|Hge].
  - rewrite js_set_nat_lt in Hset by done. injection Hset as <-.
    rewrite length_insert. split; [|lia].
    rewrite (take_S_r _ _ v) by (by apply list_lookup_insert_eq).
    f_equal. by rewrite take_insert_ge by lia.
  - rewrite js_set_nat_eq in Hset by lia. injection Hset as <-.
    rewrite length_app. cbn [length]. split; [|lia].
    rewrite take_ge by (rewrite length_app; cbn; lia).
    by rewrite take_ge by lia.
Qed.

Lemma computeEnergies_body_stored (w s s' : WKM) (k : nat) :
  energies_stored w k s ->
  computeEnergies_body s (Z.of_nat k) = Ret s' ->
  energies_stored w (S k) s'.
Proof.
  intros (Hcl & Hlen & Hat & Htot) H. unfold computeEnergies_body in H.
  apply bind_Ret_inv in H as (pts & Hpts & H).
  destruct (Z.eqb_spec (len pts) 0) as [|Hne]; [done|]. cbv zeta in H.
  apply bind_Ret_inv in H as (cs & Hcs%defined_Ret_inv & H).
  apply bind_Ret_inv in H as (le & Hle%defined_Ret_inv & H). injection H as <-.
  apply js_set_spec in Hcs as [Hcs1 Hcs2].
  pose proof (js_set_take_S _ _ _ _ Hlen Hle) as [Htake Hlen'].
  apply js_set_spec in Hle as [Hle1 Hle2].
  split; [done|]. split; [done|]. split.
  - intros j Hj. destruct (decide (j = k)) as [->|Hjk].
    + exists pts. split.
      { unfold cluster_at in *. by rewrite <- Hcl. }
      split; [intros ->; by apply Hne|].
      split; [|done]. unfold centroid_at. cbn [centroids set_totalenergy
        set_localenergy set_centroids]. by rewrite Hcs1.
    + destruct (Hat j ltac:(lia)) as (pts' & Hp & Hn & Hc & He).
      exists pts'. split; [done|]. split; [done|]. split.
      * unfold centroid_at in *. cbn [centroids set_totalenergy set_localenergy
          set_centroids]. rewrite Hcs2 by lia. done.
      * cbn [localenergy set_totalenergy set_localenergy]. rewrite Hle2 by lia. done.
  - cbn [totalenergy localenergy set_totalenergy set_localenergy set_centroids].
    rewrite Htake, Qsum_app, Htot. unfold Qsum. cbn [foldr]. ring.
Qed.

Lemma computeEnergies_stored (w w' : WKM) :
  computeEnergies w = Ret w' ->
  (forall j, 0 <= j < numclusters w' ->
     exists pts, cluster_at w' j = Ret pts /\ pts <> []
       /\ centroid_at w' j = Ret (clustercenter pts)
       /\ js_get (localenergy w') j = Some (energy_of pts (clustercenter pts)))
  /\ (totalenergy w' == Qsum (take (Z.to_nat (numclusters w')) (localenergy w')))%Q.
Proof.
  intros H. apply computeEnergies_config in H as Hc. unfold computeEnergies in H.
  apply (for_each_inv_Ret _ (energies_stored w)) in H.
  - destruct H as (Hcl & _ & Hat & Htot). rewrite upto_length in Hat, Htot.
    assert (numclusters w' = numclusters w) as HM.
    { assert (inputs w' = inputs w) as Hin by (apply config_inputs; congruence).
      unfold inputs in Hin. by injection Hin. }
    rewrite HM. split; [|done]. intros j Hj.
    destruct (Hat (Z.to_nat j) ltac:(lia)) as (pts & Hp & Hn & Hce & He).
    rewrite Z2Nat.id in * by lia. exists pts. split; [|done].
    unfold cluster_at in *. by rewrite Hcl.
  - split; [done|]. split; [lia|]. split; [intros; lia|]. done.
  - intros k x s s' Hx Hs Hbody. apply upto_lookup in Hx as [-> _].
    by apply (computeEnergies_body_stored w s).
Qed.

(** When [cluster] returns, with or without a partition and however the
    loop went, every centroid is [math.clustercenter] of the cluster held
    under the same index, every local energy is the energy of that cluster
    about it, and the total energy is the sum of the local energies: the
    closing [computeEnergies] overwrites what the incremental updates left. *)
Theorem fit_energies_from_scratch (cumdist : list sample -> list Q * Q) (fuel : nat)
    (p : option (list (list sample))) (w : WKM) (r : WKM * list bool) :
  cluster_run cumdist fuel p w = Ret r ->
  (forall j, 0 <= j < numclusters r.1 ->
     exists pts, cluster_at r.1 j = Ret pts /\ pts <> []
       /\ centroid_at r.1 j = Ret (clustercenter pts)
       /\ js_get (localenergy r.1) j = Some (energy_of pts (clustercenter pts)))
  /\ (totalenergy r.1
      == Qsum (take (Z.to_nat (numclusters r.1)) (localenergy r.1)))%Q.
Proof.
  unfold cluster_run. intros H. apply bind_Ret_inv in H as (w3 & H3 & H).
  destruct (numclusters w3 <? 2).
  - injection H as <-. unfold cluster_start in H3.
    apply bind_Ret_inv in H3 as (w1 & _ & H3).
    apply bind_Ret_inv in H3 as (w2 & _ & H3).
    by apply computeEnergies_stored in H3.
  - apply bind_Ret_inv in H as (r1 & _ & H).
    apply bind_Ret_inv in H as (w4 & H4 & H). injection H as <-.
    by apply computeEnergies_stored in H4.
Qed.

Lemma fit_energies_from_scratch_witness :
  exists r, cluster_run cumdist1 100 None seven_samples_instance = Ret r
    /\ (forall j, 0 <= j < numclusters r.1 ->
          exists pts, cluster_at r.1 j = Ret pts /\ pts <> []
            /\ centroid_at r.1 j = Ret (clustercenter pts)
            /\ js_get (localenergy r.1) j = Some (energy_of pts (clustercenter pts)))
    /\ (totalenergy r.1
        == Qsum (take (Z.to_nat (numclusters r.1)) (localenergy r.1)))%Q.
Proof.
  eexists. split; [vm_compute; reflexivity|].
  apply (fit_energies_from_scratch cumdist1 100 None seven_samples_instance).
  vm_compute. reflexivity.
Defined.

(** ** The counters of the loop *)

Lemma getPartition_counters (w w' : WKM) :
  getPartition w = Ret w' -> counters w' = counters w.
Proof.
  unfold getPartition. apply for_each_preserves.
  intros s x s' H. unfold getPartition_body in H. cbv zeta in H.
  apply bind_Ret_inv in H as (cl & _ & H).
  destruct (len _ =? 0); [done|]. by injection H as <-.
Qed.

Lemma computeEnergies_counters (w w' : WKM) :
  computeEnergies w = Ret w' -> counters w' = counters w.
Proof.
  unfold computeEnergies. intros H.
  apply (for_each_preserves _ counters) in H; [done|].
  intros s x s' Hs. unfold computeEnergies_body in Hs.
  apply bind_Ret_inv in Hs as (pts & _ & Hs).
  destruct (len pts =? 0); [done|]. cbv zeta in Hs.
  apply bind_Ret_inv in Hs as (cs & _ & Hs).
  apply bind_Ret_inv in Hs as (le & _ & Hs). by injection Hs as <-.
Qed.

Lemma setPartition_loop_counters (p : list (list sample)) (j : Z) (w w' : WKM) :
  setPartition_loop j p w = Ret w' -> counters w' = counters w.
Proof.
  revert j w. induction p as [|pts p IH]; intros j w H.
  - by injection H as <-.
  - cbn [setPartition_loop] in H. destruct (len pts =? 0); [done|].
    apply bind_Ret_inv in H as (cl & _ & H). cbv zeta in H.
    apply IH in H. rewrite H. by destruct (0 <? j).
Qed.

Lemma move_counters (h : half) (smp : sample) (n j m : Z) (J1 J2 : Q) (w w' : WKM) :
  move h smp n j m J1 J2 w = Ret w' ->
  numtransfers w' = numtransfers w + 1 /\ cost w' = cost w.
Proof.
  unfold move. cbv zeta. intros H.
  apply bind_Ret_inv in H as (w1 & (bs & ->)%shift_boundary_config & H).
  apply bind_Ret_inv in H as (w2 & (cs & ->)%incrementalMeans_config & H).
  apply bind_Ret_inv in H as (w3 & (le & ->)%update_localenergy_config & H).
  apply bind_Ret_inv in H as (w4 & (le' & ->)%update_localenergy_config & H).
  apply getPartition_counters in H. unfold counters in H. by injection H as -> ->.
Qed.

Lemma attempt_counters (h : half) (points : list sample) (n j i : Z)
    (w w' : WKM) (ok : bool) :
  attempt h points n j i w = Ret (w', ok) ->
  cost w' = cost w + 1
  /\ (if ok then numtransfers w' = numtransfers w + 1
      else w' = set_cost (cost w + 1) w).
Proof.
  unfold attempt. intros H.
  apply bind_Ret_inv in H as (smp & _ & H). cbv zeta in H.
  apply bind_Ret_inv in H as (pb & _ & H).
  apply bind_Ret_inv in H as (cb & _ & H).
  apply bind_Ret_inv in H as (cj & _ & H).
  apply bind_Ret_inv in H as (ok' & _ & H). destruct ok'.
  - apply bind_Ret_inv in H as (w1 & Hm & H). injection H as <- <-.
    apply move_counters in Hm as [Hn Hc]. done.
  - by injection H as <- <-.
Qed.

Lemma scan_tally (h : half) (k : nat) (points : list sample) (n j : Z) :
  forall (i : Z) (w : WKM) (tr : bool) (r : WKM * bool),
    scan h k points n j i w tr = Ret r -> tally w tr 1 r.
Proof.
  induction k as [|k IH]; intros i w tr r H.
  - injection H as <-. unfold tally. cbn [fst snd].
    rewrite Z.sub_diag, orb_false_r. repeat split; try lia. by destruct w.
  - cbn [scan] in H. apply bind_Ret_inv in H as ([w1 ok] & Ha & H).
    apply attempt_counters in Ha as [Hc Hn]. cbn [fst snd] in H. destruct ok.
    + apply IH in H as (Hd & Hcost & Hfl & _). unfold tally.
      rewrite Hfl. replace (0 <? numtransfers r.1 - numtransfers w) with true
        by (symmetry; apply Z.ltb_lt; lia).
      rewrite orb_true_r. repeat split; try lia.
    + injection H as <-. unfold tally. cbn [fst snd]. subst w1.
      cbn [numtransfers cost set_cost]. rewrite Z.sub_diag, orb_false_r.
      repeat split; lia.
Qed.

Lemma set_cost_twice (a b : Z) (w : WKM) : set_cost a (set_cost b w) = set_cost a w.
Proof. reflexivity. Qed.

Lemma tally_refl (w : WKM) (tr : bool) : tally w tr 0 (w, tr).
Proof.
  unfold tally. cbn [fst snd]. rewrite Z.sub_diag, orb_false_r.
  repeat split; try lia. by destruct w.
Qed.

Lemma tally_trans (w : WKM) (tr : bool) (a b : Z) (r1 r2 : WKM * bool) :
  tally w tr a r1 -> tally r1.1 r1.2 b r2 -> tally w tr (a + b) r2.
Proof.
  intros (Hd1 & Hc1 & Hf1 & Hq1) (Hd2 & Hc2 & Hf2 & Hq2). unfold tally.
  split; [lia|]. split; [lia|]. split.
  - rewrite Hf2, Hf1, <- orb_assoc. f_equal.
    destruct (Z.ltb_spec 0 (numtransfers r1.1 - numtransfers w)),
      (Z.ltb_spec 0 (numtransfers r2.1 - numtransfers r1.1)),
      (Z.ltb_spec 0 (numtransfers r2.1 - numtransfers w)); try done; lia.
  - intros Hd. specialize (Hq1 ltac:(lia)). specialize (Hq2 ltac:(lia)).
    rewrite Hq2, Hq1. apply set_cost_twice.
Qed.

Lemma tally_slack (w : WKM) (tr : bool) (a b : Z) (r : WKM * bool) :
  a <= b -> tally w tr a r -> tally w tr b r.
Proof. intros Hab (Hd & Hc & Hf & Hq). unfold tally. repeat split; try done; lia. Qed.

Lemma explore_tally (acc r : WKM * bool) (j : Z) :
  explore acc j = Ret r -> tally acc.1 acc.2 2 r.
Proof.
  unfold explore. intros H.
  assert (tally acc.1 acc.2 2 acc) as Hid.
  { apply (tally_slack _ _ 0); [lia|]. destruct acc. apply tally_refl. }
  apply bind_Ret_inv in H as (pts & _ & H). cbv zeta in H.
  destruct (len pts <? 2); [by injection H as <-|].
  apply bind_Ret_inv in H as (acc1 & H1 & H).
  assert (tally acc.1 acc.2 1 acc1) as T1.
  { destruct (0 <? j).
    - by apply scan_tally in H1.
    - injection H1 as <-. apply (tally_slack _ _ 0); [lia|].
      destruct acc. apply tally_refl. }
  apply bind_Ret_inv in H as (pts' & _ & H).
  assert (tally acc1.1 acc1.2 1 r) as T2.
  { destruct (len pts' <? 2).
    { injection H as <-. apply (tally_slack _ _ 0); [lia|].
      destruct acc1. apply tally_refl. }
    destruct (j + 1 <? numclusters acc1.1).
    - by apply scan_tally in H.
    - injection H as <-. apply (tally_slack _ _ 0); [lia|].
      destruct acc1. apply tally_refl. }
  apply (tally_trans _ _ 1 1 acc1); done.
Qed.

Lemma sweep_tally (w : WKM) (r : WKM * bool) :
  sweep w = Ret r -> tally w false (2 * Z.max 0 (numclusters w)) r.
Proof.
  unfold sweep. intros H.
  apply (for_each_inv_Ret _ (fun k acc => tally w false (2 * Z.of_nat k) acc)) in H.
  - rewrite upto_length in H. eapply tally_slack; [|exact H]. lia.
  - apply (tally_refl w false).
  - intros k x s s' _ Hs Hbody. apply explore_tally in Hbody.
    replace (2 * Z.of_nat (S k)) with (2 * Z.of_nat k + 2) by lia.
    by apply (tally_trans _ _ _ _ s).
Qed.

(** A sweep reports a transfer exactly when it has moved a sample.  Every
    move is one evaluated candidate, and each of the at most two scans per
    cluster evaluates at most one candidate that is not moved.  A sweep
    that reports no transfer has changed nothing but [cost]. *)
Theorem sweep_accounting (w : WKM) (r : WKM * bool) :
  sweep w = Ret r ->
  0 <= numtransfers r.1 - numtransfers w
  /\ (r.2 = true <-> 0 < numtransfers r.1 - numtransfers w)
  /\ numtransfers r.1 - numtransfers w <= cost r.1 - cost w
  /\ cost r.1 - cost w
     <= numtransfers r.1 - numtransfers w + 2 * Z.max 0 (numclusters w)
  /\ (r.2 = false -> r.1 = set_cost (cost r.1) w).
Proof.
  intros (Hd & Hc & Hf & Hq)%sweep_tally.
  cbn [orb] in Hf. split; [done|]. split.
  { rewrite Hf. apply Z.ltb_lt. }
  split; [lia|]. split; [lia|].
  intros Hfalse. apply Hq. rewrite Hf in Hfalse. apply Z.ltb_ge in Hfalse. lia.
Qed.

Lemma sweep_accounting_witness :
  exists w r, cluster_start cumdist1 None seven_samples_instance = Ret w
    /\ sweep w = Ret r
    /\ 0 <= numtransfers r.1 - numtransfers w
    /\ (r.2 = true <-> 0 < numtransfers r.1 - numtransfers w)
    /\ numtransfers r.1 - numtransfers w <= cost r.1 - cost w
    /\ cost r.1 - cost w
       <= numtransfers r.1 - numtransfers w + 2 * Z.max 0 (numclusters w)
    /\ (r.2 = false -> r.1 = set_cost (cost r.1) w).
Proof.
  eexists _, _. split; [vm_compute; reflexivity|]. split; [vm_compute; reflexivity|].
  refine (sweep_accounting _ _ _). vm_compute. reflexivity.
Defined.

Lemma moving_sweeps_app (fl : list bool) (b : bool) :
  moving_sweeps (fl ++ [b]) = moving_sweeps fl + (if b then 1 else 0).
Proof.
  unfold moving_sweeps, len. rewrite List.filter_app, length_app.
  destruct b; cbn; lia.
Qed.

Lemma iterate_tally (fuel : nat) (w : WKM) (flags : list bool) (r : WKM * list bool) :
  iterate fuel w flags = Ret r ->
  moving_sweeps r.2 - moving_sweeps flags <= numtransfers r.1 - numtransfers w
  /\ numtransfers r.1 - numtransfers w <= cost r.1 - cost w.
Proof.
  revert w flags. induction fuel as [|fuel IH]; intros w flags H; [done|].
  cbn [iterate] in H. apply bind_Ret_inv in H as (r1 & H1 & H). cbv zeta in H.
  apply sweep_tally in H1 as (Hd & Hc & Hfl & _). cbn [orb] in Hfl.
  assert ((if r1.2 then 1 else 0) <= numtransfers r1.1 - numtransfers w) as Hone.
  { rewrite Hfl. destruct (Z.ltb_spec 0 (numtransfers r1.1 - numtransfers w)); lia. }
  destruct (negb r1.2 || _).
  - injection H as <-. cbn [fst snd numtransfers cost set_iterations].
    rewrite moving_sweeps_app. lia.
  - apply IH in H as [Hm Ht]. rewrite moving_sweeps_app in Hm.
    cbn [numtransfers cost set_iterations] in Hm, Ht. lia.
Qed.

Lemma cluster_start_counters (cumdist : list sample -> list Q * Q)
    (p : option (list (list sample))) (w w' : WKM) :
  cluster_start cumdist p w = Ret w' ->
  counters w' = (if initialized w then counters w else (0, 0)).
Proof.
  unfold cluster_start. intros H.
  apply bind_Ret_inv in H as (w1 & H1 & H).
  apply bind_Ret_inv in H as (w2 & H2 & H).
  apply computeEnergies_counters in H. rewrite H.
  assert (counters w2 = counters w1) as ->.
  { destruct p as [p|]; [|by apply getPartition_counters].
    unfold setPartition in H2. by apply setPartition_loop_counters in H2. }
  destruct (initialized w); [by injection H1 as <-|].
  by apply init_shape in H1 as (bs & b & ->).
Qed.

(** The counters over a call of [cluster] that returns.  They start from
    what the instance holds if it is initialised, and from zero if it is
    not ([init] resets them).  Every sweep that reported a transfer has
    moved at least one sample, and every move is one evaluated candidate. *)
Theorem fit_counters (cumdist : list sample -> list Q * Q) (fuel : nat)
    (p : option (list (list sample))) (w : WKM) (r : WKM * list bool) :
  cluster_run cumdist fuel p w = Ret r ->
  moving_sweeps r.2
    <= numtransfers r.1 - (if initialized w then numtransfers w else 0)
  /\ numtransfers r.1 - (if initialized w then numtransfers w else 0)
     <= cost r.1 - (if initialized w then cost w else 0).
Proof.
  unfold cluster_run. intros H. apply bind_Ret_inv in H as (w3 & H3 & H).
  apply cluster_start_counters in H3.
  assert (numtransfers w3 = (if initialized w then numtransfers w else 0)
          /\ cost w3 = (if initialized w then cost w else 0)) as [<- <-].
  { unfold counters in H3. destruct (initialized w); by injection H3. }
  destruct (numclusters w3 <? 2).
  - injection H as <-. cbn [fst snd]. unfold moving_sweeps, len. cbn. lia.
  - apply bind_Ret_inv in H as (r1 & Hr1 & H).
    apply bind_Ret_inv in H as (w4 & H4 & H). injection H as <-.
    apply iterate_tally in Hr1 as [Hm Ht].
    apply computeEnergies_counters in H4. unfold counters in H4.
    injection H4 as Hn4 Hc4. cbn [fst snd]. rewrite Hn4, Hc4.
    change (moving_sweeps []) with 0 in Hm. lia.
Qed.

Lemma fit_counters_witness :
  exists r, cluster_run cumdist1 100 None seven_samples_instance = Ret r
    /\ moving_sweeps r.2
       <= numtransfers r.1
          - (if initialized seven_samples_instance
             then numtransfers seven_samples_instance else 0)
    /\ numtransfers r.1
       - (if initialized seven_samples_instance
          then numtransfers seven_samples_instance else 0)
       <= cost r.1
          - (if initialized seven_samples_instance
             then cost seven_samples_instance else 0).
Proof.
  eexists. split; [vm_compute; reflexivity|].
  apply (fit_counters cumdist1 100 None seven_samples_instance).
  vm_compute. reflexivity.
Defined.

(** ** The total energy during the loop *)

Lemma Qsum_insert (l : list Q) (k : nat) (e v : Q) :
  l !! k = Some e -> (Qsum (<[k := v]> l) == Qsum l + (v - e))%Q.
Proof.
  revert k. induction l as [|x l IH]; intros k Hk; [done|].
  destruct k as [|k].
  - injection Hk as ->. unfold Qsum. cbn [insert list_insert foldr]. ring.
  - cbn in Hk. apply IH in Hk. unfold Qsum in *. cbn [insert list_insert foldr].
    rewrite Hk. ring.
Qed.

Lemma update_localenergy_sum (k : Z) (f : Q -> Q) (w w' : WKM) :
  0 <= k < numclusters w ->
  update_localenergy k f w = Ret w' ->
  exists le e, w' = set_localenergy le w
    /\ (Qsum (take (Z.to_nat (numclusters w)) le)
        == Qsum (take (Z.to_nat (numclusters w)) (localenergy w)) + (f e - e))%Q.
Proof.
  intros Hk H. unfold update_localenergy in H.
  apply bind_Ret_inv in H as (e & He%defined_Ret_inv & H).
  apply bind_Ret_inv in H as (le & Hle%defined_Ret_inv & H). injection H as <-.
  exists le, e. split; [done|].
  apply js_get_range in He as Hr. apply js_get_Some in He as [_ He].
  unfold js_set in Hle. destruct (Z.ltb_spec k 0); [lia|].
  destruct (Z.ltb_spec k (len (localenergy w))); [|lia]. injection Hle as <-.
  rewrite take_insert_lt by lia. apply Qsum_insert.
  rewrite lookup_take_lt by lia. done.
Qed.

Lemma getPartition_shape (w w' : WKM) :
  getPartition w = Ret w' -> exists cl, w' = set_clusters cl w.
Proof.
  intros H. destruct (getPartition_cases w) as [(cl & Hg & _)|(j & _ & Hg & _)].
  - exists cl. congruence.
  - congruence.
Qed.

Lemma move_gap (h : half) (smp : sample) (n j m : Z) (J1 J2 : Q) (w w' : WKM) :
  valid_scan h j w ->
  move h smp n j m J1 J2 w = Ret w' -> (tracked_gap w' == tracked_gap w)%Q.
Proof.
  intros Hv H. pose proof (valid_scan_best h j w Hv) as Hb. destruct Hv as [Hj _].
  unfold move in H. cbv zeta in H.
  apply bind_Ret_inv in H as (w1 & (bs & ->)%shift_boundary_config & H).
  apply bind_Ret_inv in H as (w2 & (cs & ->)%incrementalMeans_config & H).
  apply bind_Ret_inv in H as (w3 & H3 & H).
  apply update_localenergy_sum in H3 as (le1 & e1 & -> & E1); [|done].
  apply bind_Ret_inv in H as (w4 & H4 & H).
  apply update_localenergy_sum in H4 as (le2 & e2 & -> & E2); [|done].
  apply getPartition_shape in H as (cl & ->).
  unfold tracked_gap.
  cbn [totalenergy localenergy numclusters set_clusters set_totalenergy
       set_localenergy set_centroids set_boundaries set_numtransfers] in *.
  rewrite E2, E1. ring.
Qed.

Lemma attempt_gap (h : half) (points : list sample) (n j i : Z)
    (w : WKM) (r : WKM * bool) :
  valid_scan h j w ->
  attempt h points n j i w = Ret r -> (tracked_gap r.1 == tracked_gap w)%Q.
Proof.
  intros Hv H. unfold attempt in H.
  apply bind_Ret_inv in H as (smp & _ & H). cbv zeta in H.
  apply bind_Ret_inv in H as (pb & _ & H).
  apply bind_Ret_inv in H as (cb & _ & H).
  apply bind_Ret_inv in H as (cj & _ & H).
  apply bind_Ret_inv in H as (ok & _ & H). destruct ok.
  - apply bind_Ret_inv in H as (w1 & Hm & H). injection H as <-.
    by apply move_gap in Hm.
  - by injection H as <-.
Qed.

Lemma valid_scan_config (h : half) (j : Z) (w w' : WKM) :
  config w' = config w -> valid_scan h j w -> valid_scan h j w'.
Proof.
  intros Hc. assert (numclusters w' = numclusters w) as HM.
  { apply config_inputs in Hc. unfold inputs in Hc. by injection Hc. }
  unfold valid_scan. by rewrite HM.
Qed.

Lemma scan_gap (h : half) (k : nat) (points : list sample) (n j : Z) :
  forall (i : Z) (w : WKM) (tr : bool) (r : WKM * bool),
    valid_scan h j w ->
    scan h k points n j i w tr = Ret r -> (tracked_gap r.1 == tracked_gap w)%Q.
Proof.
  induction k as [|k IH]; intros i w tr r Hv H.
  - by injection H as <-.
  - cbn [scan] in H. apply bind_Ret_inv in H as (r1 & Ha & H).
    apply attempt_config in Ha as Hc. apply attempt_gap in Ha; [|done].
    destruct r1.2.
    + apply IH in H; [|by apply (valid_scan_config _ _ w)]. by rewrite H.
    + by injection H as <-.
Qed.

Lemma explore_gap (acc r : WKM * bool) (j : Z) :
  0 <= j < numclusters acc.1 ->
  explore acc j = Ret r -> (tracked_gap r.1 == tracked_gap acc.1)%Q.
Proof.
  intros Hj H. unfold explore in H.
  apply bind_Ret_inv in H as (pts & _ & H). cbv zeta in H.
  destruct (len pts <? 2); [by injection H as <-|].
  apply bind_Ret_inv in H as (acc1 & H1 & H).
  assert ((tracked_gap acc1.1 == tracked_gap acc.1)%Q
          /\ numclusters acc1.1 = numclusters acc.1) as [E1 HM].
  { destruct (Z.ltb_spec 0 j).
    - apply scan_config in H1 as Hc. apply scan_gap in H1.
      + split; [done|]. apply config_inputs in Hc. unfold inputs in Hc.
        by injection Hc.
      + split; [done|lia].
    - by injection H1 as <-. }
  apply bind_Ret_inv in H as (pts' & _ & H).
  destruct (len pts' <? 2); [by injection H as <-|].
  destruct (Z.ltb_spec (j + 1) (numclusters acc1.1)).
  - apply scan_gap in H; [by rewrite H|]. split; lia.
  - by injection H as <-.
Qed.

Lemma sweep_gap (w : WKM) (r : WKM * bool) :
  sweep w = Ret r -> (tracked_gap r.1 == tracked_gap w)%Q.
Proof.
  unfold sweep. intros H.
  apply (for_each_inv_Ret _
           (fun _ acc => (tracked_gap acc.1 == tracked_gap w)%Q
                         /\ numclusters acc.1 = numclusters w)) in H.
  - by destruct H.
  - done.
  - intros k x s s' Hx [Hs HM] Hbody. apply upto_lookup in Hx as [_ Hx].
    apply explore_config in Hbody as Hc.
    apply explore_gap in Hbody; [|lia]. split; [by rewrite Hbody|].
    apply config_inputs in Hc. unfold inputs in Hc. injection Hc as _ _ -> _ _.
    done.
Qed.

Lemma iterate_gap (fuel : nat) (w : WKM) (flags : list bool) (r : WKM * list bool) :
  iterate fuel w flags = Ret r -> (tracked_gap r.1 == tracked_gap w)%Q.
Proof.
  revert w flags. induction fuel as [|fuel IH]; intros w flags H; [done|].
  cbn [iterate] in H. apply bind_Ret_inv in H as (r1 & H1 & H). cbv zeta in H.
  apply sweep_gap in H1. destruct (negb r1.2 || _).
  - injection H as <-. exact H1.
  - apply IH in H. rewrite H. exact H1.
Qed.

(** In exact arithmetic the total energy that the loop keeps up to date
    is, after any number of sweeps, the sum of the local energies that it
    keeps up to date: every move adds the same [J1 - J2] to both. *)
Theorem loop_total_is_sum_of_local (cumdist : list sample -> list Q * Q)
    (fuel : nat) (p : option (list (list sample))) (w w1 : WKM)
    (r : WKM * list bool) :
  cluster_start cumdist p w = Ret w1 ->
  iterate fuel w1 [] = Ret r ->
  (totalenergy r.1
   == Qsum (take (Z.to_nat (numclusters r.1)) (localenergy r.1)))%Q.
Proof.
  intros Hstart Hrun. apply iterate_gap in Hrun.
  unfold cluster_start in Hstart.
  apply bind_Ret_inv in Hstart as (v1 & _ & Hstart).
  apply bind_Ret_inv in Hstart as (v2 & _ & Hstart).
  apply computeEnergies_stored in Hstart as [_ Htot].
  unfold tracked_gap in Hrun. rewrite Htot in Hrun.
  apply Qplus_inj_r with (z := (- Qsum (take (Z.to_nat (numclusters r.1))
                                         (localenergy r.1)))%Q).
  rewrite Qplus_opp_r. unfold Qminus in Hrun. rewrite Hrun. ring.
Qed.

Lemma loop_total_is_sum_of_local_witness :
  exists w1 r, cluster_start cumdist1 None seven_samples_instance = Ret w1
    /\ iterate 100 w1 [] = Ret r
    /\ (totalenergy r.1
        == Qsum (take (Z.to_nat (numclusters r.1)) (localenergy r.1)))%Q.
Proof.
  eexists _, _. split; [vm_compute; reflexivity|]. split; [vm_compute; reflexivity|].
  eapply (loop_total_is_sum_of_local cumdist1 100 None seven_samples_instance).
  - vm_compute. reflexivity.
  - vm_compute. reflexivity.
Defined.

(** ** The boundaries of [resample] in closed form *)

Lemma resample_loop_placed (N M : Z) (k : nat) :
  0 <= M <= N -> Z.of_nat k <= N ->
  resample_placed N M k (foldl (resample_step N M) (-1, []) (upto (Z.of_nat k))).
Proof.
  intros HM. induction k as [|k IH]; intros Hk; [done|].
  rewrite upto_S, foldl_snoc.
  specialize (IH ltac:(lia)).
  destruct (foldl (resample_step N M) (-1, []) (upto (Z.of_nat k))) as [b bs].
  unfold resample_step. cbn [fst snd].
  pose proof (quotient_step (Z.of_nat k) M (N + 1) ltac:(lia) ltac:(lia)) as Hq.
  replace (Z.of_nat (S k)) with (Z.of_nat k + 1) by lia.
  destruct k as [|k'].
  - injection IH as -> ->.
    assert (Hq0 : (0 + 1) * M / (N + 1) = 0) by (apply Z.div_small; lia).
    change (Z.of_nat 0) with 0. rewrite Hq0. cbn.
    split; [done|]. split; [done|].
    intros j y Hy. apply list_lookup_singleton_Some in Hy as [-> <-].
    split; [exact Hq0|by left].
  - destruct IH as (Hb & Hlen & Hat). cbn [fst snd] in *.
    set (K := Z.of_nat (S k')) in *.
    assert (HK : Z.of_nat (S (S k')) = K + 1) by lia.
    destruct (Z.ltb_spec b ((K + 1) * M / (N + 1))) as [Hlt|Hge];
      unfold resample_placed; cbn [fst snd]; rewrite HK.
    + split; [done|]. split.
      { unfold len in *. rewrite length_app. cbn [length]. lia. }
      intros j y Hy. apply lookup_app_Some in Hy as [Hy|[Hj Hy]]; [by apply Hat|].
      apply list_lookup_singleton_Some in Hy as [Hj' <-].
      unfold len in Hlen. clear Hat.
      assert (0 <= K * M / (N + 1)) as Hpos by (apply Z.div_pos; lia).
      remember ((K + 1) * M / (N + 1)) as q eqn:Eq.
      remember (K * M / (N + 1)) as q0 eqn:Eq0. clear Eq Eq0.
      split; [lia|]. right. lia.
    + split; [lia|]. split; [done|done].
Qed.

Lemma resample_bounds_bracket (N M : Z) (j : nat) (y : Z) :
  1 <= N -> 1 <= M <= N ->
  resample_bounds N M !! j = Some y ->
  Z.of_nat j * (N + 1) <= (y + 1) * M
  /\ ((j = 0%nat /\ y = 0) \/ (1 <= Z.of_nat j /\ y * M < Z.of_nat j * (N + 1))).
Proof.
  intros HN HM. unfold resample_bounds.
  pose proof (resample_loop_placed N M (Z.to_nat N) ltac:(lia) ltac:(lia)) as Hinv.
  rewrite Z2Nat.id in Hinv by lia.
  destruct (Z.to_nat N) as [|n] eqn:Hn; [lia|].
  destruct Hinv as (_ & _ & Hat). intros Hy. apply Hat in Hy as [Hup Hlo].
  split.
  - rewrite <- Hup. rewrite Z.mul_comm. apply Z.mul_div_le. lia.
  - destruct Hlo as [Hlo|[Hj Hlo]]; [by left|right]. split; [done|].
    pose proof (Z.mul_succ_div_gt (y * M) (N + 1) ltac:(lia)) as Hgt.
    rewrite Hlo in Hgt. lia.
Qed.

(** The boundaries that [resample] installs, in closed form: boundary 0 is
    0 and boundary [j >= 1] is [ceil(j * (N + 1) / M) - 1]. *)
Theorem resample_boundary_formula (N M : Z) (j : nat) (y : Z) :
  1 <= N -> 1 <= M <= N ->
  resample_bounds N M !! j = Some y ->
  y = Z.max 0 ((Z.of_nat j * (N + 1) + M - 1) / M - 1).
Proof.
  intros HN HM Hy.
  apply resample_bounds_bracket in Hy as [Hup [[-> ->]|[Hj Hlo]]]; [| |done..].
  - change (Z.of_nat 0) with 0. rewrite Z.mul_0_l, Z.add_0_l.
    rewrite Z.div_small by lia. lia.
  - assert ((Z.of_nat j * (N + 1) + M - 1) / M = y + 1) as ->; [|nia].
    symmetry. apply (Z.div_unique_pos _ _ _ (Z.of_nat j * (N + 1) + M - 1 - M * (y + 1)));
      lia.
Qed.

Lemma resample_boundary_formula_witness :
  resample_bounds 7 3 !! 2%nat = Some 5
  /\ 5 = Z.max 0 ((Z.of_nat 2 * (7 + 1) + 3 - 1) / 3 - 1).
Proof.
  split; [reflexivity|].
  apply (resample_boundary_formula 7 3 2 5); [lia|lia|reflexivity].
Defined.

(** The clusters that [resample] cuts are balanced: the size [s] of each
    of them is within one of [(N + 1) / M], as
    [(s - 1) * M < N + 1 <= (s + 1) * M]. *)
Theorem resample_sizes_balanced (N M : Z) (w : WKM) (j : Z) :
  numclusters w = M -> len (samples w) = N -> 1 <= M <= N ->
  0 <= j < M ->
  (size (resample N M w) j - 1) * M < N + 1
  /\ N + 1 <= (size (resample N M w) j + 1) * M.
Proof.
  intros HMw HNw HM Hj.
  pose proof (resample_bounds_spec N M ltac:(lia) HM) as (Hlen & _ & _).
  assert (forall i, 0 <= i < M ->
            exists y, bnd (resample N M w) i = y
              /\ resample_bounds N M !! Z.to_nat i = Some y) as Hb.
  { intros i Hi. unfold bnd. cbn [numclusters boundaries samples resample
      set_initialized set_boundaries]. rewrite HMw.
    destruct (Z.ltb_spec i M); [|lia].
    destruct (js_get_lt (resample_bounds N M) i ltac:(lia)) as (y & Hy).
    rewrite Hy. exists y. split; [done|]. by apply js_get_Some in Hy as [_ Hy]. }
  destruct (Hb j Hj) as (y & Hbj & Hy). unfold size. rewrite Hbj.
  apply resample_bounds_bracket in Hy as [Hup Hlo]; [|lia|done].
  rewrite Z2Nat.id in Hup, Hlo by lia.
  destruct (decide (j + 1 < M)) as [Hnext|Hlast].
  - destruct (Hb (j + 1) ltac:(lia)) as (y' & Hbj' & Hy'). rewrite Hbj'.
    apply resample_bounds_bracket in Hy' as [Hup' Hlo']; [|lia|done].
    rewrite Z2Nat.id in Hup', Hlo' by lia.
    destruct Hlo' as [[Hj0 _]|[_ Hlo']]; [lia|].
    destruct Hlo as [[_ ->]|[_ Hlo]]; nia.
  - assert (j + 1 = M) as -> by lia.
    assert (bnd (resample N M w) M = N) as ->.
    { pose proof (bnd_last (resample N M w)) as Hl.
      change (numclusters (resample N M w)) with (numclusters w) in Hl.
      change (samples (resample N M w)) with (samples w) in Hl. congruence. }
    destruct Hlo as [[_ ->]|[_ Hlo]]; nia.
Qed.

Lemma resample_sizes_balanced_witness :
  (size (resample 7 3 seven_samples_instance) 1 - 1) * 3 < 7 + 1
  /\ 7 + 1 <= (size (resample 7 3 seven_samples_instance) 1 + 1) * 3.
Proof.
  apply (resample_sizes_balanced 7 3 seven_samples_instance 1);
    [reflexivity|reflexivity|lia|lia].
Defined.

(** ** Where the partition functions throw *)

Lemma getPartition_from_first (w0 : WKM) (k a : nat)
    (cl0 : list (option (list sample))) (e : Z) :
  (a <= length cl0)%nat ->
  for_each getPartition_body (Z.of_nat <$> seq a k) (set_clusters cl0 w0)
    = EmptyCluster e ->
  exists j : nat, e = Z.of_nat j /\ (a <= j < a + k)%nat
    /\ getClusterSamples w0 (Z.of_nat j) = []
    /\ forall i : nat, (a <= i < j)%nat -> getClusterSamples w0 (Z.of_nat i) <> [].
Proof.
  revert a cl0. induction k as [|k IH]; intros a cl0 Ha H; [done|].
  cbn [seq] in H. rewrite fmap_cons, for_each_cons in H.
  destruct (js_set_nat_le cl0 a (Some (getClusterSamples w0 (Z.of_nat a))) Ha)
    as (cl1 & Hset & _ & _ & Hlen).
  destruct (getPartition_body_nat w0 a cl0 Ha) as (cl1' & Hset' & Hbody).
  assert (cl1' = cl1) as -> by congruence. rewrite Hbody in H.
  destruct (decide (getClusterSamples w0 (Z.of_nat a) = [])) as [Hseg|Hseg].
  - injection H as <-. exists a. split; [done|]. split; [lia|]. split; [done|].
    intros; lia.
  - cbn [mbind result_bind] in H. apply IH in H as (j & -> & Hj & Hnil & Hfirst); [|lia].
    exists j. split; [done|]. split; [lia|]. split; [done|].
    intros i Hi. destruct (decide (i = a)) as [->|Hia]; [done|]. apply Hfirst. lia.
Qed.

(** [getPartition] throws "Empty cluster j" exactly for the first [j]
    whose segment is empty. *)
Theorem getPartition_throws_first (w : WKM) (j : Z) :
  getPartition w = EmptyCluster j
  <-> 0 <= j < numclusters w
      /\ getClusterSamples w j = []
      /\ forall i, 0 <= i < j -> getClusterSamples w i <> [].
Proof.
  assert (forall e, getPartition w = EmptyCluster e ->
            0 <= e < numclusters w /\ getClusterSamples w e = []
            /\ forall i, 0 <= i < e -> getClusterSamples w i <> []) as Hfwd.
  { intros e H. unfold getPartition, upto in H.
    rewrite <- (set_clusters_same w) in H at 2.
    apply getPartition_from_first in H as (jn & -> & Hj & Hnil & Hfirst); [|lia].
    split; [lia|]. split; [done|]. intros i Hi.
    rewrite <- (Z2Nat.id i) by lia. apply Hfirst. lia. }
  split; [apply Hfwd|]. intros (Hj & Hnil & Hfirst).
  destruct (getPartition_cases w) as [(cl & _ & _ & _ & Hne)|(j' & Hj' & Hg & _)].
  - by destruct (Hne j Hj).
  - destruct (Hfwd j' Hg) as (_ & Hnil' & Hfirst').
    destruct (Z.lt_trichotomy j j') as [Hlt|[->|Hgt]]; [|done|].
    + by destruct (Hfirst' j ltac:(lia)).
    + by destruct (Hfirst j' ltac:(lia)).
Qed.

Lemma setPartition_loop_first (p : list (list sample)) (j : Z) (w : WKM) (e : Z) :
  setPartition_loop j p w = EmptyCluster e ->
  exists k : nat, e = j + Z.of_nat k /\ p !! k = Some []
    /\ forall i : nat, (i < k)%nat -> p !! i <> Some [].
Proof.
  revert j w. induction p as [|pts p IH]; intros j w H; [done|].
  cbn [setPartition_loop] in H. destruct (Z.eqb_spec (len pts) 0) as [Hz|Hnz].
  - injection H as <-. exists 0%nat. split; [lia|].
    apply len_nil_iff in Hz as ->. split; [done|]. intros; lia.
  - destruct (js_set (clusters w) j (Some pts)) as [cl|]; [|done].
    cbn [defined mbind result_bind] in H. cbv zeta in H.
    apply IH in H as (k & -> & Hk & Hfirst). exists (S k).
    split; [lia|]. split; [done|]. intros [|i] Hi.
    + cbn. intros [= ->]. by apply Hnz.
    + cbn. apply Hfirst. lia.
Qed.

(** [setPartition] throws "Empty cluster j" exactly for the first [j] at
    which the supplied partition holds an empty cluster. *)
Theorem setPartition_throws_first (p : list (list sample)) (w : WKM) (j : Z) :
  setPartition p w = EmptyCluster j
  <-> exists k : nat, j = Z.of_nat k /\ p !! k = Some []
        /\ forall i : nat, (i < k)%nat -> p !! i <> Some [].
Proof.
  split.
  - intros H. unfold setPartition in H.
    apply setPartition_loop_first in H as (k & -> & Hk). by exists k.
  - intros (k & -> & Hk & Hfirst).
    destruct (setPartition_cases p w) as [(Hno & _)|(_ & j' & Hthrow)].
    + destruct Hno. by apply list_elem_of_lookup_2 in Hk.
    + pose proof Hthrow as Hthrow'. unfold setPartition in Hthrow'.
      apply setPartition_loop_first in Hthrow' as (k' & -> & Hk' & Hfirst').
      destruct (Nat.lt_trichotomy k k') as [Hlt|[->|Hgt]]; [|done|].
      * by destruct (Hfirst' k Hlt).
      * by destruct (Hfirst k' Hgt).
Qed.

Lemma setPartition_loop_shape (p : list (list sample)) (j : Z) (w w' : WKM) :
  setPartition_loop j p w = Ret w' ->
  exists cl bs, w' = set_clusters cl (set_boundaries bs w).
Proof.
  revert j w. induction p as [|pts p IH]; intros j w H.
  - injection H as <-. exists (clusters w), (boundaries w). by destruct w.
  - cbn [setPartition_loop] in H. destruct (len pts =? 0); [done|].
    apply bind_Ret_inv in H as (cl & _ & H). cbv zeta in H.
    apply IH in H as (cl' & bs' & ->). exists cl', bs'. by destruct (0 <? j).
Qed.

Lemma computeEnergies_short (p : list (list sample)) (w : WKM) :
  clusters w = Some <$> p -> @nil sample ∉ p ->
  len p < numclusters w ->
  numclusters w <= len (centroids w) -> numclusters w <= len (localenergy w) ->
  computeEnergies w = Stuck.
Proof.
  intros Hcl Hne Hshort Hcs Hle. unfold computeEnergies, upto.
  replace (Z.to_nat (numclusters w))
    with (length p + S (Z.to_nat (numclusters w) - length p - 1))%nat
    by (unfold len in *; lia).
  rewrite seq_app, fmap_app, for_each_app. cbn [seq]. rewrite fmap_cons.
  destruct (for_each_inv computeEnergies_body
              (fun _ s => clusters s = Some <$> p
                          /\ len (centroids s) = len (centroids w)
                          /\ len (localenergy s) = len (localenergy w))
              (Z.of_nat <$> seq 0 (length p)) (set_totalenergy 0%Q w))
    as (s & -> & Hs & _).
  - done.
  - intros k x s Hx (Hs & Hc & Hl). rewrite list_lookup_fmap in Hx.
    destruct (seq 0 (length p) !! k) as [x0|] eqn:Hx0; [|done].
    apply lookup_seq in Hx0 as [-> Hk]. injection Hx as <-. cbn [Nat.add].
    destruct (lookup_lt_is_Some_2 p k Hk) as [pts Hpts].
    unfold computeEnergies_body, cluster_at. rewrite Hs, js_get_nat.
    rewrite list_lookup_fmap, Hpts. cbn [fmap option_fmap option_map mjoin
      option_join defined mbind result_bind].
    destruct (Z.eqb_spec (len pts) 0) as [Hz|_].
    { apply len_nil_iff in Hz as ->. destruct Hne.
      by apply list_elem_of_lookup_2 in Hpts. }
    destruct (js_set_in_range (centroids s) (Z.of_nat k) (Some (clustercenter pts)))
      as (cs & -> & _ & _ & Hcs'); [unfold len in *; lia|].
    destruct (js_set_in_range (localenergy s) (Z.of_nat k)
                (energy_of pts (clustercenter pts)))
      as (le & -> & _ & _ & Hle'); [unfold len in *; lia|].
    cbn [defined mbind result_bind]. eexists. split; [done|].
    cbn [clusters centroids localenergy set_totalenergy set_localenergy
         set_centroids]. split; [done|]. split; congruence.
  - cbn [mbind result_bind]. rewrite for_each_cons.
    assert (computeEnergies_body s (Z.of_nat (0 + length p)) = Stuck) as ->; [|done].
    unfold computeEnergies_body, cluster_at. rewrite Hs, js_get_nat.
    rewrite list_lookup_fmap, lookup_ge_None_2 by lia. done.
Qed.

(** A partition with fewer clusters than [numclusters] makes [cluster] fail
    with a TypeError: [setPartition] adopts it without looking at
    [numclusters], and [computeEnergies] then reads the length of a cluster
    that is not there. *)
Theorem short_partition_stuck (cumdist : list sample -> list Q * Q) (fuel : nat)
    (smp : list sample) (nc : Z) (th : Q) (p : list (list sample)) (w : WKM) :
  WKM_new smp nc th = Ret w ->
  @nil sample ∉ p -> len p < numclusters w ->
  cluster_run cumdist fuel (Some p) w = Stuck.
Proof.
  intros Hnew Hne Hshort. apply WKM_new_fresh in Hnew as (Hv & _ & Hi).
  unfold cluster_run, cluster_start. rewrite Hi.
  destruct (init_fresh cumdist None w Hv) as (w1 & Hw1 & _).
  rewrite Hw1. cbn [mbind result_bind].
  apply init_shape in Hw1 as (bs & b & ->).
  destruct (setPartition_cases p (set_initialized b (set_boundaries bs (reset w))))
    as [(_ & w2 & Hw2 & Hcl & _)|(Hin & _)]; [|done].
  rewrite Hw2. cbn [mbind result_bind].
  unfold setPartition in Hw2. apply setPartition_loop_shape in Hw2 as (cl & bs' & ->).
  rewrite (computeEnergies_short p); [done|done|done|done| |].
  - cbn. unfold len. rewrite length_replicate. lia.
  - cbn. unfold len. rewrite length_replicate. lia.
Qed.

Lemma short_partition_stuck_witness :
  exists w, WKM_new (points1 [0; 1; 9; 10]) 3 0%Q = Ret w
    /\ cluster_run cumdist1 100 (Some [points1 [0; 1]; points1 [9; 10]]) w = Stuck.
Proof.
  eexists. split; [reflexivity|].
  apply (short_partition_stuck cumdist1 100 (points1 [0; 1; 9; 10]) 3 0%Q).
  - reflexivity.
  - intros Hin. repeat (apply elem_of_cons in Hin as [Hin|Hin]; [done|]).
    by apply not_elem_of_nil in Hin.
  - vm_compute. reflexivity.
Defined.

(** ** The degenerate fits *)

Lemma for_each_fixed {A St} (body : St -> A -> result St) (l : list A) (s : St) :
  (forall x, x ∈ l -> body s x = Ret s) -> for_each body l s = Ret s.
Proof.
  induction l as [|x l IH]; intros H; [done|].
  rewrite for_each_cons, H by (apply elem_of_cons; by left).
  cbn [mbind result_bind]. apply IH. intros y Hy. apply H, elem_of_cons. by right.
Qed.

Lemma bnd_singletons (w : WKM) :
  wf_bounds w -> first_boundary w = Some 0 -> numclusters w = len (samples w) ->
  forall j, 0 <= j <= numclusters w -> bnd w j = j.
Proof.
  intros Hwf Hf HMN. pose proof Hwf as [Hlen Hb].
  assert (forall k : nat, Z.of_nat k <= numclusters w ->
            Z.of_nat k <= bnd w (Z.of_nat k)) as Hlo.
  { induction k as [|k IH]; intros Hk.
    - destruct (decide (numclusters w = 0)) as [H0|H0].
      + change (Z.of_nat 0) with 0. rewrite <- H0 at 2. rewrite bnd_last.
        unfold len. lia.
      + pose proof (Hb 0 ltac:(lia)). change (Z.of_nat 0) with 0. lia.
    - pose proof (Hb (Z.of_nat k) ltac:(lia)).
      replace (Z.of_nat (S k)) with (Z.of_nat k + 1) by lia. lia. }
  assert (forall k : nat, Z.of_nat k <= numclusters w ->
            bnd w (numclusters w - Z.of_nat k) <= numclusters w - Z.of_nat k) as Hhi.
  { induction k as [|k IH]; intros Hk.
    - change (Z.of_nat 0) with 0. rewrite Z.sub_0_r, bnd_last. lia.
    - pose proof (Hb (numclusters w - Z.of_nat (S k)) ltac:(lia)).
      replace (numclusters w - Z.of_nat (S k) + 1)
        with (numclusters w - Z.of_nat k) in * by lia. lia. }
  intros j Hj. pose proof (Hlo (Z.to_nat j) ltac:(lia)).
  pose proof (Hhi (Z.to_nat (numclusters w - j)) ltac:(lia)).
  rewrite Z2Nat.id in * by lia.
  replace (numclusters w - (numclusters w - j)) with j in * by lia. lia.
Qed.

Lemma sweep_singletons (w : WKM) :
  wf w -> (forall j, 0 <= j < numclusters w -> size w j = 1) ->
  sweep w = Ret (w, false).
Proof.
  intros (Hb & Hcl & _) Hone. unfold sweep. apply for_each_fixed.
  intros x Hx. apply list_elem_of_lookup in Hx as [k Hx].
  apply upto_lookup in Hx as [_ Hx]. unfold explore. cbn [fst].
  rewrite (cluster_at_wf w x Hcl Hx). cbn [mbind result_bind].
  rewrite (getClusterSamples_len w x Hb Hx), (Hone x Hx). done.
Qed.

(** When the constructor has made as many clusters as there are samples
    (two at least), the first [cluster()] puts every sample in a cluster of
    its own, makes one sweep in which no cluster is large enough to be
    explored, and returns with both counters at zero. *)
Theorem fit_of_singletons (cumdist : list sample -> list Q * Q)
    (smp : list sample) (nc : Z) (th : Q) (w : WKM) :
  WKM_new smp nc th = Ret w -> numclusters w = len smp -> 2 <= len smp ->
  exists w', cluster_run cumdist 100 None w = Ret (w', [false])
    /\ boundaries w' = upto (len smp)
    /\ (iterations w', numtransfers w', cost w') = (1, 0, 0).
Proof.
  intros Hnew HM Hnc. pose proof (WKM_new_fresh _ _ _ _ Hnew) as (Hv & _ & Hi).
  assert (samples w = smp) as Hs.
  { destruct smp as [|s0 smp]; [done|]. unfold WKM_new in Hnew.
    by injection Hnew as <-. }
  rewrite cluster_run_unfold, Hi.
  destruct (init_None_wf cumdist w Hv) as (w1 & Hw1 & Hb1 & Hmax1 & Hit1 & HM1 & Hf1).
  rewrite Hw1. cbn [mbind result_bind].
  pose proof Hw1 as (bs & b & Hshape)%init_shape.
  assert (samples w1 = smp) as Hs1 by (by rewrite Hshape).
  assert (counters w1 = (0, 0)) as Hc1 by (by rewrite Hshape).
  unfold cluster_body.
  destruct (getPartition_wf w1 Hb1) as (cl & Hg & Hcl). rewrite Hg.
  cbn [mbind result_bind]. apply getPartition_counters in Hg as Hc2.
  destruct (computeEnergies_wf (set_clusters cl w1) Hb1 Hcl) as (w3 & Hw3 & Heq & Hwf3).
  rewrite Hw3. cbn [mbind result_bind]. apply computeEnergies_counters in Hw3 as Hc3.
  assert (config w3 = config w1 /\ geometry w3 = geometry w1) as [Hcfg3 Hgeo3].
  { change (config w1) with (config (set_clusters cl w1)).
    change (geometry w1) with (geometry (set_clusters cl w1)). split; congruence. }
  assert (numclusters w3 = len smp /\ iterations w3 = 0 /\ samples w3 = smp)
    as (HM3 & Hit3 & Hs3).
  { unfold config in Hcfg3. injection Hcfg3 as _ -> -> _ _ _ ->.
    split; [congruence|done]. }
  rewrite HM3. destruct (Z.ltb_spec (len smp) 2); [lia|].
  assert (forall j, 0 <= j <= numclusters w3 -> bnd w3 j = j) as Hbnd.
  { apply bnd_singletons; [apply Hwf3| |congruence].
    unfold first_boundary in *. unfold geometry in Hgeo3.
    injection Hgeo3 as -> _ _. done. }
  assert (sweep w3 = Ret (w3, false)) as Hsweep.
  { apply sweep_singletons; [done|]. intros j Hj. unfold size.
    rewrite !Hbnd by lia. lia. }
  change (iterate 100 w3 []) with
    (r ← sweep w3;
     let w := set_iterations (iterations r.1 + 1) r.1 in
     let flags := [] ++ [r.2] in
     if negb r.2 || (iterations w =? maxiter w) then Ret (w, flags)
     else iterate 99 w flags).
  rewrite Hsweep. cbn [mbind result_bind fst snd negb orb app].
  destruct Hwf3 as (Hb3 & Hcl3 & _).
  destruct (computeEnergies_wf (set_iterations (iterations w3 + 1) w3))
    as (w5 & Hw5 & Heq5 & Hwf5); [exact Hb3|exact Hcl3|].
  rewrite Hw5. cbn [mbind result_bind]. apply computeEnergies_counters in Hw5 as Hc5.
  exists w5. split; [done|].
  assert (config w5 = config (set_iterations (iterations w3 + 1) w3)
          /\ geometry w5 = geometry (set_iterations (iterations w3 + 1) w3))
    as [Hcfg5 Hgeo5] by (split; congruence).
  split.
  - destruct Hwf5 as (Hb5 & _).
    assert (forall j, 0 <= j <= numclusters w5 -> bnd w5 j = j) as Hbnd5.
    { apply bnd_singletons; [done| |].
      - unfold first_boundary in *. unfold geometry in Hgeo5, Hgeo3.
        injection Hgeo5 as -> _ _. cbn [boundaries set_iterations].
        injection Hgeo3 as -> _ _. done.
      - unfold geometry in Hgeo5. injection Hgeo5 as _ -> ->.
        cbn [numclusters samples set_iterations]. congruence. }
    assert (numclusters w5 = len smp) as HM5.
    { unfold geometry in Hgeo5. injection Hgeo5 as _ -> _. done. }
    destruct Hb5 as [Hlen5 _]. apply list_eq. intros k.
    destruct (decide (k < Z.to_nat (len smp))%nat) as [Hk|Hk].
    + rewrite upto_lookup_nat by done.
      pose proof (js_get_bnd w5 (Z.of_nat k) Hlen5 ltac:(lia)) as Hget.
      rewrite js_get_nat, Hbnd5 in Hget by lia. done.
    + rewrite !lookup_ge_None_2; [done|rewrite upto_length; lia|].
      unfold len in *. lia.
  - unfold config in Hcfg5. injection Hcfg5 as _ _ _ _ _ _ ->.
    cbn [iterations set_iterations]. rewrite Hit3.
    unfold counters in *. cbn [numtransfers cost set_iterations set_clusters] in *.
    injection Hc5 as -> ->. injection Hc3 as -> ->. injection Hc1 as -> ->. done.
Qed.

Lemma fit_of_singletons_witness :
  exists w w', WKM_new (points1 [3; 1; 2]) 5 0%Q = Ret w
    /\ cluster_run cumdist1 100 None w = Ret (w', [false])
    /\ boundaries w' = upto (len (points1 [3; 1; 2]))
    /\ (iterations w', numtransfers w', cost w') = (1, 0, 0).
Proof.
  eexists. 
  destruct (fit_of_singletons cumdist1 (points1 [3; 1; 2]) 5 0%Q _ eq_refl)
    as (w' & H); [reflexivity|vm_compute; discriminate|].
  exists w'. split; [reflexivity|exact H].
Defined.

(** With one cluster [cluster()] makes no sweep: the cluster is the whole
    array of samples and the centroid is its centre. *)
Theorem fit_of_one_cluster (cumdist : list sample -> list Q * Q) (fuel : nat)
    (smp : list sample) (nc : Z) (th : Q) (w : WKM) :
  WKM_new smp nc th = Ret w -> (nc <= 1 \/ len smp = 1) ->
  exists w', cluster_run cumdist fuel None w = Ret (w', [])
    /\ boundaries w' = [0]
    /\ cluster_at w' 0 = Ret smp
    /\ centroid_at w' 0 = Ret (clustercenter smp)
    /\ (iterations w', numtransfers w', cost w') = (0, 0, 0).
Proof.
  intros Hnew Hnc. pose proof (WKM_new_fresh _ _ _ _ Hnew) as (Hv & _ & Hi).
  assert (numclusters w = 1 /\ samples w = smp) as [HM Hs].
  { destruct smp as [|s0 smp]; [done|]. unfold WKM_new in Hnew.
    injection Hnew as <-. cbn [numclusters samples reset].
    assert (1 <= len (s0 :: smp)) by (unfold len; cbn [length]; lia).
    assert (nc <= 1 -> js_parseInt nc <= 1) by apply js_parseInt_le_1.
    destruct (Z.ltb_spec (js_parseInt nc) 1); [done|].
    destruct (Z.ltb_spec (len (s0 :: smp)) (js_parseInt nc)); split; (done || lia). }
  rewrite cluster_run_unfold, Hi.
  destruct (init_None_wf cumdist w Hv) as (w1 & Hw1 & Hb1 & _ & Hit1 & HM1 & Hf1).
  assert (boundaries w1 = upto (numclusters w)) as Hbs1.
  { unfold init in Hw1. change (numclusters (reset w)) with (numclusters w) in Hw1.
    rewrite HM in Hw1. injection Hw1 as <-. by rewrite HM. }
  rewrite Hw1. cbn [mbind result_bind].
  pose proof Hw1 as (bs & b & Hshape)%init_shape.
  assert (samples w1 = smp) as Hs1 by (by rewrite Hshape).
  assert (counters w1 = (0, 0)) as Hc1 by (by rewrite Hshape).
  unfold cluster_body.
  destruct (getPartition_wf w1 Hb1) as (cl & Hg & Hcl). rewrite Hg.
  cbn [mbind result_bind]. apply getPartition_counters in Hg as Hc2.
  destruct (computeEnergies_wf (set_clusters cl w1) Hb1 Hcl) as (w3 & Hw3 & Heq & Hwf3).
  rewrite Hw3. cbn [mbind result_bind]. apply computeEnergies_counters in Hw3 as Hc3.
  apply computeEnergies_stored in Hw3 as [Hstored _].
  assert (config w3 = config w1 /\ geometry w3 = geometry w1) as [Hcfg3 Hgeo3].
  { change (config w1) with (config (set_clusters cl w1)).
    change (geometry w1) with (geometry (set_clusters cl w1)). split; congruence. }
  assert (numclusters w3 = 1 /\ iterations w3 = 0 /\ samples w3 = smp
          /\ boundaries w3 = boundaries w1) as (HM3 & Hit3 & Hs3 & Hbs3).
  { unfold config in Hcfg3. injection Hcfg3 as _ -> -> _ _ _ ->.
    unfold geometry in Hgeo3. injection Hgeo3 as -> _ _.
    repeat split; congruence. }
  rewrite HM3. cbn [Z.ltb Z.compare Pos.compare Pos.compare_cont].
  exists w3. split; [done|]. split.
  { rewrite Hbs3, Hbs1, HM. done. }
  destruct Hwf3 as (Hb3 & Hcl3 & _).
  assert (getClusterSamples w3 0 = smp) as Hseg.
  { pose proof (segments_concat w3 Hb3) as Hcat. rewrite HM3 in Hcat.
    change (upto 1) with [0] in Hcat. cbn [fmap list_fmap concat] in Hcat.
    rewrite app_nil_r in Hcat. rewrite <- Hs3. apply Hcat.
    unfold first_boundary. rewrite Hbs3, Hbs1, HM. done. }
  destruct (Hstored 0 ltac:(lia)) as (pts & Hpts & _ & Hcen & _).
  rewrite (cluster_at_wf w3 0 Hcl3 ltac:(lia)), Hseg in Hpts.
  injection Hpts as <-.
  split; [by rewrite (cluster_at_wf w3 0 Hcl3 ltac:(lia)), Hseg|].
  split; [done|]. rewrite Hit3. unfold counters in *.
  cbn [numtransfers cost set_clusters] in *.
  injection Hc3 as -> ->. injection Hc1 as -> ->. done.
Qed.

Lemma fit_of_one_cluster_witness :
  exists w w', WKM_new (points1 [3; 1; 2]) 0 0%Q = Ret w
    /\ cluster_run cumdist1 5 None w = Ret (w', [])
    /\ boundaries w' = [0]
    /\ cluster_at w' 0 = Ret (points1 [3; 1; 2])
    /\ centroid_at w' 0 = Ret (clustercenter (points1 [3; 1; 2]))
    /\ (iterations w', numtransfers w', cost w') = (0, 0, 0).
Proof.
  eexists.
  destruct (fit_of_one_cluster cumdist1 5 (points1 [3; 1; 2]) 0 0%Q _ eq_refl)
    as (w' & H); [left; lia|].
  exists w'. split; [reflexivity|exact H].
Defined.

(** ** Instances of the properties above *)

(** [setPartition] returns exactly when no supplied cluster is empty, and
    then it has replaced the clusters and the boundaries and nothing else:
    [numclusters] and the samples stay as they were, whatever the number
    and the content of the supplied clusters. *)
Theorem setPartition_adopts (p : list (list sample)) (w w' : WKM) :
  setPartition p w = Ret w'
  <-> (@nil sample ∉ p)
      /\ w' = set_clusters (Some <$> p)
                (set_boundaries (0 :: ((fun pts => len pts - 1) <$> tail p)) w).
Proof.
  destruct (setPartition_cases p w)
    as [(Hno & w2 & Hrun & Hcl & Hbs)|(Hin & j & Hthrow)].
  - assert (w2 = set_clusters (Some <$> p)
                   (set_boundaries (0 :: ((fun pts => len pts - 1) <$> tail p)) w))
      as Hshape.
    { pose proof Hrun as Hrun'. unfold setPartition in Hrun'.
      apply setPartition_loop_shape in Hrun' as (cl & bs & Heq).
      rewrite <- Hcl, <- Hbs. rewrite Heq. done. }
    split.
    + intros H. split; [done|]. congruence.
    + intros [_ ->]. congruence.
  - split; [congruence|]. by intros [Hno _].
Qed.

Lemma init_boundaries_increasing_witness :
  exists w, init cumdist1 (Some "ts") far_tail_instance = Ret w
    /\ strictly_increasing (boundaries w) /\ first_boundary w = Some 0.
Proof.
  eexists. split; [vm_compute; reflexivity|].
  apply (init_boundaries_increasing cumdist1 (Some "ts") far_tail_instance).
  - split; [reflexivity|]. vm_compute. split; discriminate.
  - intros x Hx. vm_compute in Hx. injection Hx as <-. discriminate.
  - vm_compute. reflexivity.
Defined.

Lemma fit_boundaries_increasing_witness :
  exists w w' fl,
    WKM_new (points1 [0; 1; 1; 2; 4]) 2 0%Q = Ret w
    /\ cluster_run cumdist1 100 None w = Ret (w', fl)
    /\ strictly_increasing (boundaries w')
    /\ (false = false -> first_boundary w' = Some 0)
    /\ (initialized w = true -> first_boundary w' = first_boundary w).
Proof.
  eexists _, _, _. split; [reflexivity|]. split; [vm_compute; reflexivity|].
  eapply (fit_boundaries_increasing cumdist1 false).
  - apply (fresh_new cumdist1 (points1 [0; 1; 1; 2; 4]) 2 0%Q). reflexivity.
  - vm_compute. reflexivity.
Defined.

Lemma cluster_run_restarts_counter_witness :
  exists r, cluster_run cumdist1 100 None (set_iterations 7 seven_samples_instance)
            = Ret r
    /\ iterations r.1 = len r.2.
Proof.
  eexists. split; [vm_compute; reflexivity|].
  apply (cluster_run_restarts_counter cumdist1 100 None
           (set_iterations 7 seven_samples_instance)).
  - reflexivity.
  - vm_compute. reflexivity.
Defined.

Lemma incrementalMeans_exact_witness :
  exists w',
    incrementalMeans [1%Q] 1 0 3 2 exact_means_instance = Ret w'
    /\ exists cb' cj',
         centroid_at w' 0 = Ret cb' /\ centroid_at w' 1 = Ret cj'
         /\ forall d, (d < dimensions exact_means_instance)%nat ->
              (coord cb' d == mean_coord ([1%Q] :: points1 [0%Z; 1%Z]) d)%Q
              /\ (coord cj' d == mean_coord (points1 [2%Z; 4%Z]) d)%Q.
Proof.
  eexists. split; [vm_compute; reflexivity|].
  apply (incrementalMeans_exact [1%Q] [1 # 2]%Q [7 # 3]%Q
           (points1 [0; 1]) (points1 [2; 4]) 1 0 exact_means_instance).
  - discriminate.
  - discriminate.
  - lia.
  - reflexivity.
  - reflexivity.
  - intros d Hd. change (dimensions exact_means_instance) with 1%nat in Hd.
    assert (d = 0%nat) as -> by lia. vm_compute. split; reflexivity.
  - vm_compute. reflexivity.
Defined.

(** ** What [J1] and [J2] measure *)

Lemma Qsum_ext {A} (f g : A -> Q) (l : list A) :
  (forall x, x ∈ l -> (f x == g x)%Q) -> (Qsum (f <$> l) == Qsum (g <$> l))%Q.
Proof.
  induction l as [|x l IH]; intros H; [reflexivity|].
  rewrite !fmap_cons. unfold Qsum in *. cbn [foldr].
  rewrite IH by (intros y Hy; apply H, elem_of_cons; by right).
  rewrite (H x) by (apply elem_of_cons; by left). reflexivity.
Qed.

Lemma Qsum_plus {A} (f g : A -> Q) (l : list A) :
  (Qsum ((fun x => f x + g x) <$> l) == Qsum (f <$> l) + Qsum (g <$> l))%Q.
Proof.
  induction l as [|x l IH]; [reflexivity|].
  rewrite !fmap_cons. unfold Qsum in *. cbn [foldr]. rewrite IH. ring.
Qed.

Lemma Qsum_scale {A} (k : Q) (f : A -> Q) (l : list A) :
  (Qsum ((fun x => k * f x) <$> l) == k * Qsum (f <$> l))%Q.
Proof.
  induction l as [|x l IH]; [unfold Qsum; cbn; ring|].
  rewrite !fmap_cons. unfold Qsum in *. cbn [foldr]. rewrite IH. ring.
Qed.

Lemma Qsum_zero {A} (l : list A) : (Qsum ((fun _ => 0) <$> l) == 0)%Q.
Proof.
  induction l as [|x l IH]; [reflexivity|].
  rewrite fmap_cons. unfold Qsum in *. cbn [foldr]. rewrite IH. ring.
Qed.

Lemma Qsum_swap {A B} (g : A -> B -> Q) (P : list A) (ds : list B) :
  (Qsum ((fun p => Qsum ((fun d => g p d) <$> ds)) <$> P)
   == Qsum ((fun d => Qsum ((fun p => g p d) <$> P)) <$> ds))%Q.
Proof.
  induction P as [|p P IH].
  - cbn [fmap list_fmap]. symmetry. apply (Qsum_zero ds).
  - rewrite fmap_cons. unfold Qsum at 1. cbn [foldr]. fold (Qsum
      ((fun p => Qsum ((fun d => g p d) <$> ds)) <$> P)). rewrite IH.
    rewrite <- Qsum_plus. apply Qsum_ext. intros d _. rewrite fmap_cons.
    unfold Qsum. cbn [foldr]. reflexivity.
Qed.

Lemma sqL2_coords (D : nat) (u v : sample) :
  length u = D -> length v = D ->
  sqL2 u v
  = Qsum ((fun d => (coord u d - coord v d) * (coord u d - coord v d))%Q <$> seq 0 D).
Proof.
  revert u v. induction D as [|D IH]; intros u v Hu Hv.
  - apply nil_length_inv in Hu as ->. done.
  - destruct u as [|x u]; [done|]. destruct v as [|y v]; [done|].
    unfold sqL2. cbn [zip_with seq]. rewrite fmap_cons. unfold Qsum. cbn [foldr].
    f_equal. fold (Qsum (zip_with (fun x y => (x - y) * (x - y))%Q u v)).
    change (Qsum (zip_with (fun x y => (x - y) * (x - y))%Q u v)) with (sqL2 u v).
    rewrite (IH u v) by (cbn in *; lia). rewrite <- fmap_S_seq, <- list_fmap_compose.
    done.
Qed.

Lemma energy_of_sum (pts : list sample) (c : sample) :
  (energy_of pts c == Qsum ((fun p => sqL2 p c) <$> pts))%Q.
Proof.
  unfold energy_of.
  assert (forall e, (foldl (fun e p => e + sqL2 p c) e pts
                     == e + Qsum ((fun p => sqL2 p c) <$> pts))%Q) as H.
  { induction pts as [|p pts IH]; intros e.
    - unfold Qsum. cbn. ring.
    - cbn [foldl]. rewrite IH, fmap_cons. unfold Qsum. cbn [foldr]. ring. }
  rewrite H. ring.
Qed.

Lemma energy_by_dim (D : nat) (P : list sample) (c : sample) :
  Forall (fun p => length p = D) P -> length c = D ->
  (energy_of P c == Qsum ((fun d => spread P (coord c d) d) <$> seq 0 D))%Q.
Proof.
  intros HP Hc. rewrite energy_of_sum. unfold spread.
  rewrite <- (Qsum_swap (fun p d => (coord p d - coord c d) * (coord p d - coord c d))%Q).
  apply Qsum_ext. intros p Hp. rewrite Forall_forall in HP.
  rewrite (sqL2_coords D) by auto. reflexivity.
Qed.

Lemma spread_expand (P : list sample) (a : Q) (d : nat) :
  (spread P a d
   == Qsum ((fun p => coord p d * coord p d) <$> P)
      - 2 * a * Qsum ((fun p => coord p d) <$> P)
      + inject_Z (len P) * a * a)%Q.
Proof.
  unfold spread. induction P as [|p P IH].
  - unfold Qsum, len. cbn. ring.
  - rewrite !fmap_cons. unfold Qsum in *. cbn [foldr]. rewrite IH.
    replace (len (p :: P)) with (len P + 1) by (unfold len; cbn [length]; lia).
    rewrite inject_Z_succ. ring.
Qed.

Lemma clustercenter_length (D : nat) (P : list sample) :
  Forall (fun p => length p = D) P -> P <> [] -> length (clustercenter P) = D.
Proof.
  intros HP Hne. destruct P as [|p0 P]; [done|]. apply Forall_cons in HP as [Hp0 _].
  unfold clustercenter. by rewrite length_fmap, length_seq.
Qed.

Lemma spread_insert (x : sample) (B : list sample) (d : nat) :
  B <> [] ->
  (spread (x :: B) (mean_coord (x :: B) d) d
   == spread B (mean_coord B d) d
      + inject_Z (len B) / inject_Z (len B + 1)
        * ((coord x d - mean_coord B d) * (coord x d - mean_coord B d)))%Q.
Proof.
  intros HB.
  assert (1 <= len B) as Hm by (unfold len; destruct B; [done|cbn [length]; lia]).
  pose proof (inject_Z_pos (len B) ltac:(lia)) as H1.
  pose proof (inject_Z_pos (len B + 1) ltac:(lia)) as H2.
  rewrite !spread_expand. unfold mean_coord.
  replace (len (x :: B)) with (len B + 1) by (unfold len; cbn [length]; lia).
  rewrite !fmap_cons. unfold Qsum. cbn [foldr].
  fold (Qsum ((fun p => coord p d) <$> B)).
  fold (Qsum ((fun p => coord p d * coord p d)%Q <$> B)).
  rewrite inject_Z_succ in *. field. split; done.
Qed.

Lemma spread_remove (x : sample) (J : list sample) (d : nat) :
  J <> [] ->
  (spread J (mean_coord J d) d
   == spread (x :: J) (mean_coord (x :: J) d) d
      - inject_Z (len (x :: J)) / inject_Z (len (x :: J) - 1)
        * ((coord x d - mean_coord (x :: J) d)
           * (coord x d - mean_coord (x :: J) d)))%Q.
Proof.
  intros HJ.
  assert (1 <= len J) as Hm by (unfold len; destruct J; [done|cbn [length]; lia]).
  pose proof (inject_Z_pos (len J) ltac:(lia)) as H1.
  pose proof (inject_Z_pos (len J + 1) ltac:(lia)) as H2.
  rewrite !spread_expand. unfold mean_coord.
  replace (len (x :: J) - 1) with (len J) by (unfold len; cbn [length]; lia).
  replace (len (x :: J)) with (len J + 1) by (unfold len; cbn [length]; lia).
  rewrite !fmap_cons. unfold Qsum. cbn [foldr].
  fold (Qsum ((fun p => coord p d) <$> J)).
  fold (Qsum ((fun p => coord p d * coord p d)%Q <$> J)).
  rewrite inject_Z_succ in *. field. split; done.
Qed.

Lemma energy_about_center (D : nat) (P : list sample) :
  Forall (fun p => length p = D) P -> P <> [] ->
  (energy_of P (clustercenter P)
   == Qsum ((fun d => spread P (mean_coord P d) d) <$> seq 0 D))%Q.
Proof.
  intros HP Hne. rewrite (energy_by_dim D) by (done || by apply clustercenter_length).
  apply Qsum_ext. intros d Hd%elem_of_seq.
  rewrite (clustercenter_coord P D d) by (done || lia). reflexivity.
Qed.

Lemma sqL2_center (D : nat) (x : sample) (P : list sample) :
  Forall (fun p => length p = D) (x :: P) -> P <> [] ->
  (sqL2 x (clustercenter P)
   == Qsum ((fun d => (coord x d - mean_coord P d) * (coord x d - mean_coord P d))
              <$> seq 0 D))%Q.
Proof.
  intros [Hx HP]%Forall_cons Hne.
  rewrite (sqL2_coords D) by (done || by apply clustercenter_length).
  apply Qsum_ext. intros d Hd%elem_of_seq.
  rewrite (clustercenter_coord P D d) by (done || lia). reflexivity.
Qed.

(** For [math.sqL2] and [math.clustercenter] as modelled, [J1] is what the
    energy of the destination gains: the energy of a cluster [B] with the
    sample [x] added, about its new centre, is the energy of [B] about its
    centre plus [J1] computed from the size and the centre of [B]. *)
Theorem J1_is_energy_gain (D : nat) (x : sample) (B : list sample) :
  Forall (fun p => length p = D) (x :: B) -> B <> [] ->
  (energy_of (x :: B) (clustercenter (x :: B))
   == energy_of B (clustercenter B) + J1_of (len B) x (clustercenter B))%Q.
Proof.
  intros Hdim HB. pose proof Hdim as [Hx HBdim]%Forall_cons.
  rewrite (energy_about_center D (x :: B)) by done.
  rewrite (energy_about_center D B) by done.
  unfold J1_of. rewrite (sqL2_center D) by done.
  rewrite <- Qsum_scale, <- Qsum_plus. apply Qsum_ext. intros d _.
  by apply spread_insert.
Qed.

Lemma J1_is_energy_gain_witness :
  (energy_of ([3%Q] :: points1 [0%Z; 0%Z]) (clustercenter ([3%Q] :: points1 [0%Z; 0%Z]))
   == energy_of (points1 [0%Z; 0%Z]) (clustercenter (points1 [0%Z; 0%Z]))
      + J1_of (len (points1 [0%Z; 0%Z])) [3%Q] (clustercenter (points1 [0%Z; 0%Z])))%Q.
Proof.
  apply (J1_is_energy_gain 1 [3%Q] (points1 [0%Z; 0%Z])).
  - repeat constructor.
  - discriminate.
Defined.

(** For [math.sqL2] and [math.clustercenter] as modelled, [J2] is what the
    energy of the source loses, provided it is computed from the size and
    the centre that the source has when the sample leaves it: the energy
    of the rest [J] about its centre is the energy of [x :: J] about its
    centre less [J2]. *)
Theorem J2_is_energy_loss (D : nat) (x : sample) (J : list sample) :
  Forall (fun p => length p = D) (x :: J) -> J <> [] ->
  (energy_of J (clustercenter J)
   == energy_of (x :: J) (clustercenter (x :: J))
      - J2_of (len (x :: J)) x (clustercenter (x :: J)))%Q.
Proof.
  intros Hdim HJ. pose proof Hdim as [Hx HJdim]%Forall_cons.
  rewrite (energy_about_center D (x :: J)) by done.
  rewrite (energy_about_center D J) by done.
  unfold J2_of. rewrite (sqL2_center D x (x :: J)) by (done || by constructor).
  set (k := (inject_Z (len (x :: J)) / inject_Z (len (x :: J) - 1))%Q).
  transitivity
    (Qsum ((fun d => spread (x :: J) (mean_coord (x :: J) d) d
                     + - k * ((coord x d - mean_coord (x :: J) d)
                              * (coord x d - mean_coord (x :: J) d)))%Q <$> seq 0 D)).
  - apply Qsum_ext. intros d _. rewrite (spread_remove x J d HJ). fold k. ring.
  - rewrite Qsum_plus, Qsum_scale. ring.
Qed.

Lemma J2_is_energy_loss_witness :
  (energy_of (points1 [0%Z; 2%Z]) (clustercenter (points1 [0%Z; 2%Z]))
   == energy_of ([3%Q] :: points1 [0%Z; 2%Z]) (clustercenter ([3%Q] :: points1 [0%Z; 2%Z]))
      - J2_of (len ([3%Q] :: points1 [0%Z; 2%Z])) [3%Q]
          (clustercenter ([3%Q] :: points1 [0%Z; 2%Z])))%Q.
Proof.
  apply (J2_is_energy_loss 1 [3%Q] (points1 [0%Z; 2%Z])).
  - repeat constructor.
  - discriminate.
Defined.

(** ** One move, and the window of a scan *)

Lemma shift_boundary_bnd (h : half) (j : Z) (w w' : WKM) :
  valid_scan h j w ->
  shift_boundary h j w = Ret w' ->
  forall k, bnd w' k
            = match h with
              | FirstHalf => if k =? j then bnd w j + 1 else bnd w k
              | SecondHalf => if k =? j + 1 then bnd w (j + 1) - 1 else bnd w k
              end.
Proof.
  intros [Hj Hh] H k. unfold shift_boundary in H. cbv zeta in H.
  set (idx := match h with FirstHalf => j | SecondHalf => j + 1 end) in *.
  set (step := match h with FirstHalf => 1 | SecondHalf => -1 end) in *.
  assert (0 <= idx < numclusters w) as Hidx by (destruct h; subst idx; lia).
  apply bind_Ret_inv in H as (b & Hb%defined_Ret_inv & H).
  apply bind_Ret_inv in H as (bs & Hbs%defined_Ret_inv & H). injection H as <-.
  apply js_set_spec in Hbs as [Hat Hother].
  rewrite (bnd_set_boundaries w idx _ bs k Hidx Hat Hother).
  assert (bnd w idx = b) as Hbnd.
  { unfold bnd. destruct (Z.ltb_spec idx (numclusters w)); [|lia]. by rewrite Hb. }
  destruct h; subst idx step; rewrite Hbnd; destruct (k =? _); lia.
Qed.

Lemma shift_boundary_pre (h : half) (j : Z) (w w' : WKM) :
  wf_bounds w -> valid_scan h j w ->
  shift_boundary h j w = Ret w' -> pre_bounds w'.
Proof.
  intros Hwf [Hj Hh] H. pose proof Hwf as [Hlen Hb].
  pose proof (wf_bounds_pre w Hwf) as [_ Hpos].
  unfold shift_boundary in H. cbv zeta in H.
  set (idx := match h with FirstHalf => j | SecondHalf => j + 1 end) in *.
  set (step := match h with FirstHalf => 1 | SecondHalf => -1 end) in *.
  assert (0 <= idx < numclusters w) as Hidx by (destruct h; subst idx; lia).
  rewrite (js_get_bnd w idx Hlen Hidx) in H. cbn [defined mbind result_bind] in H.
  destruct (js_set_in_range (boundaries w) idx (bnd w idx + step))
    as (bs & Hset & Hat & Hother & Hlen'); [lia|].
  rewrite Hset in H. cbn [defined mbind result_bind] in H. injection H as <-.
  split; [cbn [boundaries numclusters set_boundaries]; lia|].
  cbn [boundaries set_boundaries]. intros y Hy.
  apply list_elem_of_lookup in Hy as [i Hi]. rewrite <- js_get_nat in Hi.
  destruct (decide (Z.of_nat i = idx)) as [Heq|Hne].
  - rewrite Heq, Hat in Hi. injection Hi as <-.
    pose proof (Hb j Hj) as Hbj. destruct h; subst idx step; lia.
  - rewrite Hother in Hi by done. apply js_get_Some in Hi as [_ Hi].
    apply Hpos. by apply list_elem_of_lookup_2 in Hi.
Qed.

(** An accepted candidate moves one sample: in a well-formed instance,
    after the accepted branch of either inner loop the cluster held under
    [j] has one member less than before, the neighbour it was tested
    against has one more, every other cluster has as many as before, and
    none is empty. *)
Theorem move_transfers_one_sample (h : half) (smp : sample) (n j m : Z)
    (J1 J2 : Q) (w w' : WKM) :
  wf w -> valid_scan h j w ->
  move h smp n j m J1 J2 w = Ret w' ->
  forall k, 0 <= k < numclusters w ->
    exists P P', cluster_at w k = Ret P /\ cluster_at w' k = Ret P'
      /\ P' <> []
      /\ len P' = len P + (if k =? j then -1
                           else if k =? bestcluster_of h j then 1 else 0).
Proof.
  intros (Hwf & Hcl & _) Hv H k Hk. unfold move in H. cbv zeta in H.
  apply bind_Ret_inv in H as (w1 & H1 & H).
  pose proof (shift_boundary_bnd h j (set_numtransfers (numtransfers w + 1) w)
                w1 Hv H1) as Hbnd.
  pose proof (shift_boundary_pre h j (set_numtransfers (numtransfers w + 1) w)
                w1 Hwf Hv H1) as Hpre1.
  apply shift_boundary_config in H1 as (bs & ->).
  apply bind_Ret_inv in H as (w2 & (cs & ->)%incrementalMeans_config & H).
  apply bind_Ret_inv in H as (w3 & (le & ->)%update_localenergy_config & H).
  apply bind_Ret_inv in H as (w4 & (le' & ->)%update_localenergy_config & H).
  match type of H with getPartition ?v = _ => set (w5 := v) in * end.
  assert (pre_bounds w5) as Hpre5 by exact Hpre1.
  assert (forall i, bnd w5 i = bnd (set_boundaries bs
            (set_numtransfers (numtransfers w + 1) w)) i) as Hsame by done.
  assert (forall i, bnd (set_numtransfers (numtransfers w + 1) w) i = bnd w i)
    as Hsame' by done.
  destruct (getPartition_cases w5) as [(cl & Hg & _ & Hat & Hne)|(e & _ & Hg & _)];
    [|congruence].
  assert (w' = set_clusters cl w5) as -> by congruence.
  pose proof (pre_bounds_wf w5 Hpre5 Hne) as Hwf5.
  exists (getClusterSamples w k), (getClusterSamples w5 k).
  split; [by apply cluster_at_wf|]. split.
  { unfold cluster_at. cbn [clusters set_clusters]. by rewrite (Hat k Hk). }
  split; [by apply Hne|].
  rewrite (getClusterSamples_len w5 k Hwf5 Hk), (getClusterSamples_len w k Hwf Hk).
  unfold size. rewrite !Hsame, !Hbnd, !Hsame'.
  destruct Hv as [Hj Hh]. destruct h; cbn [bestcluster_of].
  - assert (k + 1 = j -> bnd w (k + 1) = bnd w j) as A1 by (by intros ->).
    assert (k = j -> bnd w k = bnd w j) as A2 by (by intros ->).
    destruct (Z.eqb_spec (k + 1) j), (Z.eqb_spec k j), (Z.eqb_spec k (j - 1)); lia.
  - assert (k + 1 = j + 1 -> bnd w (k + 1) = bnd w (j + 1)) as A1 by (by intros ->).
    assert (k = j + 1 -> bnd w k = bnd w (j + 1)) as A2 by (by intros ->).
    destruct (Z.eqb_spec (k + 1) (j + 1)), (Z.eqb_spec k (j + 1)), (Z.eqb_spec k j);
      lia.
Qed.

Lemma move_transfers_one_sample_witness :
  exists w w',
    cluster_start cumdist1 None seven_samples_instance = Ret w
    /\ move FirstHalf [3%Q] 3 1 2 0%Q 1%Q w = Ret w'
    /\ forall k, 0 <= k < numclusters w ->
         exists P P', cluster_at w k = Ret P /\ cluster_at w' k = Ret P'
           /\ P' <> []
           /\ len P' = len P + (if k =? 1 then -1
                                else if k =? bestcluster_of FirstHalf 1 then 1
                                     else 0).
Proof.
  eexists _, _. split; [vm_compute; reflexivity|]. split; [vm_compute; reflexivity|].
  refine (move_transfers_one_sample FirstHalf [3%Q] 3 1 2 0%Q 1%Q _ _ _ _ _).
  - split; [split; [reflexivity|]|split].
    + intros k Hk. change (numclusters _) with 3 in Hk.
      assert (k = 0 \/ k = 1 \/ k = 2) as [-> | [-> | ->]] by lia; vm_compute; done.
    + intros k Hk. change (numclusters _) with 3 in Hk.
      assert (k = 0 \/ k = 1 \/ k = 2) as [-> | [-> | ->]] by lia; reflexivity.
    + intros k Hk. change (numclusters _) with 3 in Hk.
      assert (k = 0 \/ k = 1 \/ k = 2) as [-> | [-> | ->]] by lia;
        split; eexists; reflexivity.
  - vm_compute. repeat split; discriminate.
  - vm_compute. reflexivity.
Defined.

Lemma half_floor (n : Z) : Qfloor (inject_Z n / 2) = n / 2.
Proof.
  unfold Qdiv, Qmult, Qinv, inject_Z, Qfloor. cbn [Qnum Qden].
  rewrite Z.mul_1_r. done.
Qed.

(** The window of a scan.  For a threshold between 0 and 1 the first loop
    runs its index up to a bound between 1 and [floor(n / 2) + 1], the
    second down to a bound between [floor(n / 2) - 2] and [n - 2], and a
    larger threshold never widens either window. *)
Theorem threshold_narrows_scans (n : Z) (th th' : Q) :
  0 <= n -> (0 <= th)%Q -> (th <= th')%Q -> (th' <= 1)%Q ->
  1 <= first_bound n th' /\ first_bound n th' <= first_bound n th
  /\ first_bound n th <= n / 2 + 1
  /\ n / 2 - 2 <= second_bound n th
  /\ second_bound n th <= second_bound n th' /\ second_bound n th' <= n - 2.
Proof.
  intros Hn H0 Hle H1. unfold first_bound, second_bound.
  assert (0 <= inject_Z n / 2)%Q as Hhalf.
  { apply Qle_shift_div_l; [reflexivity|]. rewrite Qmult_0_l.
    change 0%Q with (inject_Z 0). by rewrite <- Zle_Qle. }
  assert (forall a b, (a <= b)%Q ->
            (inject_Z n / 2 * a <= inject_Z n / 2 * b)%Q) as Hmono.
  { intros a b Hab. rewrite !(Qmult_comm (inject_Z n / 2)).
    by apply Qmult_le_compat_r. }
  assert (Qfloor (inject_Z n / 2 * (1 - 0)) = n / 2) as E0.
  { rewrite <- half_floor. apply Qfloor_comp. ring. }
  assert (Qfloor (inject_Z n / 2 * (1 + 0)) = n / 2) as E0'.
  { rewrite <- half_floor. apply Qfloor_comp. ring. }
  assert (Qfloor (inject_Z n / 2 * (1 - 1)) = 0) as E1.
  { transitivity (Qfloor (inject_Z 0)); [apply Qfloor_comp; ring|apply Qfloor_Z]. }
  assert (Qfloor (inject_Z n / 2 * (1 + 1)) = n) as E1'.
  { transitivity (Qfloor (inject_Z n)); [apply Qfloor_comp; field|apply Qfloor_Z]. }
  pose proof (Qfloor_resp_le _ _ (Hmono (1 - 1)%Q (1 - th')%Q
    ltac:(apply Qplus_le_r, Qopp_le_compat; exact H1))) as A1.
  pose proof (Qfloor_resp_le _ _ (Hmono (1 - th')%Q (1 - th)%Q
    ltac:(apply Qplus_le_r, Qopp_le_compat; exact Hle))) as A2.
  pose proof (Qfloor_resp_le _ _ (Hmono (1 - th)%Q (1 - 0)%Q
    ltac:(apply Qplus_le_r, Qopp_le_compat; exact H0))) as A3.
  pose proof (Qfloor_resp_le _ _ (Hmono (1 + 0)%Q (1 + th)%Q
    ltac:(apply Qplus_le_r; exact H0))) as B1.
  pose proof (Qfloor_resp_le _ _ (Hmono (1 + th)%Q (1 + th')%Q
    ltac:(apply Qplus_le_r; exact Hle))) as B2.
  pose proof (Qfloor_resp_le _ _ (Hmono (1 + th')%Q (1 + 1)%Q
    ltac:(apply Qplus_le_r; exact H1))) as B3.
  rewrite E0 in A3. rewrite E1 in A1. rewrite E0' in B1. rewrite E1' in B3.
  repeat split; lia.
Qed.

Lemma threshold_narrows_scans_witness :
  1 <= first_bound 7 (1 # 2) /\ first_bound 7 (1 # 2) <= first_bound 7 (1 # 4)
  /\ first_bound 7 (1 # 4) <= 7 / 2 + 1
  /\ 7 / 2 - 2 <= second_bound 7 (1 # 4)
  /\ second_bound 7 (1 # 4) <= second_bound 7 (1 # 2)
  /\ second_bound 7 (1 # 2) <= 7 - 2.
Proof.
  apply (threshold_narrows_scans 7 (1 # 4) (1 # 2)); [lia|discriminate..].
Defined.

(** [init] always returns, whatever the instance and the method: with its
    inputs untouched, the counters at zero, [max(1, numclusters)]
    boundaries, and with the instance marked initialised exactly when
    there is more than one cluster and there are more samples than
    clusters. *)
Theorem init_returns (cumdist : list sample -> list Q * Q) (method : option string)
    (w : WKM) :
  exists w', init cumdist method w = Ret w'
    /\ inputs w' = inputs w
    /\ (iterations w', numtransfers w', cost w') = (0, 0, 0)
    /\ len (boundaries w') = Z.max 1 (numclusters w)
    /\ initialized w'
       = (1 <? numclusters w) && (numclusters w <? len (samples w)).
Proof.
  assert (forall w', init cumdist method w = Ret w' ->
            inputs w' = inputs w
            /\ (iterations w', numtransfers w', cost w') = (0, 0, 0)) as Hshape.
  { intros w' (bs & b & ->)%init_shape. done. }
  assert (forall N M v, exists bs,
            TS cumdist N M v = Ret (set_initialized true (set_boundaries bs v))
            /\ len bs = Z.max 0 M) as HTS.
  { intros N M v. destruct (TS_returns cumdist N M v) as (bs & Hbs & Hlen & _).
    exists bs. split; [done|]. unfold len. lia. }
  assert (forall N M v, 1 <= M <= N -> exists bs,
            initdefault cumdist N M v
              = Ret (set_initialized true (set_boundaries bs v))
            /\ len bs = M) as Hdef.
  { intros N M v HM. rewrite initdefault_is_resample. eexists. split; [done|].
    by apply resample_bounds_spec; lia. }
  unfold init in *. change (numclusters (reset w)) with (numclusters w) in *.
  change (samples (reset w)) with (samples w) in *.
  destruct (Z.leb_spec (numclusters w) 1) as [HM|HM].
  { eexists. split; [done|]. destruct (Hshape _ eq_refl) as [? ?].
    split; [done|]. split; [done|]. cbn [boundaries initialized set_boundaries].
    split; [unfold len; cbn [length]; lia|].
    destruct (Z.ltb_spec 1 (numclusters w)); [lia|done]. }
  destruct (Z.leb_spec (len (samples w)) (numclusters w)) as [HN|HN].
  { destruct (singletons_boundaries w) as (w' & Hrun & Hb & Hi).
    exists w'. split; [done|]. destruct (Hshape _ Hrun) as [? ?].
    split; [done|]. split; [done|]. rewrite Hb, Hi. split.
    - unfold len. rewrite upto_length. lia.
    - destruct (Z.ltb_spec (numclusters w) (len (samples w))); [lia|].
      by rewrite andb_false_r. }
  assert ((1 <? numclusters w) && (numclusters w <? len (samples w)) = true) as ->.
  { apply andb_true_iff. split; apply Z.ltb_lt; lia. }
  destruct method as [s|].
  - destruct (String.eqb (toLowerCase s) "ts").
    { destruct (HTS (len (samples w)) (numclusters w) (reset w)) as (bs & Hrun & Hlen).
      eexists. split; [exact Hrun|]. destruct (Hshape _ Hrun) as [? ?].
      split; [done|]. split; [done|]. cbn [boundaries initialized set_boundaries
        set_initialized]. split; [lia|done]. }
    destruct (String.eqb (toLowerCase s) "eq").
    { eexists. split; [done|]. destruct (Hshape _ eq_refl) as [? ?].
      split; [done|]. split; [done|]. cbn [boundaries initialized set_boundaries
        set_initialized resample]. split; [|done].
      pose proof (resample_bounds_spec (len (samples w)) (numclusters w)
                    ltac:(lia) ltac:(lia)) as [-> _]. lia. }
    destruct (Hdef (len (samples w)) (numclusters w) (reset w) ltac:(lia))
      as (bs & Hrun & Hlen).
    eexists. split; [exact Hrun|]. destruct (Hshape _ Hrun) as [? ?].
    split; [done|]. split; [done|]. cbn [boundaries initialized set_boundaries
      set_initialized]. split; [lia|done].
  - destruct (Hdef (len (samples w)) (numclusters w) (reset w) ltac:(lia))
      as (bs & Hrun & Hlen).
    eexists. split; [exact Hrun|]. destruct (Hshape _ Hrun) as [? ?].
    split; [done|]. split; [done|]. cbn [boundaries initialized set_boundaries
      set_initialized]. split; [lia|done].
Qed.

(** ** What decides whether a visit moves a sample *)






